(** * Vehicle reconciliation server and report client

    A shallow embedding of [server.py] (the [/vehicles] handler and
    [getBaubuddyLabelColor]) and of [client.py] ([processVehicleData],
    [createExcelFile], [dateDiffMonths], [colorByAge]), with the properties
    of the reconciliation, label annotation, recency classification and
    report assembly proved over it.

    Python dictionaries with string keys are [gmap string value]; Python
    text is a [string] holding its UTF-8 encoding; uncaught Python
    exceptions are the [Raise] outcome of [result]; the label cache and the
    log of remote calls are threaded explicitly. *)

From Stdlib Require Import ZArith Ascii.
From stdpp Require Import gmap strings list fin_maps sorting.

Local Open Scope Z_scope.

(** ** Python values and exceptions *)

(** The exceptions the modelled code can let escape. *)
Inductive exn : Type :=
  | KeyError
  | TypeError
  | ValueError
  | AttributeError
  | IndexError.

Inductive result (A : Type) : Type :=
  | Ok (a : A)
  | Raise (e : exn).
Arguments Ok {A} a.
Arguments Raise {A} e.

#[global] Instance result_ret : MRet result := @Ok.
#[global] Instance result_bind : MBind result := λ A B f m,
  match m with Ok a => f a | Raise e => Raise e end.

(** Field values of flat records: what [csv.DictReader] produces (a string,
    or [None] for a short row) and the scalar values of a JSON object.
    Non-integer JSON numbers are not represented. *)
Inductive value : Type :=
  | VNone
  | VBool (b : bool)
  | VInt (n : Z)
  | VStr (s : string).

#[global] Instance value_eq_dec : EqDecision value.
Proof. solve_decision. Defined.

(** Python truthiness, as used by [not v[key]], [if x[KEY_HU]] and the like. *)
Definition truthy (x : value) : bool :=
  match x with
  | VNone => false
  | VBool b => b
  | VInt n => negb (n =? 0)
  | VStr EmptyString => false
  | VStr (String _ _) => true
  end.

Abbreviation dict := (gmap string value).

(** [d[k]]: raises [KeyError] on a missing key. *)
Definition getitem (d : dict) (k : string) : result value :=
  match d !! k with
  | Some x => Ok x
  | None => Raise KeyError
  end.

(** Keys of a Python dictionary compare by [==] and [hash]: [True == 1] and
    [False == 0], everything else of a different type is distinct. *)
Inductive hkey : Type :=
  | KNone
  | KNum (n : Z)
  | KStr (s : string).

#[global] Instance hkey_eq_dec : EqDecision hkey.
Proof. solve_decision. Defined.

#[global] Instance hkey_countable : Countable hkey.
Proof.
  refine (inj_countable'
    (λ k, match k with
          | KNone => inl ()
          | KNum n => inr (inl n)
          | KStr s => inr (inr s)
          end)
    (λ x, match x with
          | inl _ => KNone
          | inr (inl n) => KNum n
          | inr (inr s) => KStr s
          end) _).
  by intros [].
Defined.

Definition hash_key (x : value) : hkey :=
  match x with
  | VNone => KNone
  | VBool b => KNum (if b then 1 else 0)
  | VInt n => KNum n
  | VStr s => KStr s
  end.

(** ** Configuration constants *)

Definition KEY_KURZNAME : string := "kurzname".
Definition KEY_LABELIDS : string := "labelIds".
Definition KEY_HU : string := "hu".
Definition KEY_COLORCODE : string := "colorCode".
Definition KEY_LABELCOLOR : string := "_labelColor".
Definition KEY_RNR : string := "rnr".
Definition KEY_GRUPPE : string := "gruppe".
Definition COLOR_GREEN : string := "007500".
Definition COLOR_ORANGE : string := "FFA500".
Definition COLOR_RED : string := "B30000".

(** ** server.py: reconciliation *)

(** [activeVehiclesDict[v[KEY_KURZNAME]] = v] for every active vehicle, in
    list order: a later vehicle with the same identifier replaces an earlier
    one. *)
Fixpoint build_activeVehiclesDict (activeVehiclesList : list dict)
    (activeVehiclesDict : gmap hkey dict) : result (gmap hkey dict) :=
  match activeVehiclesList with
  | [] => Ok activeVehiclesDict
  | v :: rest =>
      k ← getitem v KEY_KURZNAME;
      build_activeVehiclesDict rest (<[hash_key k := v]> activeVehiclesDict)
  end.

(** The body of [for key in av]: VARIANT 2 of the source. *)
Definition fill_key (key : string) (aval : value) (v : dict) : dict :=
  match v !! key with
  | None => <[key := aval]> v
  | Some x => if truthy x then v else <[key := aval]> v
  end.

Definition fill_missing (av v : dict) : dict := map_fold fill_key v av.

(** The body of [for v in vehicles] of the update loop. *)
Definition update_vehicle (activeVehiclesDict : gmap hkey dict) (v : dict)
    : result dict :=
  k ← getitem v KEY_KURZNAME;
  match activeVehiclesDict !! hash_key k with
  | None => Ok v
  | Some av => Ok (fill_missing av v)
  end.

Definition update_vehicles (activeVehiclesDict : gmap hkey dict)
    (vehicles : list dict) : result (list dict) :=
  mapM (update_vehicle activeVehiclesDict) vehicles.

(** [(KEY_HU in x) and (x[KEY_HU])]. *)
Definition has_hu (x : dict) : bool :=
  match x !! KEY_HU with
  | Some h => truthy h
  | None => false
  end.

Definition filter_hu (vehicles : list dict) : list dict :=
  List.filter has_hu vehicles.

(** ** server.py: label colours *)

(** Strings stand for Python text in its UTF-8 encoding: one [ascii] per
    byte. Comparison, equality, [split] at a comma and [lstrip('#')] act on
    the encoding as they act on the text. *)

(** The one-byte characters for which [str.isspace] holds: 9-13, 28-31 and
    32. *)
Definition is_space (c : ascii) : bool :=
  let n := N_of_ascii c in
  ((9 <=? n) && (n <=? 13) || (28 <=? n) && (n <=? 32))%N.

Definition utf8 (bytes : list N) : string :=
  foldr (λ b s, String (ascii_of_N b) s) EmptyString bytes.

(** The other characters for which [str.isspace] holds, in UTF-8: U+0085,
    U+00A0, U+1680, U+2000 to U+200A, U+2028, U+2029, U+202F, U+205F and
    U+3000. *)
Definition unicode_whitespace : list string :=
  [ utf8 [194; 133]; utf8 [194; 160]; utf8 [225; 154; 128];
    utf8 [226; 128; 128]; utf8 [226; 128; 129]; utf8 [226; 128; 130];
    utf8 [226; 128; 131]; utf8 [226; 128; 132]; utf8 [226; 128; 133];
    utf8 [226; 128; 134]; utf8 [226; 128; 135]; utf8 [226; 128; 136];
    utf8 [226; 128; 137]; utf8 [226; 128; 138];
    utf8 [226; 128; 168]; utf8 [226; 128; 169]; utf8 [226; 128; 175];
    utf8 [226; 129; 159]; utf8 [227; 128; 128] ]%N.

(** [s] without the leading [p], when [s] starts with [p]. *)
Fixpoint strip_prefix (p s : string) : option string :=
  match p with
  | EmptyString => Some s
  | String a p' =>
      match s with
      | EmptyString => None
      | String c s' => if Ascii.eqb a c then strip_prefix p' s' else None
      end
  end.

Fixpoint first_stripped (ps : list string) (s : string) : option string :=
  match ps with
  | [] => None
  | p :: ps' =>
      match strip_prefix p s with
      | Some r => Some r
      | None => first_stripped ps' s
      end
  end.

(** [s] without its first character, when that is a whitespace character. *)
Definition skip_space (s : string) : option string :=
  match s with
  | EmptyString => None
  | String c s' =>
      if is_space c then Some s' else first_stripped unicode_whitespace s
  end.

Fixpoint lstrip_fuel (n : nat) (s : string) : string :=
  match n with
  | O => s
  | S n' =>
      match skip_space s with
      | Some r => lstrip_fuel n' r
      | None => s
      end
  end.

(** [s.lstrip()]: a whitespace character takes at least one byte, so the
    length of [s] bounds the number of characters to skip. *)
Definition lstrip (s : string) : string := lstrip_fuel (String.length s) s.

(** [s.rstrip()]: the text up to the point from which only whitespace
    follows. *)
Fixpoint rstrip (s : string) : string :=
  match s with
  | EmptyString => EmptyString
  | String c s' =>
      match lstrip s with
      | EmptyString => EmptyString
      | _ => String c (rstrip s')
      end
  end.

Definition strip (s : string) : string := rstrip (lstrip s).

(** [s.split(sep)] for a one-character separator: never the empty list. *)
Fixpoint split (sep : ascii) (s : string) : list string :=
  match s with
  | EmptyString => [EmptyString]
  | String c s' =>
      if Ascii.eqb c sep then EmptyString :: split sep s'
      else match split sep s' with
           | t :: ts => String c t :: ts
           | [] => [String c EmptyString]
           end
  end.

(** What [requests.get] gives back: an exception, or a status code with the
    decoded JSON body, a list of label objects. *)
Inductive response : Type :=
  | RequestException
  | Response (status_code : Z) (json : list dict).

(** The calls made to the labels endpoint so far, oldest first. *)
Definition world : Type := list string.

(** Code that talks to the labels endpoint and may raise. *)
Definition run (A : Type) : Type := world → result A * world.

#[global] Instance run_ret : MRet run := λ A a w, (Ok a, w).
#[global] Instance run_bind : MBind run := λ A B f m w,
  match m w with
  | (Ok a, w') => f a w'
  | (Raise e, w') => (Raise e, w')
  end.

Definition lift {A : Type} (r : result A) : run A := λ w, (r, w).

(** [x.strip()] on a field value: only strings have the method. *)
Definition value_strip (x : value) : result string :=
  match x with
  | VStr s => Ok (strip s)
  | _ => Raise AttributeError
  end.

(** What the handler answers: the status code and the vehicles of the
    content. *)
Record JSONResponse : Type :=
  { response_status : Z; response_vehicles : list dict }.

Section label_colors.

(** The remote labels endpoint: its answer to a request for a label may
    depend on the requests made before. *)
Variable labels_endpoint : world → string → response.

(** The three early returns of the source give the empty string; indexing
    an empty body raises. *)
Definition getBaubuddyLabelColor (label : string) : run value := λ w,
  (match labels_endpoint w label with
   | RequestException => Ok (VStr "")
   | Response status_code json =>
       if negb (status_code =? 200) then Ok (VStr "")
       else match json with
            | [] => Raise IndexError
            | labelData :: _ =>
                match labelData !! KEY_COLORCODE with
                | None => Ok (VStr "")
                | Some c => Ok c
                end
            end
   end, w ++ [label]).

(** [if id not in labelColors: labelColors[id] = getBaubuddyLabelColor(..)]
    followed by the read [labelColors[id]]. *)
Definition resolve (id : string) (labelColors : gmap string value)
    : run (value * gmap string value) :=
  labelColors' ← match labelColors !! id with
                 | Some _ => mret labelColors
                 | None => c ← getBaubuddyLabelColor id;
                           mret (<[id := c]> labelColors)
                 end;
  c ← lift (match labelColors' !! id with
            | Some c => Ok c
            | None => Raise KeyError
            end);
  mret (c, labelColors').

(** The body of [for v in vehicles] of the label loop: the inner [for]
    runs once and leaves by [break]. *)
Definition label_vehicle (v : dict) (labelColors : gmap string value)
    : run (dict * gmap string value) :=
  l ← lift (getitem v KEY_LABELIDS);
  if truthy l then
    s ← lift (value_strip l);
    match split "," s with
    | [] => mret (v, labelColors)
    | id :: _ =>
        '(c, labelColors') ← resolve id labelColors;
        mret (<[KEY_LABELCOLOR := c]> v, labelColors')
    end
  else mret (v, labelColors).

Fixpoint label_vehicles (vehicles : list dict) (labelColors : gmap string value)
    : run (list dict * gmap string value) :=
  match vehicles with
  | [] => mret ([], labelColors)
  | v :: rest =>
      '(v', labelColors') ← label_vehicle v labelColors;
      '(rest', labelColors'') ← label_vehicles rest labelColors';
      mret (v' :: rest', labelColors'')
  end.

(** The [/vehicles] handler from the parsed CSV rows and the fetched
    active vehicles on: 400 without CSV rows, 503 without active vehicles,
    otherwise the 200 response with the processed vehicles. *)
Definition vehicles (vehicles : list dict) (activeVehiclesList : list dict)
    : run JSONResponse :=
  match vehicles, activeVehiclesList with
  | [], _ => mret {| response_status := 400; response_vehicles := [] |}
  | _, [] => mret {| response_status := 503; response_vehicles := [] |}
  | _, _ =>
      activeVehiclesDict ← lift (build_activeVehiclesDict activeVehiclesList ∅);
      vehicles ← lift (update_vehicles activeVehiclesDict vehicles);
      '(vehicles, _) ← label_vehicles (filter_hu vehicles) ∅;
      mret {| response_status := 200; response_vehicles := vehicles |}
  end.

End label_colors.

(** ** client.py: recency colours *)

(** A [datetime]; only the calendar date is ever read. *)
Record datetime : Type := { year : Z; month : Z; day : Z }.

Definition dateDiffMonths (d1 d2 : datetime) : Z :=
  (year d1 - year d2) * 12 + month d1 - month d2.

(** ** client.py: the workbook *)

Record Font : Type := { font_bold : bool; font_color : option string }.

Record PatternFill : Type :=
  { start_color : string; end_color : string; fill_type : string }.

Definition solid (c : string) : PatternFill :=
  {| start_color := c; end_color := c; fill_type := "solid" |}.

(** The style slots of a row dimension and of a cell that the client
    assigns; a slot never assigned is [None]. *)
Record RowDimension : Type :=
  { rd_font : option Font; rd_fill : option PatternFill }.

Record CellStyle : Type :=
  { cell_font : option Font; cell_fill : option PatternFill }.

(** A worksheet: the appended rows (row 1 first), the row dimensions by row
    number and the styled cells by (row, column), both counted from 1. *)
Record Worksheet : Type :=
  { ws_rows : list (list value);
    row_dimensions : gmap nat RowDimension;
    cells : gmap (nat * nat) CellStyle }.

Definition new_worksheet : Worksheet :=
  {| ws_rows := []; row_dimensions := ∅; cells := ∅ |}.

Definition row_dimension (ws : Worksheet) (r : nat) : RowDimension :=
  default {| rd_font := None; rd_fill := None |} (row_dimensions ws !! r).

Definition cell (ws : Worksheet) (r c : nat) : CellStyle :=
  default {| cell_font := None; cell_fill := None |} (cells ws !! (r, c)).

(** [ws.append(row)] *)
Definition ws_append (row : list value) (ws : Worksheet) : Worksheet :=
  {| ws_rows := ws_rows ws ++ [row];
     row_dimensions := row_dimensions ws;
     cells := cells ws |}.

(** [ws.row_dimensions[r].font = f] *)
Definition set_row_font (r : nat) (f : Font) (ws : Worksheet) : Worksheet :=
  {| ws_rows := ws_rows ws;
     row_dimensions :=
       <[r := {| rd_font := Some f; rd_fill := rd_fill (row_dimension ws r) |}]>
         (row_dimensions ws);
     cells := cells ws |}.

(** [ws.row_dimensions[r].fill = p] *)
Definition set_row_fill (r : nat) (p : PatternFill) (ws : Worksheet) : Worksheet :=
  {| ws_rows := ws_rows ws;
     row_dimensions :=
       <[r := {| rd_font := rd_font (row_dimension ws r); rd_fill := Some p |}]>
         (row_dimensions ws);
     cells := cells ws |}.

(** [ws.cell(row=r, column=c).font = f] *)
Definition set_cell_font (r c : nat) (f : Font) (ws : Worksheet) : Worksheet :=
  {| ws_rows := ws_rows ws;
     row_dimensions := row_dimensions ws;
     cells :=
       <[(r, c) := {| cell_font := Some f; cell_fill := cell_fill (cell ws r c) |}]>
         (cells ws) |}.

(** [ws.cell(row=r, column=c).fill = p] *)
Definition set_cell_fill (r c : nat) (p : PatternFill) (ws : Worksheet) : Worksheet :=
  {| ws_rows := ws_rows ws;
     row_dimensions := row_dimensions ws;
     cells :=
       <[(r, c) := {| cell_font := cell_font (cell ws r c); cell_fill := Some p |}]>
         (cells ws) |}.

(** [keys.index(x)], when [x in keys]. *)
Fixpoint list_index (x : string) (keys : list string) : option nat :=
  match keys with
  | [] => None
  | k :: rest => if decide (k = x) then Some 0%nat else S <$> list_index x rest
  end.

(** [s.lstrip('#')] *)
Fixpoint lstrip_char (ch : ascii) (s : string) : string :=
  match s with
  | EmptyString => EmptyString
  | String c s' => if Ascii.eqb c ch then lstrip_char ch s' else s
  end.

Definition value_lstrip (ch : ascii) (x : value) : result string :=
  match x with
  | VStr s => Ok (lstrip_char ch s)
  | _ => Raise AttributeError
  end.

(** [if rowColor: ws = f(rowColor)], for a colour that is [None] or a
    string: the empty string is falsy too. *)
Definition if_color (rowColor : option string)
    (f : string → Worksheet → Worksheet) (ws : Worksheet) : Worksheet :=
  match rowColor with
  | None | Some EmptyString => ws
  | Some (String a s) => f (String a s) ws
  end.

(** [(KEY_LABELCOLOR in v) and (v[KEY_LABELCOLOR])] *)
Definition has_labelColor (v : dict) : bool :=
  match v !! KEY_LABELCOLOR with
  | Some c => truthy c
  | None => false
  end.

(** The row of a vehicle: [row = [v[KEY_RNR]]] and [row.append(v[k])] for
    every key. *)
Definition emit_row (keys : list string) (v : dict) : result (list value) :=
  rnr ← getitem v KEY_RNR;
  columns ← mapM (getitem v) keys;
  Ok (rnr :: columns).

Section client.

(** [datetime.strptime(s, "%Y-%m-%d")]: [None] stands for the [ValueError]
    of a string that does not parse. *)
Variable strptime : string → option datetime.

(** [datetime.now()], read while the row with the given number is styled. *)
Variable now : nat → datetime.

Definition colorByAge (today : datetime) (dateStr : value) : result (option string) :=
  match dateStr with
  | VStr s =>
      match strptime s with
      | None => Raise ValueError
      | Some d =>
          let monthsOld := dateDiffMonths today d in
          Ok (if 0 <? monthsOld then
                if monthsOld <=? 3 then Some COLOR_GREEN
                else if monthsOld <=? 12 then Some COLOR_ORANGE
                else Some COLOR_RED
              else None)
      end
  | _ => Raise TypeError
  end.

(** The header part of [createExcelFile]. *)
Definition add_header (keys : list string) (colored : bool) (ws : Worksheet)
    : Worksheet :=
  let header := KEY_RNR :: keys in
  let ws := ws_append (VStr <$> header) ws in
  let ws := set_row_font 1 {| font_bold := true; font_color := None |} ws in
  if colored then set_row_fill 1 (solid "CCCCCC") ws else ws.

Definition labelIdsIndex (keys : list string) : option nat :=
  (λ i, i + 2)%nat <$> list_index KEY_LABELIDS keys.

(** The body of [for v in vehicles] in [createExcelFile]. *)
Definition add_vehicle (keys : list string) (colored : bool)
    (labelIdsIndex : option nat) (v : dict) (rowCount : nat) (ws : Worksheet)
    : result Worksheet :=
  row ← emit_row keys v;
  let ws := ws_append row ws in
  '(rowColor, ws) ←
    (if colored then
       hu ← getitem v KEY_HU;
       rowColor ← colorByAge (now rowCount) hu;
       Ok (rowColor, if_color rowColor (λ c, set_row_fill rowCount (solid c)) ws)
     else Ok (None, ws));
  match labelIdsIndex with
  | Some column =>
      if negb (column =? 0)%nat && has_labelColor v then
        c ← getitem v KEY_LABELCOLOR;
        labelIdsColor ← value_lstrip "#" c;
        let ws := set_cell_font rowCount column
                    {| font_bold := false; font_color := Some labelIdsColor |} ws in
        Ok (if_color rowColor (λ c, set_cell_fill rowCount column (solid c)) ws)
      else Ok ws
  | None => Ok ws
  end.

Fixpoint add_vehicles (keys : list string) (colored : bool)
    (labelIdsIndex : option nat) (vehicles : list dict) (rowCount : nat)
    (ws : Worksheet) : result Worksheet :=
  match vehicles with
  | [] => Ok ws
  | v :: rest =>
      ws' ← add_vehicle keys colored labelIdsIndex v rowCount ws;
      add_vehicles keys colored labelIdsIndex rest (S rowCount) ws'
  end.

(** [createExcelFile] up to the point where the workbook is saved. *)
Definition createExcelFile (vehicles : list dict) (keys : list string)
    (colored : bool) : result Worksheet :=
  let ws := add_header keys colored new_worksheet in
  add_vehicles keys colored (labelIdsIndex keys) vehicles 2 ws.

End client.

(** ** client.py: sorting and column selection *)

(** [a < b] on field values: strings by code point, numbers and booleans
    numerically, anything else is a [TypeError]. *)
Definition value_lt (a b : value) : result bool :=
  match a, b with
  | VStr s, VStr t => Ok (String.ltb s t)
  | VInt n, VInt m => Ok (n <? m)
  | VInt n, VBool c => Ok (n <? Z.b2z c)
  | VBool c, VInt m => Ok (Z.b2z c <? m)
  | VBool c, VBool e => Ok (Z.b2z c <? Z.b2z e)
  | _, _ => Raise TypeError
  end.

(** Stable insertion into a list sorted by key: the new element goes behind
    every element that is not greater. *)
Fixpoint insert_sorted (x : value * dict) (l : list (value * dict))
    : result (list (value * dict)) :=
  match l with
  | [] => Ok [x]
  | y :: l' =>
      lt ← value_lt x.1 y.1;
      if (lt : bool) then Ok (x :: y :: l')
      else l'' ← insert_sorted x l'; Ok (y :: l'')
  end.

Fixpoint sort_pairs (l acc : list (value * dict)) : result (list (value * dict)) :=
  match l with
  | [] => Ok acc
  | x :: l' => acc' ← insert_sorted x acc; sort_pairs l' acc'
  end.

(** [sorted(vehicles, key=lambda x: x[KEY_GRUPPE])]: the keys are computed
    first, the sort is stable. *)
Definition sorted_by_gruppe (vehicles : list dict) : result (list dict) :=
  ks ← mapM (λ x, getitem x KEY_GRUPPE) vehicles;
  sorted ← sort_pairs (zip ks vehicles) [];
  Ok (sorted.*2).

(** [list(dict.fromkeys(keys))]: a key is inserted at the end when it is
    new and stays where it is otherwise. *)
Fixpoint fromkeys (keys acc : list string) : list string :=
  match keys with
  | [] => acc
  | k :: rest => fromkeys rest (if decide (k ∈ acc) then acc else acc ++ [k])
  end.

(** The key filtering of [processVehicleData]; [keys] is [None] when the
    option was not given on the command line. *)
Definition sanitize_keys (keys : option (list string)) (sortedVehicles : list dict)
    : result (list string) :=
  match keys with
  | None | Some [] => Ok []
  | Some keys =>
      match sortedVehicles with
      | [] => Raise IndexError
      | first :: _ =>
          let keys := List.filter
            (λ k, bool_decide (k ∈ dom first) && negb (String.eqb k "rnr")) keys in
          Ok (fromkeys keys [])
      end
  end.

Section client_run.

Variable strptime : string → option datetime.
Variable now : nat → datetime.

(** [processVehicleData] from the vehicles of the server response on;
    [None] is the [return False] of an empty response. *)
Definition processVehicleData (vehicles : list dict) (keys : option (list string))
    (colored : bool) : result (option Worksheet) :=
  match vehicles with
  | [] => Ok None
  | _ =>
      sortedVehicles ← sorted_by_gruppe vehicles;
      keys ← sanitize_keys keys sortedVehicles;
      ws ← createExcelFile strptime now sortedVehicles keys colored;
      Ok (Some ws)
  end.

End client_run.

(** ** A concrete [strptime] for the format [%Y-%m-%d] *)

(** Modelled from the library: CPython's [_strptime] matches
    [(\d\d\d\d)-(1[0-2]|0[1-9]|[1-9])-(3[0-1]|[1-2]\d|0[1-9]|[1-9]| [1-9])]
    at the start of the string, rejects unconverted trailing data and then
    builds the date, which must exist in the calendar (years 1 to 9999).
    Only ASCII digits are recognised here. *)
Definition digit (c : ascii) : option Z :=
  let n := N_of_ascii c in
  if ((48 <=? n) && (n <=? 57))%N then Some (Z.of_N n - 48) else None.

Definition parse_year (s : string) : option (Z * string) :=
  match s with
  | String a (String b (String c (String e rest))) =>
      a ← digit a; b ← digit b; c ← digit c; e ← digit e;
      Some (1000 * a + 100 * b + 10 * c + e, rest)
  | _ => None
  end.

Definition parse_month (s : string) : option (Z * string) :=
  match s with
  | String a rest =>
      a ← digit a;
      match rest with
      | String b rest' =>
          match digit b with
          | Some b =>
              if (a =? 1) && (b <=? 2) then Some (10 + b, rest')
              else if (a =? 0) && (1 <=? b) then Some (b, rest')
              else if 1 <=? a then Some (a, rest) else None
          | None => if 1 <=? a then Some (a, rest) else None
          end
      | EmptyString => if 1 <=? a then Some (a, rest) else None
      end
  | EmptyString => None
  end.

Definition parse_day (s : string) : option (Z * string) :=
  match s with
  | String a rest =>
      match digit a, rest with
      | Some a, String b rest' =>
          match digit b with
          | Some b =>
              if (a =? 3) && (b <=? 1) then Some (30 + b, rest')
              else if (1 <=? a) && (a <=? 2) then Some (10 * a + b, rest')
              else if (a =? 0) && (1 <=? b) then Some (b, rest')
              else if 1 <=? a then Some (a, rest) else None
          | None => if 1 <=? a then Some (a, rest) else None
          end
      | Some a, EmptyString => if 1 <=? a then Some (a, rest) else None
      | None, String b rest' =>
          if Ascii.eqb a " " then
            b ← digit b; if 1 <=? b then Some (b, rest') else None
          else None
      | None, EmptyString => None
      end
  | EmptyString => None
  end.

Definition expect (ch : ascii) (s : string) : option string :=
  match s with
  | String c rest => if Ascii.eqb c ch then Some rest else None
  | EmptyString => None
  end.

Definition is_leap (y : Z) : bool :=
  (y mod 4 =? 0) && (negb (y mod 100 =? 0) || (y mod 400 =? 0)).

Definition days_in_month (y m : Z) : Z :=
  if m =? 2 then (if is_leap y then 29 else 28)
  else if (m =? 4) || (m =? 6) || (m =? 9) || (m =? 11) then 30
  else 31.

Definition strptime_Ymd (s : string) : option datetime :=
  '(y, s) ← parse_year s;
  s ← expect "-" s;
  '(m, s) ← parse_month s;
  s ← expect "-" s;
  '(d, s) ← parse_day s;
  match s with
  | EmptyString =>
      if (1 <=? y) && (d <=? days_in_month y m)
      then Some {| year := y; month := m; day := d |}
      else None
  | _ => None
  end.

(** ** The specification's vocabulary *)

(** The bucket of the specification, from the whole-month difference. *)
Inductive bucket : Type := none | recent | aging | stale.

Definition classify (monthsOld : Z) : bucket :=
  if monthsOld <=? 0 then none
  else if monthsOld <=? 3 then recent
  else if monthsOld <=? 12 then aging
  else stale.

Definition bucket_color (b : bucket) : option string :=
  match b with
  | none => None
  | recent => Some COLOR_GREEN
  | aging => Some COLOR_ORANGE
  | stale => Some COLOR_RED
  end.

(** The label identifier the label loop resolves for a label field [s]:
    the first element of [s.strip().split(',')]. *)
Definition first_label (s : string) : string :=
  match split "," (strip s) with
  | [] => EmptyString
  | id :: _ => id
  end.

(** How the label loop leaves a record [v] as [v'], given the label cache
    at the end of the loop. *)
Definition labelled (labelColors : gmap string value) (v v' : dict) : Prop :=
  ∃ l, v !! KEY_LABELIDS = Some l ∧
    if truthy l
    then ∃ s c, l = VStr s ∧ labelColors !! first_label s = Some c ∧
                v' = <[KEY_LABELCOLOR := c]> v
    else v' = v.

(** The specification's reading: split on comma, take the first token,
    trim it. *)
Definition spec_first_token (s : string) : string :=
  match split "," s with
  | [] => EmptyString
  | id :: _ => strip id
  end.

Fixpoint has_char (ch : ascii) (s : string) : bool :=
  match s with
  | EmptyString => false
  | String c s' => Ascii.eqb c ch || has_char ch s'
  end.

(** The lookups that give no colour by one of the early returns of
    [getBaubuddyLabelColor]: the request raised, the status is not 200, or
    the label object has no colour code. *)
Definition no_color (r : response) : bool :=
  match r with
  | RequestException => true
  | Response status_code json =>
      negb (status_code =? 200) ||
      match json with
      | [] => false
      | labelData :: _ => bool_decide (labelData !! KEY_COLORCODE = None)
      end
  end.

(** "De-duplicate while preserving first-occurrence order": an element
    stays where it occurs first, its later copies go. *)
Fixpoint dedup_first (l : list string) : list string :=
  match l with
  | [] => []
  | x :: l' => x :: filter (λ y, y ≠ x) (dedup_first l')
  end.

(** ** One report row, seen from outside *)

(** What [createExcelFile] reads from a vehicle: the row, the row colour
    and the font colour of the label cell. *)
Record row_outcome : Type :=
  { ro_row : list value;
    ro_rowColor : option string;
    ro_labelColor : option string }.

Definition fill_of (rowColor : option string) : option PatternFill :=
  match rowColor with
  | None | Some EmptyString => None
  | Some (String a s) => Some (solid (String a s))
  end.

Definition label_font (s : string) : Font :=
  {| font_bold := false; font_color := Some s |}.

Definition vehicle_outcome (strptime : string → option datetime)
    (keys : list string) (colored : bool) (labelIdsIndex : option nat)
    (today : datetime) (v : dict) : result row_outcome :=
  row ← emit_row keys v;
  rowColor ← (if colored then hu ← getitem v KEY_HU; colorByAge strptime today hu
              else Ok None);
  labelColor ← match labelIdsIndex with
               | Some column =>
                   if negb (column =? 0)%nat && has_labelColor v then
                     c ← getitem v KEY_LABELCOLOR;
                     s ← value_lstrip "#" c;
                     Ok (Some s)
                   else Ok None
               | None => Ok None
               end;
  Ok {| ro_row := row; ro_rowColor := rowColor; ro_labelColor := labelColor |}.

Definition apply_outcome (labelIdsIndex : option nat) (rowCount : nat)
    (o : row_outcome) (ws : Worksheet) : Worksheet :=
  let ws := ws_append (ro_row o) ws in
  let ws := if_color (ro_rowColor o) (λ c, set_row_fill rowCount (solid c)) ws in
  match ro_labelColor o, labelIdsIndex with
  | Some s, Some column =>
      if_color (ro_rowColor o) (λ c, set_cell_fill rowCount column (solid c))
        (set_cell_font rowCount column (label_font s) ws)
  | _, _ => ws
  end.

(** The row dimension and the cell styles a row ends up with. *)
Definition outcome_row_dimension (o : row_outcome) : option RowDimension :=
  p ← fill_of (ro_rowColor o);
  Some {| rd_font := None; rd_fill := Some p |}.

Definition outcome_cell (labelIdsIndex : option nat) (o : row_outcome) (c : nat)
    : option CellStyle :=
  match ro_labelColor o, labelIdsIndex with
  | Some s, Some column =>
      if decide (c = column)
      then Some {| cell_font := Some (label_font s);
                   cell_fill := fill_of (ro_rowColor o) |}
      else None
  | _, _ => None
  end.

Definition bold_font : Font := {| font_bold := true; font_color := None |}.

(** No row dimension and no styled cell from row [n] on. *)
Definition fresh_from (n : nat) (ws : Worksheet) : Prop :=
  ∀ r : nat, (n ≤ r)%nat →
    row_dimensions ws !! r = None ∧ ∀ c : nat, cells ws !! (r, c) = None.

(** ** Sample records *)

Definition raw_A : dict :=
  {[ "kurzname" := VStr "A"; "labelIds" := VStr ""; "other" := VStr "x" ]}.
Definition raw_B : dict := {[ "kurzname" := VStr "B" ]}.
Definition active_A : dict :=
  {[ "kurzname" := VStr "A"; "hu" := VStr "2023-01-01"; "labelIds" := VStr "7,8" ]}.
Definition active_B : dict := {[ "kurzname" := VStr "B"; "hu" := VStr "" ]}.


(** A labels endpoint that knows label 7 only. *)
Definition sample_endpoint : world → string → response := λ _ label,
  if String.eqb label "7"
  then Response 200 [ {[ "colorCode" := VStr "#ff0000" ]} ]
  else Response 404 [].

(** A labels endpoint whose label objects carry a null colour code. *)
Definition null_color_endpoint : world → string → response := λ _ _,
  Response 200 [ {[ "colorCode" := VNone ]} ].

(** A labels endpoint that answers every request with an empty list. *)
Definition empty_list_endpoint : world → string → response := λ _ _,
  Response 200 [].

Definition labelled_A : dict :=
  {[ "kurzname" := VStr "A"; "labelIds" := VStr "7,8";
     "other" := VStr "x"; "hu" := VStr "2023-01-01" ]}.

Definition spaced_A : dict :=
  {[ "kurzname" := VStr "A"; "labelIds" := VStr "7 ,8";
     "hu" := VStr "2023-01-01" ]}.

Definition blank_A : dict :=
  {[ "kurzname" := VStr "A"; "labelIds" := VStr " "; "hu" := VStr "2023-01-01" ]}.

Definition fleet_first : dict :=
  {[ "rnr" := VStr "1"; "gruppe" := VStr "A"; "kurzname" := VStr "a1";
     "info" := VStr "x"; "hu" := VStr "2023-01-31" ]}.

Definition fleet_second : dict :=
  {[ "rnr" := VStr "2"; "gruppe" := VStr "B"; "kurzname" := VStr "b1";
     "hu" := VStr "2022-01-01" ]}.

Definition unparsable_hu : dict :=
  {[ "rnr" := VStr "3"; "gruppe" := VStr "C"; "hu" := VStr "31.01.2023" ]}.

Definition tinted : dict :=
  {[ "rnr" := VStr "4"; "gruppe" := VStr "D"; "hu" := VStr "2023-01-31";
     "labelIds" := VStr "7"; "_labelColor" := VStr "#ff0000" ]}.

Definition april_first : datetime := {| year := 2023; month := 4; day := 1 |}.

Definition group_Z : dict := {[ "rnr" := VStr "1"; "gruppe" := VStr "Z" ]}.
Definition group_A1 : dict := {[ "rnr" := VStr "2"; "gruppe" := VStr "A" ]}.
Definition group_A2 : dict := {[ "rnr" := VStr "3"; "gruppe" := VStr "A" ]}.
(** ** The rest of the handler and of the client *)

(** The records stored under one identifier. *)
Definition has_identifier (h : hkey) (av : dict) : Prop :=
  hash_key <$> av !! KEY_KURZNAME = Some h.

#[global] Instance has_identifier_dec (h : hkey) (av : dict) :
  Decision (has_identifier h av).
Proof. unfold has_identifier. apply _. Defined.

(** What the handler has of the upload: no file, a file that
    [csv.DictReader] cannot read, or the rows read from it. *)
Inductive upload : Type :=
  | NoFile
  | CsvError
  | CsvRows (rows : list dict).

(** The answer of the login endpoint: an exception, or a status code with
    the decoded JSON body, an object of objects. *)
Inductive login_response : Type :=
  | LoginException
  | LoginResponse (status_code : Z) (json : gmap string dict).

(** [loginBaubuddy]: the empty token on an exception or a status other than
    200, otherwise [response.json()["oauth"]["access_token"]]. *)
Definition loginBaubuddy (r : login_response) : result value :=
  match r with
  | LoginException => Ok (VStr "")
  | LoginResponse status_code json =>
      if negb (status_code =? 200) then Ok (VStr "")
      else match json !! "oauth" with
           | None => Raise KeyError
           | Some oauth => getitem oauth "access_token"
           end
  end.

(** [getBaubuddyActiveVehicles]: no vehicles on an exception or a status
    other than 200, otherwise the decoded list. *)
Definition getBaubuddyActiveVehicles (r : response) : list dict :=
  match r with
  | RequestException => []
  | Response status_code json =>
      if negb (status_code =? 200) then [] else json
  end.

Section request.

(** The remote server: the login answer, the active vehicles for a token
    and the labels endpoint for a token. *)
Variable login_api : login_response.
Variable vehicles_api : value → response.
Variable labels_api : value → world → string → response.

(** The [/vehicles] handler from the upload on. *)
Definition vehicles_request (file : upload) : run JSONResponse :=
  match file with
  | NoFile | CsvError | CsvRows [] =>
      mret {| response_status := 400; response_vehicles := [] |}
  | CsvRows rows =>
      baubuddyToken ← lift (loginBaubuddy login_api);
      if truthy baubuddyToken then
        vehicles (labels_api baubuddyToken) rows
          (getBaubuddyActiveVehicles (vehicles_api baubuddyToken))
      else mret {| response_status := 503; response_vehicles := [] |}
  end.

End request.

(** The order of two records by their string [gruppe] values. *)
Definition gruppe_le (v1 v2 : dict) : Prop :=
  ∃ s1 s2, v1 !! KEY_GRUPPE = Some (VStr s1) ∧
           v2 !! KEY_GRUPPE = Some (VStr s2) ∧
           String.leb s1 s2 = true.

(** The same on the (key, record) pairs that are sorted. *)
Definition key_le (p q : value * dict) : Prop :=
  ∃ s t, p.1 = VStr s ∧ q.1 = VStr t ∧ String.leb s t = true.

Definition str_key (p : value * dict) : Prop := ∃ s, p.1 = VStr s.

(** How aged a row colour is: none, green, orange, red. *)
Definition color_rank (rowColor : option string) : Z :=
  match rowColor with
  | None => 0
  | Some c =>
      if String.eqb c COLOR_GREEN then 1
      else if String.eqb c COLOR_ORANGE then 2
      else 3
  end.

(** The decoded body of the server's answer, as far as the client reads
    it: [response.json()] raises on a body that is not JSON; a JSON value
    other than an object cannot be indexed by a key; an object may have the
    entries [message] and [vehicles], the latter a list of records. *)
Inductive reply_json : Type :=
  | NotJSON
  | JSONValue
  | JSONObject (message : option value) (vehicles : option (list dict)).

(** What [requests.post] gives back to the client: [NoReply] when opening
    the CSV file or the request raised. *)
Inductive server_reply : Type :=
  | NoReply
  | Reply (status_code : Z) (json : reply_json).

(** [response.json()["message"]] *)
Definition reply_message (json : reply_json) : result value :=
  match json with
  | NotJSON => Raise ValueError
  | JSONValue => Raise TypeError
  | JSONObject None _ => Raise KeyError
  | JSONObject (Some message) _ => Ok message
  end.

(** [response.json()['vehicles']] *)
Definition reply_vehicles (json : reply_json) : result (list dict) :=
  match json with
  | NotJSON => Raise ValueError
  | JSONValue => Raise TypeError
  | JSONObject _ None => Raise KeyError
  | JSONObject _ (Some vehicles) => Ok vehicles
  end.

(** How a run of the client ends: [processVehicleData] returns, an
    exception of the modelled code escapes, or the misspelt [loging] of the
    failure branch raises [NameError]. *)
Inductive client_outcome : Type :=
  | ReturnedTrue (saved : Worksheet)
  | ReturnedFalse
  | Uncaught (e : exn)
  | UncaughtNameError.

Section client_main.

Variable strptime : string → option datetime.
Variable now : nat → datetime.

(** [processVehicleData] from the answer of the server on. Only the request
    stands inside the [try]: both log lines read the message of the body
    and the vehicles are read after them, so a body without them raises.
    [saved] tells whether [wb.save] went through ([createExcelFile] returns
    [False] when it raises). *)
Definition processVehicleData_reply (reply : server_reply)
    (keys : option (list string)) (colored : bool) (saved : bool)
    : client_outcome :=
  match reply with
  | NoReply => ReturnedFalse
  | Reply status_code json =>
      if negb (status_code =? 200) then
        match reply_message json with
        | Raise e => Uncaught e
        | Ok _ => ReturnedFalse
        end
      else
        match reply_message json with
        | Raise e => Uncaught e
        | Ok _ =>
            match reply_vehicles json with
            | Raise e => Uncaught e
            | Ok vehicles =>
                match processVehicleData strptime now vehicles keys colored with
                | Ok None => ReturnedFalse
                | Ok (Some ws) =>
                    if saved then ReturnedTrue ws else UncaughtNameError
                | Raise e => Uncaught e
                end
            end
        end
  end.

End client_main.

(** * Properties *)

(** ** The error monad *)

Lemma result_bind_Ok {A B : Type} (f : A → result B) (m : result A) (b : B) :
  m ≫= f = Ok b ↔ ∃ a, m = Ok a ∧ f a = Ok b.
Proof.
  destruct m as [a|e]; simpl; split.
  - eauto.
  - by intros (a' & [= <-] & ?).
  - done.
  - by intros (a' & ? & ?).
Qed.

Lemma mapM_result_Ok {A B : Type} (f : A → result B) (l : list A) (k : list B) :
  mapM f l = Ok k ↔ Forall2 (λ x y, f x = Ok y) l k.
Proof.
  revert k. induction l as [|x l IH]; intros k; simpl.
  - split; [intros [= <-]; constructor | by inversion 1].
  - split.
    + intros (y & Hy & (k' & Hk' & [= <-])%result_bind_Ok)%result_bind_Ok.
      constructor; [done | by apply IH].
    + inversion 1 as [|? y ? k' Hy Hk']; subst.
      apply result_bind_Ok. exists y. split; [done|].
      apply result_bind_Ok. exists k'. split; [by apply IH | done].
Qed.

Lemma mapM_result_total {A B : Type} (f : A → result B) (l : list A) :
  Forall (λ x, ∃ y, f x = Ok y) l → ∃ k, mapM f l = Ok k.
Proof.
  induction 1 as [|x l [y Hy] _ [k Hk]]; simpl.
  - by eexists.
  - exists (y :: k). by rewrite Hy, Hk.
Qed.

(** ** Reconciliation *)

Section reconciliation.

Implicit Types (v av : dict) (key : string).

Lemma fill_missing_lookup av v key :
  fill_missing av v !! key =
    match v !! key with
    | Some x => if truthy x then Some x
                else match av !! key with Some a => Some a | None => Some x end
    | None => av !! key
    end.
Proof.
  unfold fill_missing.
  apply (map_fold_weak_ind
    (λ (r : dict) (m : dict), r !! key =
       match v !! key with
       | Some x => if truthy x then Some x
                   else match m !! key with Some a => Some a | None => Some x end
       | None => m !! key
       end)).
  - rewrite lookup_empty. destruct (v !! key) as [x|]; [by destruct (truthy x)|done].
  - intros i a m r Hi IH. unfold fill_key.
    destruct (decide (i = key)) as [->|Hne].
    + rewrite lookup_insert_eq, Hi in *.
      destruct (v !! key) as [x|] eqn:Hv.
      * destruct (truthy x) eqn:Ht; rewrite IH; [by rewrite Ht|].
        by rewrite Ht, lookup_insert_eq.
      * rewrite IH. by rewrite lookup_insert_eq.
    + rewrite (lookup_insert_ne m) by done. rewrite <- IH.
      destruct (r !! i) as [y|]; [destruct (truthy y)|]; try done;
        by rewrite lookup_insert_ne.
Qed.

(** Every entry of the lookup structure is one of the authoritative
    records, stored under its own identifier. *)
Lemma build_activeVehiclesDict_lookup (l : list dict) (acc d : gmap hkey dict)
    (h : hkey) av :
  build_activeVehiclesDict l acc = Ok d →
  d !! h = Some av →
  acc !! h = Some av ∨
  (av ∈ l ∧ ∃ k, av !! KEY_KURZNAME = Some k ∧ hash_key k = h).
Proof.
  revert acc. induction l as [|a l IH]; intros acc; simpl.
  - intros [= <-]. auto.
  - intros (k & Hk & Hrest)%result_bind_Ok Hd.
    unfold getitem in Hk. destruct (a !! KEY_KURZNAME) as [k'|] eqn:Ha; [|done].
    injection Hk as ->.
    destruct (IH _ Hrest Hd) as [Hacc|[Hin Hid]].
    + destruct (decide (hash_key k = h)) as [<-|Hne].
      * rewrite lookup_insert_eq in Hacc. injection Hacc as <-.
        right. split; [left | eauto].
      * rewrite lookup_insert_ne in Hacc by done. auto.
    + right. split; [by right | done].
Qed.

Lemma update_vehicle_Ok (d : gmap hkey dict) v k :
  v !! KEY_KURZNAME = Some k →
  update_vehicle d v =
    Ok (match d !! hash_key k with Some av => fill_missing av v | None => v end).
Proof.
  intros Hk. unfold update_vehicle, getitem. rewrite Hk. simpl.
  by destruct (d !! hash_key k).
Qed.

End reconciliation.

(** C1. Let the lookup structure be built from the authoritative records
    and let every raw record carry the identifier field. Then the update
    loop returns as many records as it was given, and for a raw record [v]
    with a matching authoritative record [av] (one of the authoritative
    records, with the same identifier) the reconciled record [v'] satisfies,
    for every field: a truthy raw value is kept; a field that differs from
    the raw record was absent or falsy there and now holds the authoritative
    value; and an absent or falsy field that the authoritative record has is
    filled with the authoritative value. *)
Theorem C1_reconcile_fills_only_missing
    (activeVehiclesList vehicles : list dict) (d : gmap hkey dict) :
  build_activeVehiclesDict activeVehiclesList ∅ = Ok d →
  Forall (λ v, is_Some (v !! KEY_KURZNAME)) vehicles →
  ∃ vehicles',
    update_vehicles d vehicles = Ok vehicles' ∧
    length vehicles' = length vehicles ∧
    ∀ (i : nat) (v : dict) (k : value) (av : dict),
      vehicles !! i = Some v →
      v !! KEY_KURZNAME = Some k →
      d !! hash_key k = Some av →
      (av ∈ activeVehiclesList ∧
       ∃ k', av !! KEY_KURZNAME = Some k' ∧ hash_key k' = hash_key k) ∧
      ∃ v', vehicles' !! i = Some v' ∧
        ∀ key : string,
          (∀ x, v !! key = Some x → truthy x = true → v' !! key = Some x) ∧
          (v' !! key ≠ v !! key →
             (v !! key = None ∨ ∃ x, v !! key = Some x ∧ truthy x = false) ∧
             is_Some (av !! key) ∧ v' !! key = av !! key) ∧
          (∀ a, (v !! key = None ∨ ∃ x, v !! key = Some x ∧ truthy x = false) →
             av !! key = Some a → v' !! key = Some a).
Proof.
  intros Hd Hall.
  destruct (mapM_result_total (update_vehicle d) vehicles) as [vehicles' Hrun].
  { eapply Forall_impl; [exact Hall|]. intros v [k Hk].
    rewrite (update_vehicle_Ok d v k Hk). eauto. }
  exists vehicles'. split; [exact Hrun|].
  apply mapM_result_Ok in Hrun.
  split; [symmetry; by eapply Forall2_length|].
  intros i v k av Hi Hk Hav. split.
  { destruct (build_activeVehiclesDict_lookup _ _ _ _ _ Hd Hav) as [He|?]; [|done].
    by rewrite lookup_empty in He. }
  destruct (Forall2_lookup_l _ _ _ _ _ Hrun Hi) as (v' & Hi' & Hv').
  exists v'. split; [exact Hi'|].
  simpl in Hv'. rewrite (update_vehicle_Ok d v k Hk), Hav in Hv'.
  injection Hv' as <-.
  intros key. rewrite fill_missing_lookup.
  destruct (v !! key) as [x|] eqn:Hx.
  - destruct (truthy x) eqn:Ht.
    + split; [by intros ? [= <-]|]. split; [done|].
      intros a [?|(? & [= <-] & ?)]; congruence.
    + split; [intros ? [= <-]; congruence|].
      destruct (av !! key) as [a|] eqn:Ha.
      * split; [by eauto 6|]. by intros ? _ [= <-].
      * split; [done|]. by intros ? _ ?.
  - split; [done|]. split.
    + intros Hne. split; [by left|]. split; [|done].
      destruct (av !! key); [by eauto | done].
    + by intros a _ ->.
Qed.

Example update_vehicles_A_B :
  ∃ d, build_activeVehiclesDict [active_A; active_B] ∅ = Ok d ∧
       update_vehicles d [raw_A; raw_B] =
         Ok [ {[ "kurzname" := VStr "A"; "labelIds" := VStr "7,8";
                 "other" := VStr "x"; "hu" := VStr "2023-01-01" ]};
              {[ "kurzname" := VStr "B"; "hu" := VStr "" ]} ].
Proof.
  eexists. split; [reflexivity|]. vm_compute. reflexivity.
Qed.

Lemma C1_reconcile_fills_only_missing_witness :
  let d : gmap hkey dict := <[KStr "B" := active_B]> (<[KStr "A" := active_A]> ∅) in
  build_activeVehiclesDict [active_A; active_B] ∅ = Ok d ∧
  Forall (λ v : dict, is_Some (v !! KEY_KURZNAME)) [raw_A; raw_B] ∧
  ∃ vehicles' v',
    update_vehicles d [raw_A; raw_B] = Ok vehicles' ∧
    vehicles' !! 0%nat = Some v' ∧
    v' !! "other" = Some (VStr "x") ∧
    v' !! "labelIds" = Some (VStr "7,8") ∧
    v' !! "hu" = Some (VStr "2023-01-01").
Proof.
  intros d.
  assert (Hd : build_activeVehiclesDict [active_A; active_B] ∅ = Ok d)
    by reflexivity.
  assert (Hall : Forall (λ v : dict, is_Some (v !! KEY_KURZNAME)) [raw_A; raw_B])
    by (repeat constructor; vm_compute; eauto).
  split; [exact Hd|]. split; [exact Hall|].
  destruct (C1_reconcile_fills_only_missing _ _ _ Hd Hall)
    as (vehicles' & Hrun & _ & Hspec).
  destruct (Hspec 0%nat raw_A (VStr "A") active_A eq_refl eq_refl eq_refl)
    as (_ & v' & Hv' & Hkeys).
  exists vehicles', v'. split; [exact Hrun|]. split; [exact Hv'|].
  split; [|split].
  - destruct (Hkeys "other") as (Hkeep & _). by apply Hkeep.
  - destruct (Hkeys "labelIds") as (_ & _ & Hfill).
    apply Hfill; [right; by exists (VStr "")|reflexivity].
  - destruct (Hkeys "hu") as (_ & _ & Hfill).
    apply Hfill; [by left|reflexivity].
Defined.

(** ** Recency colours *)

Lemma colorByAge_classify strptime (today d : datetime) (s : string) :
  strptime s = Some d →
  colorByAge strptime today (VStr s) =
    Ok (bucket_color (classify (dateDiffMonths today d))).
Proof.
  intros Hs. unfold colorByAge, classify. rewrite Hs.
  repeat case_match; try done; lia.
Qed.

(** C2. For a date string that parses to [d] and a current date [today],
    the colour is fixed by
    [monthsOld = (today.year - d.year) * 12 + (today.month - d.month)]:
    no colour when [monthsOld <= 0], green when [0 < monthsOld <= 3], orange
    when [3 < monthsOld <= 12], red when [monthsOld > 12]; two calls with
    the same whole-month difference give the same colour, whatever the
    days of the month. *)
Theorem C2_colorByAge_by_whole_months
    (strptime : string → option datetime) (today d : datetime) (s : string) :
  strptime s = Some d →
  let monthsOld := (year today - year d) * 12 + (month today - month d) in
  dateDiffMonths today d = monthsOld ∧
  (monthsOld ≤ 0 → colorByAge strptime today (VStr s) = Ok None) ∧
  (0 < monthsOld ≤ 3 →
     colorByAge strptime today (VStr s) = Ok (Some COLOR_GREEN)) ∧
  (3 < monthsOld ≤ 12 →
     colorByAge strptime today (VStr s) = Ok (Some COLOR_ORANGE)) ∧
  (12 < monthsOld →
     colorByAge strptime today (VStr s) = Ok (Some COLOR_RED)) ∧
  (∀ (today' d' : datetime) (s' : string),
     strptime s' = Some d' →
     (year today' - year d') * 12 + (month today' - month d') = monthsOld →
     colorByAge strptime today' (VStr s') = colorByAge strptime today (VStr s)).
Proof.
  intros Hs monthsOld.
  assert (Hm : dateDiffMonths today d = monthsOld)
    by (unfold dateDiffMonths, monthsOld; lia).
  split; [exact Hm|].
  rewrite (colorByAge_classify _ _ _ _ Hs), Hm. unfold classify.
  repeat split.
  - intros ?. repeat case_match; try done; lia.
  - intros [? ?]. repeat case_match; try done; lia.
  - intros [? ?]. repeat case_match; try done; lia.
  - intros ?. repeat case_match; try done; lia.
  - intros today' d' s' Hs' Hm'.
    rewrite (colorByAge_classify _ _ _ _ Hs'). unfold classify.
    by replace (dateDiffMonths today' d') with monthsOld
      by (unfold dateDiffMonths; lia).
Qed.

Lemma C2_colorByAge_by_whole_months_witness :
  strptime_Ymd "2023-01-31" = Some {| year := 2023; month := 1; day := 31 |} ∧
  colorByAge strptime_Ymd {| year := 2023; month := 4; day := 1 |}
    (VStr "2023-01-31") = Ok (Some COLOR_GREEN).
Proof.
  split; [reflexivity|].
  apply (C2_colorByAge_by_whole_months strptime_Ymd
           {| year := 2023; month := 4; day := 1 |}
           {| year := 2023; month := 1; day := 31 |} "2023-01-31" eq_refl).
  simpl. lia.
Defined.
Example strptime_Ymd_iso :
  strptime_Ymd "2023-01-31" = Some {| year := 2023; month := 1; day := 31 |}.
Proof. reflexivity. Qed.

Example strptime_Ymd_short : 
  strptime_Ymd "2024-2-29" = Some {| year := 2024; month := 2; day := 29 |}.
Proof. reflexivity. Qed.

Example strptime_Ymd_no_such_day : strptime_Ymd "2023-02-29" = None.
Proof. reflexivity. Qed.

Example strptime_Ymd_trailing : strptime_Ymd "2023-02-035" = None.
Proof. reflexivity. Qed.

Example strptime_Ymd_other_format : strptime_Ymd "31.01.2023" = None.
Proof. reflexivity. Qed.


(** ** Label colours *)

Lemma split_cons (sep : ascii) (s : string) :
  ∃ first rest, split sep s = first :: rest.
Proof.
  induction s as [|c s (first & rest & IH)]; simpl; [by eauto|].
  destruct (Ascii.eqb c sep); [by eauto|]. rewrite IH. eauto.
Qed.

Lemma unicode_whitespace_words :
  Forall (λ p, (0 < String.length p)%nat ∧ has_char "," p = false)
    unicode_whitespace.
Proof. repeat constructor. Qed.

Lemma is_space_not_comma (c : ascii) : is_space c = true → Ascii.eqb c "," = false.
Proof. destruct (Ascii.eqb_spec c ","); [by subst|done]. Qed.

Lemma strip_prefix_length (p s r : string) :
  strip_prefix p s = Some r →
  String.length s = (String.length p + String.length r)%nat.
Proof.
  revert s. induction p as [|a p IH]; intros s; simpl; [by intros [= <-]|].
  destruct s as [|c s]; [done|]. destruct (Ascii.eqb a c); [|done].
  intros ?%IH. simpl. lia.
Qed.

Lemma strip_prefix_has_char (ch : ascii) (p s r : string) :
  strip_prefix p s = Some r →
  has_char ch s = has_char ch p || has_char ch r.
Proof.
  revert s. induction p as [|a p IH]; intros s; simpl; [by intros [= <-]|].
  destruct s as [|c s]; [done|]. destruct (Ascii.eqb_spec a c) as [->|]; [|done].
  intros ?%IH. simpl. by rewrite <- orb_assoc; f_equal.
Qed.

Lemma strip_prefix_app (p s r x : string) :
  strip_prefix p s = Some r → strip_prefix p (s +:+ x) = Some (r +:+ x).
Proof.
  revert s. induction p as [|a p IH]; intros s; simpl; [by intros [= <-]|].
  destruct s as [|c s]; [done|]. simpl. destruct (Ascii.eqb a c); [|done].
  apply IH.
Qed.

Lemma strip_prefix_app_comma (p s t : string) :
  has_char "," p = false →
  strip_prefix p (s +:+ String "," t) =
    (λ r, r +:+ String "," t) <$> strip_prefix p s.
Proof.
  revert s. induction p as [|a p IH]; intros s Hp; simpl; [done|].
  simpl in Hp. apply orb_false_elim in Hp as [Ha Hp].
  destruct s as [|c s]; simpl.
  - by rewrite Ha.
  - destruct (Ascii.eqb a c); [by apply IH | done].
Qed.

Lemma first_stripped_app_comma (ps : list string) (s t : string) :
  Forall (λ p, has_char "," p = false) ps →
  first_stripped ps (s +:+ String "," t) =
    (λ r, r +:+ String "," t) <$> first_stripped ps s.
Proof.
  induction 1 as [|p ps Hp _ IH]; simpl; [done|].
  rewrite (strip_prefix_app_comma _ _ _ Hp).
  by destruct (strip_prefix p s).
Qed.

Lemma first_stripped_Some (ps : list string) (s r : string) :
  first_stripped ps s = Some r → ∃ p, p ∈ ps ∧ strip_prefix p s = Some r.
Proof.
  induction ps as [|p ps IH]; simpl; [done|].
  destruct (strip_prefix p s) as [r'|] eqn:Hp.
  - intros [= <-]. exists p. split; [by left | done].
  - intros (p' & ? & ?)%IH. exists p'. split; [by right | done].
Qed.

Lemma first_stripped_app (ps : list string) (s r x : string) :
  first_stripped ps s = Some r → is_Some (first_stripped ps (s +:+ x)).
Proof.
  induction ps as [|p ps IH]; simpl; [done|].
  destruct (strip_prefix p s) as [r'|] eqn:Hp.
  - intros _. by rewrite (strip_prefix_app _ _ _ x Hp).
  - intros ?%IH. by destruct (strip_prefix p (s +:+ x)).
Qed.

(** What [skip_space] removes is one whitespace character: at least one
    byte, and never a comma. *)
Lemma skip_space_Some (s r : string) :
  skip_space s = Some r →
  (String.length r < String.length s)%nat ∧
  (∀ ch, has_char ch s = false → has_char ch r = false) ∧
  has_char "," r = has_char "," s.
Proof.
  destruct s as [|c s]; [done|]. cbn [skip_space].
  destruct (is_space c) eqn:Hc.
  - intros [= <-]. split; [simpl; lia|]. split.
    + by intros ch [_ ?]%orb_false_elim.
    + simpl. by rewrite (is_space_not_comma _ Hc).
  - intros (p & Hp & Hr)%first_stripped_Some.
    destruct (proj1 (Forall_forall _ _) unicode_whitespace_words p Hp) as [Hlen Hno].
    pose proof (strip_prefix_length _ _ _ Hr) as Hl.
    split; [simpl in *; lia|]. split.
    + intros ch. rewrite (strip_prefix_has_char ch _ _ _ Hr).
      by intros [_ ?]%orb_false_elim.
    + by rewrite (strip_prefix_has_char "," _ _ _ Hr), Hno.
Qed.

Lemma skip_space_app_comma (s t : string) :
  skip_space (s +:+ String "," t) =
    (λ r, r +:+ String "," t) <$> skip_space s.
Proof.
  assert (Hwords : Forall (λ p, has_char "," p = false) unicode_whitespace).
  { eapply Forall_impl; [exact unicode_whitespace_words|]. by intros ? [_ ?]. }
  destruct s as [|c s].
  - change (skip_space (String "," t) = None). unfold skip_space.
    change (is_space ",") with false. cbv iota.
    exact (first_stripped_app_comma unicode_whitespace "" t Hwords).
  - change (String c s +:+ String "," t) with (String c (s +:+ String "," t)).
    cbn [skip_space]. destruct (is_space c); [done|].
    exact (first_stripped_app_comma unicode_whitespace (String c s) t Hwords).
Qed.

Lemma skip_space_prefix_None (s x : string) :
  skip_space (s +:+ x) = None → skip_space s = None.
Proof.
  destruct s as [|c s]; [done|].
  change (String c s +:+ x) with (String c (s +:+ x)). cbn [skip_space].
  destruct (is_space c); [done|].
  destruct (first_stripped unicode_whitespace (String c s)) as [r|] eqn:Hr; [|done].
  apply (first_stripped_app _ _ _ x) in Hr as [r' Hr'].
  change (String c s +:+ x) with (String c (s +:+ x)) in Hr'.
  by rewrite Hr'.
Qed.

Lemma lstrip_fuel_enough (n m : nat) (s : string) :
  (String.length s ≤ n)%nat → (String.length s ≤ m)%nat →
  lstrip_fuel n s = lstrip_fuel m s.
Proof.
  revert m s. induction n as [|n IH]; intros m s Hn Hm.
  - destruct s; [|simpl in Hn; lia]. by destruct m.
  - destruct m as [|m].
    + destruct s; [done|simpl in Hm; lia].
    + simpl. destruct (skip_space s) as [r|] eqn:Hr; [|done].
      apply skip_space_Some in Hr as [Hlen _]. apply IH; lia.
Qed.

Lemma lstrip_unfold (s : string) :
  lstrip s = match skip_space s with Some r => lstrip r | None => s end.
Proof.
  unfold lstrip. destruct s as [|c s]; [done|].
  change (String.length (String c s)) with (S (String.length s)).
  cbn [lstrip_fuel]. destruct (skip_space (String c s)) as [r|] eqn:Hr; [|done].
  apply skip_space_Some in Hr as [Hlen _]. simpl in Hlen.
  apply lstrip_fuel_enough; lia.
Qed.

(** Induction along the characters [lstrip] skips. *)
Lemma lstrip_ind (P : string → string → Prop) :
  (∀ s, skip_space s = None → P s s) →
  (∀ s r, skip_space s = Some r → P r (lstrip r) → P s (lstrip r)) →
  ∀ s, P s (lstrip s).
Proof.
  intros Hnone Hsome s.
  remember (String.length s) as n eqn:Hn.
  assert (Hle : (String.length s ≤ n)%nat) by lia. clear Hn.
  revert s Hle. induction n as [|n IH]; intros s Hle; rewrite lstrip_unfold.
  - destruct s; [|simpl in Hle; lia]. by apply Hnone.
  - destruct (skip_space s) as [r|] eqn:Hr; [|by apply Hnone].
    apply (Hsome s r Hr). apply IH.
    apply skip_space_Some in Hr as [Hlen _]. lia.
Qed.

Lemma lstrip_app_comma (s t : string) :
  lstrip (s +:+ String "," t) = lstrip s +:+ String "," t.
Proof.
  apply (lstrip_ind (λ s l, lstrip (s +:+ String "," t) = l +:+ String "," t)).
  - intros s' Hs. by rewrite lstrip_unfold, skip_space_app_comma, Hs.
  - intros s' r Hs IH. by rewrite lstrip_unfold, skip_space_app_comma, Hs.
Qed.

Lemma has_char_lstrip (ch : ascii) (s : string) :
  has_char ch s = false → has_char ch (lstrip s) = false.
Proof.
  apply (lstrip_ind (λ s l, has_char ch s = false → has_char ch l = false)).
  - done.
  - intros s' r Hs IH Hno. apply IH.
    by apply (skip_space_Some _ _ Hs).
Qed.

Lemma has_comma_lstrip (s : string) :
  has_char "," (lstrip s) = has_char "," s.
Proof.
  apply (lstrip_ind (λ s l, has_char "," l = has_char "," s)).
  - done.
  - intros s' r Hs ->. by apply (skip_space_Some _ _ Hs).
Qed.

Lemma lstrip_fixed (s : string) : skip_space (lstrip s) = None.
Proof. by apply (lstrip_ind (λ _ l, skip_space l = None)). Qed.

Lemma rstrip_app_comma (s t : string) :
  rstrip (s +:+ String "," t) = s +:+ String "," (rstrip t).
Proof.
  assert (Hne : ∀ u, has_char "," u = true →
            ∃ c r, lstrip u = String c r).
  { intros u Hu. rewrite <- has_comma_lstrip in Hu.
    destruct (lstrip u) as [|c r]; [done | by eauto]. }
  induction s as [|c s IH].
  - change (rstrip (String "," t) = String "," (rstrip t)). cbn [rstrip].
    destruct (Hne (String "," t)) as (c & r & ->); [done|]. done.
  - change (rstrip (String c (s +:+ String "," t))
            = String c (s +:+ String "," (rstrip t))).
    cbn [rstrip]. destruct (Hne (String c (s +:+ String "," t))) as (c' & r & ->).
    + simpl. apply orb_true_iff. right. clear. induction s; simpl; [done|].
      apply orb_true_iff. by right.
    + by rewrite IH.
Qed.

Lemma rstrip_prefix (s : string) : ∃ x, s = rstrip s +:+ x.
Proof.
  induction s as [|c s [x IH]]; [by exists ""|].
  cbn [rstrip]. destruct (lstrip (String c s)).
  - by exists (String c s).
  - exists x. change (String c s = String c (rstrip s +:+ x)). by rewrite <- IH.
Qed.

Lemma split_head_prefix (sep : ascii) (s : string) :
  ∃ first rest x, split sep s = first :: rest ∧ s = first +:+ x ∧
                  has_char sep first = false.
Proof.
  induction s as [|c s (first & rest & x & IH & Hs & Hno)]; simpl.
  - by exists "", [], "".
  - destruct (Ascii.eqb c sep) eqn:Hc.
    + by exists "", (split sep s), (String c s).
    + rewrite IH. exists (String c first), rest, x.
      split; [done|]. split.
      * change (String c s = String c (first +:+ x)). by rewrite <- Hs.
      * simpl. by rewrite Hc.
Qed.

Lemma split_app_sep (sep : ascii) (s t : string) :
  has_char sep s = false →
  split sep (s +:+ String sep t) = s :: split sep t.
Proof.
  induction s as [|c s IH]; simpl.
  - by rewrite Ascii.eqb_refl.
  - destruct (Ascii.eqb c sep); [done|]. simpl. intros Hs. by rewrite IH.
Qed.

(** The identifier that is resolved is what stands before the first comma,
    without its leading whitespace: nothing behind the first comma matters,
    and whitespace between the token and the comma stays. *)
Lemma first_label_before_comma (s t : string) :
  has_char "," s = false → first_label (s +:+ String "," t) = lstrip s.
Proof.
  intros Hs. unfold first_label, strip.
  rewrite lstrip_app_comma, rstrip_app_comma.
  rewrite split_app_sep; [done|]. by apply has_char_lstrip.
Qed.

Lemma split_no_sep (sep : ascii) (s : string) :
  has_char sep s = false → split sep s = [s].
Proof.
  induction s as [|c s IH]; simpl; [done|].
  destruct (Ascii.eqb c sep); [done|]. simpl. intros Hs. by rewrite IH.
Qed.

Lemma has_char_rstrip (ch : ascii) (s : string) :
  has_char ch s = false → has_char ch (rstrip s) = false.
Proof.
  induction s as [|c s IH]; [done|]. intros Hs.
  pose proof Hs as [Hc Hs']%orb_false_elim.
  cbn [rstrip]. destruct (lstrip (String c s)); [done|].
  simpl. by rewrite Hc, IH.
Qed.

Lemma first_label_single (s : string) :
  has_char "," s = false → first_label s = strip s.
Proof.
  intros Hs. unfold first_label. rewrite split_no_sep; [done|].
  by apply has_char_rstrip, has_char_lstrip.
Qed.

Section label_properties.

Variable labels_endpoint : world → string → response.


Implicit Types (labelColors lc : gmap string value) (w : world) (v : dict).

Lemma getBaubuddyLabelColor_world label w :
  (getBaubuddyLabelColor labels_endpoint label w).2 = w ++ [label].
Proof. reflexivity. Qed.

Lemma getBaubuddyLabelColor_no_color label w :
  no_color (labels_endpoint w label) = true →
  getBaubuddyLabelColor labels_endpoint label w = (Ok (VStr ""), w ++ [label]).
Proof.
  unfold no_color, getBaubuddyLabelColor.
  destruct (labels_endpoint w label) as [|status_code json]; [done|].
  destruct (status_code =? 200); simpl; [|done].
  destruct json as [|labelData json]; [done|].
  intros ->%bool_decide_eq_true. done.
Qed.

Lemma resolve_cached id lc c w :
  lc !! id = Some c → resolve labels_endpoint id lc w = (Ok (c, lc), w).
Proof.
  intros Hc. unfold resolve, mbind, run_bind, mret, run_ret, lift.
  by rewrite Hc, Hc.
Qed.

Lemma resolve_fresh id lc w :
  lc !! id = None →
  resolve labels_endpoint id lc w =
    (match (getBaubuddyLabelColor labels_endpoint id w).1 with
     | Ok c => Ok (c, <[id := c]> lc)
     | Raise e => Raise e
     end, w ++ [id]).
Proof.
  intros Hc. unfold resolve, mbind, run_bind, mret, run_ret, lift.
  rewrite Hc.
  destruct (getBaubuddyLabelColor labels_endpoint id w) as [[c|e] w'] eqn:Hget;
    pose proof (getBaubuddyLabelColor_world id w) as Hw;
    rewrite Hget in Hw; simpl in Hw; subst w'; simpl; [|done].
  by rewrite lookup_insert_eq.
Qed.

(** What a resolution does to the cache and to the log of remote calls. *)
Lemma resolve_spec id lc w :
  (∃ c, lc !! id = Some c ∧ resolve labels_endpoint id lc w = (Ok (c, lc), w)) ∨
  (lc !! id = None ∧
   ((∃ c, resolve labels_endpoint id lc w = (Ok (c, <[id := c]> lc), w ++ [id])) ∨
    (∃ e, resolve labels_endpoint id lc w = (Raise e, w ++ [id])))).
Proof.
  destruct (lc !! id) as [c|] eqn:Hc.
  - left. exists c. by rewrite (resolve_cached _ _ _ _ Hc).
  - right. split; [done|]. rewrite (resolve_fresh _ _ _ Hc).
    destruct (getBaubuddyLabelColor labels_endpoint id w).1; eauto.
Qed.

Lemma label_vehicle_unfold v lc w :
  label_vehicle labels_endpoint v lc w =
    match v !! KEY_LABELIDS with
    | None => (Raise KeyError, w)
    | Some l =>
        if truthy l then
          match l with
          | VStr s =>
              match resolve labels_endpoint (first_label s) lc w with
              | (Ok (c, lc'), w') => (Ok (<[KEY_LABELCOLOR := c]> v, lc'), w')
              | (Raise e, w') => (Raise e, w')
              end
          | _ => (Raise AttributeError, w)
          end
        else (Ok (v, lc), w)
    end.
Proof.
  unfold label_vehicle, getitem, lift, mbind, run_bind, mret, run_ret.
  destruct (v !! KEY_LABELIDS) as [l|]; [|done].
  destruct (truthy l) eqn:Ht; [|done].
  destruct l as [|b|n|s]; try done. simpl. unfold first_label.
  destruct (split_cons "," (strip s)) as (first & rest & ->).
  by destruct (resolve labels_endpoint first lc w) as [[[c lc']|e] w'].
Qed.

Lemma labelled_mono lc lc' v v' :
  lc ⊆ lc' → labelled lc v v' → labelled lc' v v'.
Proof.
  intros Hsub (l & Hl & Hv). exists l. split; [done|].
  destruct (truthy l); [|done].
  destruct Hv as (s & c & -> & Hc & ->). exists s; exists c.
  split; [done|]. split; [|done]. by eapply lookup_weaken.
Qed.

(** A step that makes no remote call. *)
Local Ltac no_new_call :=
  exists []; rewrite app_nil_r;
  split; [done|]; split; [constructor|]; split; [by intros ? ?%elem_of_nil|].

(** One record of the label loop: the remote calls it adds, the cache it
    leaves and the record it produces. *)
Lemma label_vehicle_spec v lc w r w' :
  label_vehicle labels_endpoint v lc w = (r, w') →
  ∃ new : list string,
    w' = w ++ new ∧ NoDup new ∧ (∀ x, x ∈ new → lc !! x = None) ∧
    ∀ v' lc', r = Ok (v', lc') →
      lc ⊆ lc' ∧ (∀ x, x ∈ new → is_Some (lc' !! x)) ∧ labelled lc' v v'.
Proof.
  rewrite label_vehicle_unfold. unfold labelled.
  destruct (v !! KEY_LABELIDS) as [l|] eqn:Hl.
  2:{ intros [= <- <-]. no_new_call. done. }
  destruct (truthy l) eqn:Ht.
  2:{ intros [= <- <-]. no_new_call.
      intros v' lc' [= <- <-]. split; [done|]. split; [by intros ? ?%elem_of_nil|].
      exists l. by rewrite Ht. }
  destruct l as [|b|n|s]; [done| | |].
  1-2: intros [= <- <-]; no_new_call; done.
  destruct (resolve_spec (first_label s) lc w)
    as [(c & Hc & ->)|(Hc & [(c & ->)|(e & ->)])].
  - intros [= <- <-]. no_new_call.
    intros v' lc' [= <- <-]. split; [done|]. split; [by intros ? ?%elem_of_nil|].
    exists (VStr s). rewrite Ht. eauto 6.
  - intros [= <- <-]. exists [first_label s].
    split; [done|]. split; [apply NoDup_singleton|].
    split; [by intros ? ->%list_elem_of_singleton|].
    intros v' lc' [= <- <-]. split; [by apply insert_subseteq|].
    split; [intros ? ->%list_elem_of_singleton; by rewrite lookup_insert_eq|].
    exists (VStr s). rewrite Ht. split; [done|].
    exists s; exists c. by rewrite lookup_insert_eq.
  - intros [= <- <-]. exists [first_label s].
    split; [done|]. split; [apply NoDup_singleton|].
    split; [by intros ? ->%list_elem_of_singleton|]. done.
Qed.

Lemma label_vehicles_cons v rest lc w :
  label_vehicles labels_endpoint (v :: rest) lc w =
    match label_vehicle labels_endpoint v lc w with
    | (Ok (v', lc1), w1) =>
        match label_vehicles labels_endpoint rest lc1 w1 with
        | (Ok (rest', lc2), w2) => (Ok (v' :: rest', lc2), w2)
        | (Raise e, w2) => (Raise e, w2)
        end
    | (Raise e, w1) => (Raise e, w1)
    end.
Proof.
  simpl. unfold mbind, run_bind, mret, run_ret.
  destruct (label_vehicle labels_endpoint v lc w) as [[[v' lc1]|e] w1]; [|done].
  by destruct (label_vehicles labels_endpoint rest lc1 w1) as [[[rest' lc2]|e] w2].
Qed.

(** The label loop: the remote calls of the whole loop are pairwise
    distinct and none is for a cached identifier; the cache only grows. *)
Lemma label_vehicles_spec vehicles lc w r w' :
  label_vehicles labels_endpoint vehicles lc w = (r, w') →
  ∃ new : list string,
    w' = w ++ new ∧ NoDup new ∧ (∀ x, x ∈ new → lc !! x = None) ∧
    ∀ vehicles' lc', r = Ok (vehicles', lc') →
      lc ⊆ lc' ∧ (∀ x, x ∈ new → is_Some (lc' !! x)) ∧
      Forall2 (labelled lc') vehicles vehicles'.
Proof.
  revert lc w r w'. induction vehicles as [|v rest IH]; intros lc w r w'.
  - intros [= <- <-]. no_new_call.
    intros ? ? [= <- <-]. split; [done|]. split; [by intros ? ?%elem_of_nil|].
    constructor.
  - rewrite label_vehicles_cons.
    destruct (label_vehicle labels_endpoint v lc w) as [r1 w1] eqn:Hv.
    destruct (label_vehicle_spec _ _ _ _ _ Hv)
      as (new1 & -> & Hnd1 & Hfresh1 & Hok1).
    destruct r1 as [[v' lc1]|e].
    2:{ intros [= <- <-]. exists new1. done. }
    destruct (Hok1 _ _ eq_refl) as (Hsub1 & Hin1 & Hlab1).
    destruct (label_vehicles labels_endpoint rest lc1 (w ++ new1))
      as [r2 w2] eqn:Hrest.
    destruct (IH _ _ _ _ Hrest) as (new2 & -> & Hnd2 & Hfresh2 & Hok2).
    assert (Hnew : NoDup (new1 ++ new2) ∧
                   ∀ x, x ∈ new1 ++ new2 → lc !! x = None).
    { split.
      - apply NoDup_app. split; [done|]. split; [|done].
        intros x Hx1 Hx2. apply Hin1 in Hx1 as [? Hx1].
        apply Hfresh2 in Hx2. congruence.
      - intros x [?|Hx2]%elem_of_app; [by auto|].
        apply Hfresh2 in Hx2. by eapply lookup_weaken_None. }
    destruct Hnew as [Hnd Hfresh].
    destruct r2 as [[rest' lc2]|e]; intros [= <- <-];
      exists (new1 ++ new2); rewrite app_assoc;
      (split; [done|]); (split; [done|]); (split; [done|]); [|done].
    intros ? ? [= <- <-].
    destruct (Hok2 _ _ eq_refl) as (Hsub2 & Hin2 & Hlab2).
    split; [by etrans|]. split.
    + intros x [Hx|?]%elem_of_app; [|by auto].
      apply Hin1 in Hx as [c Hc]. exists c. by eapply lookup_weaken.
    + constructor; [by eapply labelled_mono | done].
Qed.

(** A lookup that gives no colour leaves the empty string in the record
    and in the cache. *)
Lemma label_vehicle_no_color v (s : string) lc w :
  v !! KEY_LABELIDS = Some (VStr s) →
  s ≠ "" →
  lc !! first_label s = None →
  no_color (labels_endpoint w (first_label s)) = true →
  label_vehicle labels_endpoint v lc w =
    (Ok (<[KEY_LABELCOLOR := VStr ""]> v, <[first_label s := VStr ""]> lc),
     w ++ [first_label s]).
Proof.
  intros Hl Hs Hc Hno. rewrite label_vehicle_unfold, Hl.
  destruct s as [|a s]; [done|]. simpl truthy. cbv iota.
  rewrite (resolve_fresh _ _ _ Hc).
  by rewrite (getBaubuddyLabelColor_no_color _ _ Hno).
Qed.

(** A label object with a colour code gives that code, whatever it is. *)
Lemma getBaubuddyLabelColor_colorCode label w labelData rest c :
  labels_endpoint w label = Response 200 (labelData :: rest) →
  labelData !! KEY_COLORCODE = Some c →
  getBaubuddyLabelColor labels_endpoint label w = (Ok c, w ++ [label]).
Proof. intros Hr Hc. unfold getBaubuddyLabelColor. by rewrite Hr, Hc. Qed.

(** The first resolution of an identifier leaves what the lookup returned
    in the record and in the cache. *)
Lemma label_vehicle_fresh v (s : string) lc w c :
  v !! KEY_LABELIDS = Some (VStr s) →
  s ≠ "" →
  lc !! first_label s = None →
  getBaubuddyLabelColor labels_endpoint (first_label s) w =
    (Ok c, w ++ [first_label s]) →
  label_vehicle labels_endpoint v lc w =
    (Ok (<[KEY_LABELCOLOR := c]> v, <[first_label s := c]> lc),
     w ++ [first_label s]).
Proof.
  intros Hl Hs Hc Hget. rewrite label_vehicle_unfold, Hl.
  destruct s as [|a s]; [done|]. simpl truthy. cbv iota.
  rewrite (resolve_fresh _ _ _ Hc). by rewrite Hget.
Qed.

Lemma vehicles_world (raw active : list dict) w :
  ∃ new : list string,
    (vehicles labels_endpoint raw active w).2 = w ++ new ∧ NoDup new.
Proof.
  assert (Hnone : ∃ new : list string, w = w ++ new ∧ NoDup new).
  { exists []. rewrite app_nil_r. split; [done | constructor]. }
  unfold vehicles. destruct raw as [|r raw]; [done|].
  destruct active as [|a active]; [done|].
  unfold lift, mbind, run_bind, mret, run_ret.
  destruct (build_activeVehiclesDict (a :: active) ∅) as [d|e]; [|done].
  destruct (update_vehicles d (r :: raw)) as [vs|e]; [|done].
  destruct (label_vehicles labels_endpoint (filter_hu vs) ∅ w) as [res w'] eqn:Hrun.
  destruct (label_vehicles_spec _ _ _ _ _ Hrun) as (new & -> & Hnd & _).
  exists new. by destruct res as [[? ?]|?].
Qed.

End label_properties.

(** C3 (amended). When the label loop succeeds, every record had the label
    field, and with the cache [lc'] at the end of the loop: a record whose
    label field is falsy (empty) is returned as it was; a record whose
    label field is a string that is not empty after trimming gets
    [_labelColor] set to the resolver's colour for [first_label], the first
    element of the trimmed field split at commas. That identifier is the
    text before the first comma without its leading whitespace, so nothing
    behind the first comma influences the value; without a comma it is the
    trimmed field. *)
Theorem C3_label_color_of_first_token
    (labels_endpoint : world → string → response)
    (vehicles vehicles' : list dict) (lc lc' : gmap string value) (w w' : world) :
  label_vehicles labels_endpoint vehicles lc w = (Ok (vehicles', lc'), w') →
  Forall2 (λ v v' : dict,
     ∃ l, v !! KEY_LABELIDS = Some l ∧
       (truthy l = false → v' = v) ∧
       (∀ s, l = VStr s → strip s ≠ "" →
          ∃ c, lc' !! first_label s = Some c ∧
               resolve labels_endpoint (first_label s) lc' w' = (Ok (c, lc'), w') ∧
               v' = <[KEY_LABELCOLOR := c]> v))
    vehicles vehicles' ∧
  (∀ s t, has_char "," s = false → first_label (s +:+ String "," t) = lstrip s) ∧
  (∀ s, has_char "," s = false → first_label s = strip s).
Proof.
  intros Hrun. split; [|split].
  - destruct (label_vehicles_spec _ _ _ _ _ _ Hrun) as (new & _ & _ & _ & Hok).
    destruct (Hok _ _ eq_refl) as (_ & _ & Hlab).
    eapply Forall2_impl; [exact Hlab|].
    intros v v' (l & Hl & Hv). exists l. split; [done|]. split.
    + intros Ht. by rewrite Ht in Hv.
    + intros s -> Hs. destruct s as [|a s]; [done|]. simpl in Hv.
      destruct Hv as (s' & c & [= <-] & Hc & ->). exists c.
      split; [done|]. split; [|done]. by apply resolve_cached.
  - apply first_label_before_comma.
  - apply first_label_single.
Qed.

Lemma C3_label_color_of_first_token_witness :
  label_vehicles sample_endpoint [labelled_A] ∅ [] =
    (Ok ([<[KEY_LABELCOLOR := VStr "#ff0000"]> labelled_A],
         {[ "7" := VStr "#ff0000" ]}), ["7"]) ∧
  Forall2 (λ v v' : dict,
     ∃ l, v !! KEY_LABELIDS = Some l ∧
       (truthy l = false → v' = v) ∧
       (∀ s, l = VStr s → strip s ≠ "" →
          ∃ c, ({[ "7" := VStr "#ff0000" ]} : gmap string value) !! first_label s
                 = Some c ∧
               resolve sample_endpoint (first_label s) {[ "7" := VStr "#ff0000" ]} ["7"]
                 = (Ok (c, {[ "7" := VStr "#ff0000" ]}), ["7"]) ∧
               v' = <[KEY_LABELCOLOR := c]> v))
    [labelled_A] [<[KEY_LABELCOLOR := VStr "#ff0000"]> labelled_A].
Proof.
  assert (Hrun : label_vehicles sample_endpoint [labelled_A] ∅ [] =
    (Ok ([<[KEY_LABELCOLOR := VStr "#ff0000"]> labelled_A],
         {[ "7" := VStr "#ff0000" ]}), ["7"])) by (vm_compute; reflexivity).
  split; [exact Hrun|].
  exact (proj1 (C3_label_color_of_first_token _ _ _ _ _ _ _ Hrun)).
Defined.

(** The claim as the specification words it fails on a label field with
    whitespace before the first comma: the specification's token is [7],
    whose colour the resolver knows, but the loop resolves [7 ] with the
    trailing blank and stores the empty colour of the failed lookup. *)
Lemma C3_trimmed_first_token_counterexample :
  spec_first_token "7 ,8" = "7" ∧
  first_label "7 ,8" = "7 " ∧
  (resolve sample_endpoint "7" ∅ []).1
    = Ok (VStr "#ff0000", {[ "7" := VStr "#ff0000" ]}) ∧
  label_vehicles sample_endpoint [spaced_A] ∅ [] =
    (Ok ([<[KEY_LABELCOLOR := VStr ""]> spaced_A], {[ "7 " := VStr "" ]}), ["7 "]).
Proof. repeat split; vm_compute; reflexivity. Qed.

(** A label field of blanks only is truthy: the loop resolves the empty
    identifier and sets [_labelColor], although the field is empty after
    trimming. *)
Example label_vehicles_blank_field :
  strip " " = "" ∧
  label_vehicles sample_endpoint [blank_A] ∅ [] =
    (Ok ([<[KEY_LABELCOLOR := VStr ""]> blank_A], {[ "" := VStr "" ]}), [""]).
Proof. split; vm_compute; reflexivity. Qed.

(** A record without the label field stops the loop with a [KeyError]. *)
Example label_vehicles_no_field :
  label_vehicles sample_endpoint [raw_B; labelled_A] ∅ [] = (Raise KeyError, []).
Proof. vm_compute. reflexivity. Qed.

(** The scenario with the records A and B: B is dropped for its empty
    [hu], A keeps its own fields, is filled up and gets the colour of label
    7 after a single request. *)
Example vehicles_A_B :
  vehicles sample_endpoint [raw_A; raw_B] [active_A; active_B] [] =
    (Ok {| response_status := 200;
           response_vehicles := [<[KEY_LABELCOLOR := VStr "#ff0000"]> labelled_A] |},
     ["7"]).
Proof. vm_compute. reflexivity. Qed.

(** C4. In one run every label identifier is requested from the remote
    endpoint at most once: the requests the label loop adds to the log are
    pairwise distinct, for the loop started with an empty cache and for the
    whole handler. The first resolution of an identifier stores what the
    lookup returned, the empty string of a failed lookup included, and a
    resolution of a cached identifier returns the cached value and makes no
    request. *)
Theorem C4_label_lookup_at_most_once
    (labels_endpoint : world → string → response)
    (records raw active : list dict) (w0 : world) :
  (∃ new : list string,
     (label_vehicles labels_endpoint records ∅ w0).2 = w0 ++ new ∧ NoDup new) ∧
  (∃ new : list string,
     (vehicles labels_endpoint raw active w0).2 = w0 ++ new ∧ NoDup new) ∧
  (∀ id (lc : gmap string value) w c,
     lc !! id = None →
     (getBaubuddyLabelColor labels_endpoint id w).1 = Ok c →
     resolve labels_endpoint id lc w = (Ok (c, <[id := c]> lc), w ++ [id])) ∧
  (∀ id (lc : gmap string value) w,
     lc !! id = None →
     no_color (labels_endpoint w id) = true →
     resolve labels_endpoint id lc w =
       (Ok (VStr "", <[id := VStr ""]> lc), w ++ [id])) ∧
  (∀ id (lc : gmap string value) w c,
     lc !! id = Some c →
     resolve labels_endpoint id lc w = (Ok (c, lc), w)).
Proof.
  split; [|split; [|split; [|split]]].
  - destruct (label_vehicles labels_endpoint records ∅ w0) as [r w'] eqn:Hrun.
    destruct (label_vehicles_spec _ _ _ _ _ _ Hrun) as (new & -> & Hnd & _).
    by exists new.
  - apply vehicles_world.
  - intros id lc w c Hc Hget. by rewrite (resolve_fresh _ _ _ _ Hc), Hget.
  - intros id lc w Hc Hno.
    by rewrite (resolve_fresh _ _ _ _ Hc), (getBaubuddyLabelColor_no_color _ _ _ Hno).
  - intros id lc w c Hc. by apply resolve_cached.
Qed.

(** ** Report assembly *)

Section report.

Variable strptime : string → option datetime.
Variable now : nat → datetime.

Implicit Types (keys : list string) (v : dict) (ws : Worksheet)
  (o : row_outcome) (idx : option nat).

Lemma add_vehicle_outcome keys colored idx v n ws :
  add_vehicle strptime now keys colored idx v n ws =
    o ← vehicle_outcome strptime keys colored idx (now n) v;
    Ok (apply_outcome idx n o ws).
Proof.
  unfold add_vehicle, vehicle_outcome, apply_outcome.
  destruct (emit_row keys v) as [row|e]; simpl; [|done].
  destruct colored; simpl.
  - destruct (getitem v KEY_HU) as [hu|e]; simpl; [|done].
    destruct (colorByAge strptime (now n) hu) as [rowColor|e]; simpl; [|done].
    destruct idx as [column|]; [|done].
    destruct (negb (column =? 0)%nat && has_labelColor v); [|done].
    destruct (getitem v KEY_LABELCOLOR) as [c|e]; simpl; [|done].
    by destruct (value_lstrip "#" c).
  - destruct idx as [column|]; [|done].
    destruct (negb (column =? 0)%nat && has_labelColor v); [|done].
    destruct (getitem v KEY_LABELCOLOR) as [c|e]; simpl; [|done].
    by destruct (value_lstrip "#" c).
Qed.

Lemma apply_outcome_rows idx n o ws :
  ws_rows (apply_outcome idx n o ws) = ws_rows ws ++ [ro_row o].
Proof.
  unfold apply_outcome.
  by destruct (ro_rowColor o) as [[|a s]|], (ro_labelColor o), idx.
Qed.

Lemma apply_outcome_row_dimensions idx n o ws (r : nat) :
  row_dimensions ws !! n = None →
  row_dimensions (apply_outcome idx n o ws) !! r =
    if decide (r = n) then outcome_row_dimension o else row_dimensions ws !! r.
Proof.
  intros Hn. unfold apply_outcome, outcome_row_dimension.
  destruct (ro_rowColor o) as [[|a s]|], (ro_labelColor o), idx; simpl;
    unfold row_dimension; simpl; rewrite ?Hn; simpl;
    case_decide; subst; by rewrite ?lookup_insert_eq, ?lookup_insert_ne.
Qed.

Lemma apply_outcome_cells idx n o ws (r c : nat) :
  (∀ c, cells ws !! (n, c) = None) →
  cells (apply_outcome idx n o ws) !! (r, c) =
    if decide (r = n) then outcome_cell idx o c else cells ws !! (r, c).
Proof.
  intros Hn. unfold apply_outcome, outcome_cell.
  destruct (ro_rowColor o) as [[|a s]|], (ro_labelColor o), idx as [column|];
    simpl; unfold cell; simpl; rewrite ?lookup_insert_eq, ?Hn; simpl;
    repeat case_decide; subst;
    rewrite ?insert_insert_eq, ?lookup_insert_eq, ?lookup_insert_ne, ?Hn;
    congruence.
Qed.

Lemma apply_outcome_fresh idx n o ws :
  fresh_from n ws → fresh_from (S n) (apply_outcome idx n o ws).
Proof.
  intros Hfresh r Hr. destruct (Hfresh n (le_n n)) as [Hrow Hcells].
  destruct (Hfresh r ltac:(lia)) as [Hrow' Hcells'].
  split; [|intros c].
  - rewrite apply_outcome_row_dimensions by done. case_decide; [lia|done].
  - rewrite apply_outcome_cells by done. case_decide; [lia|done].
Qed.

(** The loop of [createExcelFile], row by row. *)
Lemma add_vehicles_spec keys colored idx (vs : list dict) (n : nat) ws ws' :
  fresh_from n ws →
  add_vehicles strptime now keys colored idx vs n ws = Ok ws' →
  ∃ os : list row_outcome,
    (∀ (i : nat) v, vs !! i = Some v →
       ∃ o, os !! i = Some o ∧
            vehicle_outcome strptime keys colored idx (now (n + i)%nat) v = Ok o) ∧
    ws_rows ws' = ws_rows ws ++ (ro_row <$> os) ∧
    (∀ r : nat, (r < n)%nat → row_dimensions ws' !! r = row_dimensions ws !! r) ∧
    (∀ r c : nat, (r < n)%nat → cells ws' !! (r, c) = cells ws !! (r, c)) ∧
    (∀ (i : nat) o, os !! i = Some o →
       row_dimensions ws' !! (n + i)%nat = outcome_row_dimension o ∧
       ∀ c : nat, cells ws' !! ((n + i)%nat, c) = outcome_cell idx o c) ∧
    fresh_from (n + length vs) ws'.
Proof.
  revert n ws. induction vs as [|v rest IH]; intros n ws Hfresh; simpl.
  - intros [= <-]. exists []. rewrite app_nil_r, Nat.add_0_r.
    repeat split; try done; by apply Hfresh.
  - rewrite add_vehicle_outcome.
    destruct (vehicle_outcome strptime keys colored idx (now n) v) as [o|e] eqn:Ho;
      simpl; [|done].
    intros Hrest.
    destruct (Hfresh n (le_n n)) as [Hrow Hcells].
    destruct (IH _ _ (apply_outcome_fresh idx n o ws Hfresh) Hrest)
      as (os & Hos & Hrows & Hdims & Hcs & Hat & Hfresh').
    exists (o :: os). split; [|split; [|split; [|split; [|split]]]].
    + intros [|i] v' Hv'; simpl in *.
      * injection Hv' as <-. exists o. by rewrite Nat.add_0_r.
      * destruct (Hos i v' Hv') as (o' & ? & Ho'). exists o'.
        split; [done|]. by replace (n + S i)%nat with (S n + i)%nat by lia.
    + rewrite Hrows, apply_outcome_rows, <- app_assoc. done.
    + intros r Hr. rewrite Hdims by lia.
      rewrite apply_outcome_row_dimensions by done. case_decide; [lia|done].
    + intros r c Hr. rewrite Hcs by lia.
      rewrite apply_outcome_cells by done. case_decide; [lia|done].
    + intros [|i] o' Ho'; simpl in *.
      * injection Ho' as <-. rewrite Nat.add_0_r. split; [|intros c].
        -- rewrite Hdims by lia. rewrite apply_outcome_row_dimensions by done.
           by case_decide.
        -- rewrite Hcs by lia. rewrite apply_outcome_cells by done.
           by case_decide.
      * replace (n + S i)%nat with (S n + i)%nat by lia. by apply Hat.
    + by replace (n + S (length rest))%nat with (S n + length rest)%nat by lia.
Qed.

Lemma add_vehicles_total keys colored idx (vs : list dict) (n : nat) ws :
  (∀ (i : nat) v, vs !! i = Some v →
     ∃ o, vehicle_outcome strptime keys colored idx (now (n + i)%nat) v = Ok o) →
  ∃ ws', add_vehicles strptime now keys colored idx vs n ws = Ok ws'.
Proof.
  revert n ws. induction vs as [|v rest IH]; intros n ws Hall; simpl; [by eauto|].
  rewrite add_vehicle_outcome.
  destruct (Hall 0%nat v eq_refl) as [o Ho]. rewrite Nat.add_0_r in Ho.
  rewrite Ho. simpl. apply IH. intros i v' Hv'.
  replace (S n + i)%nat with (n + S i)%nat by lia. by apply Hall.
Qed.

Lemma add_vehicles_raise keys colored idx (vs : list dict) (n i : nat) v e ws :
  vs !! i = Some v →
  vehicle_outcome strptime keys colored idx (now (n + i)%nat) v = Raise e →
  ∃ e', add_vehicles strptime now keys colored idx vs n ws = Raise e'.
Proof.
  revert n i ws. induction vs as [|v0 rest IH]; intros n i ws Hv Hraise; [done|].
  simpl. rewrite add_vehicle_outcome.
  destruct (vehicle_outcome strptime keys colored idx (now n) v0) as [o|e0] eqn:Ho;
    simpl; [|by eauto].
  destruct i as [|i]; simpl in Hv.
  - injection Hv as ->. rewrite Nat.add_0_r in Hraise. congruence.
  - eapply IH; [exact Hv|]. by replace (S n + i)%nat with (n + S i)%nat by lia.
Qed.

Lemma add_header_spec keys colored :
  let ws := add_header keys colored new_worksheet in
  ws_rows ws = [VStr <$> KEY_RNR :: keys] ∧
  row_dimensions ws =
    {[ 1%nat := {| rd_font := Some bold_font;
                   rd_fill := if colored then Some (solid "CCCCCC") else None |} ]} ∧
  cells ws = ∅.
Proof. by destruct colored. Qed.

Lemma add_header_fresh keys colored :
  fresh_from 2 (add_header keys colored new_worksheet).
Proof.
  destruct (add_header_spec keys colored) as (_ & Hdims & Hcells).
  intros r Hr. rewrite Hdims, Hcells. split; [|done].
  apply lookup_singleton_ne. lia.
Qed.

(** [createExcelFile], row by row: what every vehicle contributes and where. *)
Lemma createExcelFile_spec (vehicles : list dict) keys colored ws :
  createExcelFile strptime now vehicles keys colored = Ok ws →
  ∃ os : list row_outcome,
    (∀ (i : nat) v, vehicles !! i = Some v →
       ∃ o, os !! i = Some o ∧
            vehicle_outcome strptime keys colored (labelIdsIndex keys)
              (now (2 + i)%nat) v = Ok o ∧
            row_dimensions ws !! (2 + i)%nat = outcome_row_dimension o ∧
            ∀ c : nat,
              cells ws !! ((2 + i)%nat, c) = outcome_cell (labelIdsIndex keys) o c) ∧
    ws_rows ws = (VStr <$> KEY_RNR :: keys) :: (ro_row <$> os) ∧
    row_dimensions ws !! 1%nat =
      Some {| rd_font := Some bold_font;
              rd_fill := if colored then Some (solid "CCCCCC") else None |} ∧
    (∀ r : nat, (r < 1 ∨ 2 + length vehicles ≤ r)%nat →
       row_dimensions ws !! r = None) ∧
    (∀ r c : nat, (r < 2 ∨ 2 + length vehicles ≤ r)%nat →
       cells ws !! (r, c) = None).
Proof.
  unfold createExcelFile. intros Hrun.
  destruct (add_header_spec keys colored) as (Hrows0 & Hdims0 & Hcells0).
  destruct (add_vehicles_spec _ _ _ _ _ _ _ (add_header_fresh keys colored) Hrun)
    as (os & Hos & Hrows & Hdims & Hcs & Hat & Hfresh).
  exists os. split; [|split; [|split; [|split]]].
  - intros i v Hv. destruct (Hos i v Hv) as (o & Ho & Hout).
    exists o. destruct (Hat i o Ho) as [? ?]. done.
  - by rewrite Hrows, Hrows0.
  - rewrite Hdims by lia. rewrite Hdims0. apply lookup_singleton_eq.
  - intros r [Hr|Hr].
    + rewrite Hdims by lia. rewrite Hdims0. apply lookup_singleton_ne. lia.
    + by apply Hfresh.
  - intros r c [Hr|Hr].
    + rewrite Hcs by lia. by rewrite Hcells0.
    + by apply Hfresh.
Qed.

End report.

(** ** Column selection *)

Lemma List_filter_stdpp {A : Type} (f : A → bool) (P : A → Prop)
    `{!∀ x, Decision (P x)} (l : list A) :
  (∀ x, f x = true ↔ P x) → List.filter f l = filter P l.
Proof.
  intros Hf. induction l as [|x l IH]; [done|]. simpl. rewrite filter_cons.
  destruct (f x) eqn:Hx; case_decide as HP.
  - by rewrite IH.
  - by apply Hf in Hx.
  - apply Hf in HP. congruence.
  - done.
Qed.

Lemma filter_all {A : Type} (P : A → Prop) `{!∀ x, Decision (P x)} (l : list A) :
  (∀ x, P x) → filter P l = l.
Proof.
  intros HP. induction l as [|x l IH]; [done|].
  rewrite filter_cons_True by done. by rewrite IH.
Qed.

Lemma dedup_first_elem_of (l : list string) (x : string) :
  x ∈ dedup_first l ↔ x ∈ l.
Proof.
  induction l as [|y l IH]; simpl; [done|].
  rewrite !elem_of_cons, list_elem_of_filter, IH.
  destruct (decide (x = y)) as [->|Hne]; [by split; auto|].
  split; [intros [?|[_ ?]]; auto | intros [?|?]; auto].
Qed.

Lemma dedup_first_NoDup (l : list string) : NoDup (dedup_first l).
Proof.
  induction l as [|y l IH]; simpl; constructor.
  - rewrite list_elem_of_filter. by intros [? _].
  - by apply NoDup_filter.
Qed.

(** [dict.fromkeys] keeps the first occurrences in their order. *)
Lemma fromkeys_dedup_first (keys acc : list string) :
  fromkeys keys acc = acc ++ filter (λ k, k ∉ acc) (dedup_first keys).
Proof.
  revert acc. induction keys as [|k keys IH]; intros acc; simpl.
  - by rewrite app_nil_r.
  - rewrite IH, filter_cons. destruct (decide (k ∈ acc)) as [Hk|Hk].
    + rewrite decide_False by auto. f_equal.
      rewrite list_filter_filter. apply list_filter_iff.
      intros x. simpl. split; [|by intros [? _]]. intros Hx. split; [done|].
      by intros ->.
    + rewrite decide_True by done. rewrite <- app_assoc. simpl. do 2 f_equal.
      rewrite list_filter_filter. apply list_filter_iff.
      intros x. simpl. rewrite elem_of_app, list_elem_of_singleton.
      split; [intros Hx; split; auto | intros [? ?] [?|?]; auto].
Qed.

Lemma sanitize_keys_spec (keys : list string) (first : dict) (rest : list dict) :
  sanitize_keys (Some keys) (first :: rest) =
    Ok (dedup_first (filter (λ k, k ∈ dom first ∧ k ≠ KEY_RNR) keys)).
Proof.
  unfold sanitize_keys. destruct keys as [|k keys]; [done|].
  generalize (k :: keys). clear k keys. intros keys.
  rewrite fromkeys_dedup_first. rewrite app_nil_l.
  rewrite (List_filter_stdpp _ (λ k, k ∈ dom first ∧ k ≠ KEY_RNR)).
  - f_equal. apply filter_all. intros x. apply not_elem_of_nil.
  - intros x. rewrite andb_true_iff, bool_decide_eq_true, negb_true_iff.
    unfold KEY_RNR. by rewrite String.eqb_neq.
Qed.

(** ** Sorting *)

Lemma insert_sorted_Permutation (x : value * dict) (l l' : list (value * dict)) :
  insert_sorted x l = Ok l' → l' ≡ₚ x :: l.
Proof.
  revert l'. induction l as [|y l IH]; intros l'; simpl.
  - by intros [= <-].
  - intros (lt & _ & Hl')%result_bind_Ok. destruct lt.
    + by injection Hl' as <-.
    + apply result_bind_Ok in Hl' as (l'' & Hl'' & [= <-]).
      rewrite (IH _ Hl''). apply Permutation_swap.
Qed.

Lemma sort_pairs_Permutation (l acc r : list (value * dict)) :
  sort_pairs l acc = Ok r → r ≡ₚ l ++ acc.
Proof.
  revert acc. induction l as [|x l IH]; intros acc; simpl.
  - by intros [= <-].
  - intros (acc' & Hacc' & Hr)%result_bind_Ok.
    rewrite (IH _ Hr), (insert_sorted_Permutation _ _ _ Hacc').
    by rewrite Permutation_middle.
Qed.

Example sorted_by_gruppe_stable :
  sorted_by_gruppe [group_Z; group_A1; group_A2] = Ok [group_A1; group_A2; group_Z].
Proof. vm_compute. reflexivity. Qed.

Example sorted_by_gruppe_mixed :
  sorted_by_gruppe [group_Z; <["gruppe" := VNone]> group_A1] = Raise TypeError.
Proof. vm_compute. reflexivity. Qed.

(** The sorted list holds the same records as the response. *)
Lemma sorted_by_gruppe_Permutation (vehicles sorted : list dict) :
  sorted_by_gruppe vehicles = Ok sorted → sorted ≡ₚ vehicles.
Proof.
  unfold sorted_by_gruppe.
  intros (ks & Hks & (r & Hr & [= <-])%result_bind_Ok)%result_bind_Ok.
  apply mapM_result_Ok, Forall2_length in Hks.
  rewrite (sort_pairs_Permutation _ _ _ Hr), app_nil_r.
  rewrite snd_zip by lia. done.
Qed.

(** C5. For every requested column list and every non-empty sorted record
    list, the sanitized columns are the requested names that are fields of
    the first record and are not the mandatory [rnr], de-duplicated in
    first-occurrence order; the header, [rnr] followed by these columns, has
    no duplicate, so [rnr] is first and occurs exactly once. Requesting
    [gruppe; bogus; gruppe; kurzname] on records with [gruppe] and
    [kurzname] but not [bogus] gives the header [rnr; gruppe; kurzname]. A
    report that [processVehicleData] produces has this header as its first
    row. *)
Theorem C5_report_columns (keys : list string) (first : dict) (rest : list dict) :
  let columns :=
    dedup_first (filter (λ k, k ∈ dom first ∧ k ≠ KEY_RNR) keys) in
  sanitize_keys (Some keys) (first :: rest) = Ok columns ∧
  sanitize_keys None (first :: rest) = Ok [] ∧
  (∀ k, k ∈ columns ↔ k ∈ keys ∧ k ∈ dom first ∧ k ≠ KEY_RNR) ∧
  NoDup (KEY_RNR :: columns) ∧
  (("gruppe" : string) ∈ dom first → ("kurzname" : string) ∈ dom first →
   ("bogus" : string) ∉ dom first →
   sanitize_keys (Some ["gruppe"; "bogus"; "gruppe"; "kurzname"]) (first :: rest)
     = Ok ["gruppe"; "kurzname"]) ∧
  (∀ strptime now vehicles colored ws,
     processVehicleData strptime now vehicles (Some keys) colored = Ok (Some ws) →
     ∃ first' rest',
       sorted_by_gruppe vehicles = Ok (first' :: rest') ∧
       ws_rows ws !! 0%nat =
         Some (VStr <$> KEY_RNR ::
                 dedup_first (filter (λ k, k ∈ dom first' ∧ k ≠ KEY_RNR) keys))).
Proof.
  intros columns. split; [apply sanitize_keys_spec|]. split; [done|].
  assert (Hin : ∀ k, k ∈ columns ↔ k ∈ keys ∧ k ∈ dom first ∧ k ≠ KEY_RNR).
  { intros k. unfold columns. rewrite dedup_first_elem_of, list_elem_of_filter.
    split; [intros [[? ?] ?]; auto | intros (? & ? & ?); auto]. }
  split; [exact Hin|]. split; [|split].
  - constructor; [|apply dedup_first_NoDup]. rewrite Hin. by intros (_ & _ & ?).
  - intros Hg Hk Hb. rewrite sanitize_keys_spec. f_equal.
    rewrite filter_cons_True by done.
    rewrite filter_cons_False by (by intros [? _]).
    rewrite filter_cons_True by done.
    rewrite filter_cons_True by done.
    rewrite filter_nil. reflexivity.
  - intros strptime now vehicles colored ws. unfold processVehicleData.
    destruct vehicles as [|v0 vehicles]; [done|].
    intros (sorted & Hsorted & Hrun)%result_bind_Ok.
    apply result_bind_Ok in Hrun as (ks & Hks & Hrun).
    apply result_bind_Ok in Hrun as (ws' & Hrun & [= <-]).
    destruct sorted as [|first' rest'].
    { apply sorted_by_gruppe_Permutation, Permutation_nil_l in Hsorted. done. }
    rewrite sanitize_keys_spec in Hks. injection Hks as <-.
    exists first', rest'. split; [done|].
    destruct (createExcelFile_spec _ _ _ _ _ _ Hrun) as (os & _ & -> & _).
    done.
Qed.

(** ** Styling *)

Lemma labelIdsIndex_pos (keys : list string) (column : nat) :
  labelIdsIndex keys = Some column → (column =? 0)%nat = false.
Proof.
  unfold labelIdsIndex. destruct (list_index KEY_LABELIDS keys) as [i|]; [|done].
  intros [= <-]. apply Nat.eqb_neq. lia.
Qed.

Lemma colorByAge_fill strptime (today : datetime) (x : value) (rowColor : option string) :
  colorByAge strptime today x = Ok rowColor → fill_of rowColor = solid <$> rowColor.
Proof.
  unfold colorByAge. destruct x as [| | |s]; try done.
  destruct (strptime s); [|done]. intros [= <-]. by repeat case_match.
Qed.

Section styling.

Variable strptime : string → option datetime.
Variable now : nat → datetime.

Implicit Types (keys : list string) (v : dict) (ws : Worksheet)
  (o : row_outcome) (idx : option nat).

(** What a successful reading of a vehicle has read. *)
Lemma vehicle_outcome_inv keys colored idx (today : datetime) v o :
  vehicle_outcome strptime keys colored idx today v = Ok o →
  emit_row keys v = Ok (ro_row o) ∧
  (if colored
   then ∃ hu, v !! KEY_HU = Some hu ∧
              colorByAge strptime today hu = Ok (ro_rowColor o)
   else ro_rowColor o = None) ∧
  match idx with
  | Some column =>
      if negb (column =? 0)%nat && has_labelColor v
      then ∃ s, v !! KEY_LABELCOLOR = Some (VStr s) ∧
                ro_labelColor o = Some (lstrip_char "#" s)
      else ro_labelColor o = None
  | None => ro_labelColor o = None
  end.
Proof.
  unfold vehicle_outcome.
  intros (row & Hrow & H)%result_bind_Ok.
  apply result_bind_Ok in H as (rowColor & HrowColor & H).
  apply result_bind_Ok in H as (labelColor & HlabelColor & [= <-]). simpl.
  split; [done|]. split.
  - destruct colored; [|by injection HrowColor].
    apply result_bind_Ok in HrowColor as (hu & Hhu & Hcolor).
    exists hu. split; [|done]. unfold getitem in Hhu.
    by destruct (v !! KEY_HU); simplify_eq.
  - destruct idx as [column|]; [|by injection HlabelColor].
    destruct (negb (column =? 0)%nat && has_labelColor v); [|by injection HlabelColor].
    apply result_bind_Ok in HlabelColor as (c & Hc & H).
    apply result_bind_Ok in H as (s & Hs & [= <-]).
    unfold getitem in Hc. destruct (v !! KEY_LABELCOLOR) as [c'|]; [|done].
    injection Hc as ->. destruct c as [| | |s']; try done.
    injection Hs as <-. by exists s'.
Qed.

Lemma row_dimension_lookup ws (r : nat) (rd : RowDimension) :
  row_dimensions ws !! r = Some rd → row_dimension ws r = rd.
Proof. unfold row_dimension. by intros ->. Qed.

Lemma row_dimension_None ws (r : nat) :
  row_dimensions ws !! r = None →
  row_dimension ws r = {| rd_font := None; rd_fill := None |}.
Proof. unfold row_dimension. by intros ->. Qed.

Lemma cell_None ws (r c : nat) :
  cells ws !! (r, c) = None →
  cell ws r c = {| cell_font := None; cell_fill := None |}.
Proof. unfold cell. by intros ->. Qed.

(** The row fill and the label cell of the row of vehicle number [i]. *)
Lemma createExcelFile_row (vehicles : list dict) keys colored ws (i : nat) v :
  createExcelFile strptime now vehicles keys colored = Ok ws →
  vehicles !! i = Some v →
  ∃ o, vehicle_outcome strptime keys colored (labelIdsIndex keys)
         (now (2 + i)%nat) v = Ok o ∧
       rd_fill (row_dimension ws (2 + i)) = fill_of (ro_rowColor o) ∧
       ∀ c : nat,
         cell ws (2 + i) c =
           match ro_labelColor o, labelIdsIndex keys with
           | Some s, Some column =>
               if decide (c = column)
               then {| cell_font := Some (label_font s);
                       cell_fill := fill_of (ro_rowColor o) |}
               else {| cell_font := None; cell_fill := None |}
           | _, _ => {| cell_font := None; cell_fill := None |}
           end.
Proof.
  intros Hrun Hv.
  destruct (createExcelFile_spec _ _ _ _ _ _ Hrun) as (os & Hos & _).
  destruct (Hos i v Hv) as (o & _ & Ho & Hdim & Hcells).
  exists o. split; [done|]. split.
  - unfold row_dimension. rewrite Hdim. unfold outcome_row_dimension.
    by destruct (fill_of (ro_rowColor o)).
  - intros c. unfold cell. rewrite Hcells. unfold outcome_cell.
    destruct (ro_labelColor o), (labelIdsIndex keys); try done.
    by case_decide.
Qed.

Lemma row_cases (vehicles : list dict) (r : nat) :
  r = 1%nat ∨
  (∃ (i : nat) v, r = (2 + i)%nat ∧ vehicles !! i = Some v) ∨
  (r < 1 ∨ 2 + length vehicles ≤ r)%nat.
Proof.
  destruct (decide (r = 1%nat)); [by left|].
  destruct (decide (r < 1)%nat); [by right; right; left|].
  destruct (decide (2 + length vehicles ≤ r)%nat); [by right; right; right|].
  right; left. destruct (lookup_lt_is_Some_2 vehicles (r - 2)) as [v Hv]; [lia|].
  exists (r - 2)%nat, v. split; [lia|done].
Qed.

End styling.

(** C6 (amended). When the colour-enable flag is false the report has no
    fill anywhere: no row dimension, the header row included, and no cell
    has a fill. The header row is bold all the same, and the label cell of a
    record with a non-empty [_labelColor] gets its font colour all the same,
    whenever the label column is among the columns. With the flag true the
    header row has its grey fill. *)
Theorem C6_uncolored_report_has_no_fill
    (strptime : string → option datetime) (now : nat → datetime)
    (vehicles : list dict) (keys : list string) (ws : Worksheet) :
  createExcelFile strptime now vehicles keys false = Ok ws →
  (∀ r : nat, rd_fill (row_dimension ws r) = None) ∧
  (∀ r c : nat, cell_fill (cell ws r c) = None) ∧
  row_dimension ws 1 = {| rd_font := Some bold_font; rd_fill := None |} ∧
  (∀ (i : nat) (v : dict) (column : nat),
     vehicles !! i = Some v →
     labelIdsIndex keys = Some column →
     has_labelColor v = true →
     ∃ s, v !! KEY_LABELCOLOR = Some (VStr s) ∧
          cell ws (2 + i) column =
            {| cell_font := Some (label_font (lstrip_char "#" s));
               cell_fill := None |}) ∧
  (∀ ws', createExcelFile strptime now vehicles keys true = Ok ws' →
          row_dimension ws' 1 =
            {| rd_font := Some bold_font; rd_fill := Some (solid "CCCCCC") |}).
Proof.
  intros Hrun.
  destruct (createExcelFile_spec _ _ _ _ _ _ Hrun)
    as (os & Hos & _ & Hheader & Hdims & Hcells).
  assert (Hrow : ∀ (i : nat) v, vehicles !! i = Some v →
            rd_fill (row_dimension ws (2 + i)) = None ∧
            ∀ c, cell_fill (cell ws (2 + i) c) = None).
  { intros i v Hv.
    destruct (createExcelFile_row _ _ _ _ _ _ _ _ Hrun Hv) as (o & Ho & Hfill & Hc).
    destruct (vehicle_outcome_inv _ _ _ _ _ _ _ Ho) as (_ & Hcolor & _).
    simpl in Hcolor. rewrite Hcolor in *. split; [done|].
    intros c. rewrite Hc.
    destruct (ro_labelColor o), (labelIdsIndex keys); try done. by case_decide. }
  split; [|split; [|split; [|split]]].
  - intros r. destruct (row_cases vehicles r) as [->|[(i & v & -> & Hv)|Hr]].
    + by rewrite (row_dimension_lookup _ _ _ Hheader).
    + by apply (Hrow i v).
    + by rewrite (row_dimension_None _ _ (Hdims r Hr)).
  - intros r c. destruct (row_cases vehicles r) as [->|[(i & v & -> & Hv)|Hr]].
    + rewrite cell_None; [done|]. apply Hcells. lia.
    + by apply (Hrow i v).
    + rewrite cell_None; [done|]. apply Hcells. lia.
  - by rewrite (row_dimension_lookup _ _ _ Hheader).
  - intros i v column Hv Hidx Hlabel.
    destruct (createExcelFile_row _ _ _ _ _ _ _ _ Hrun Hv) as (o & Ho & _ & Hc).
    destruct (vehicle_outcome_inv _ _ _ _ _ _ _ Ho) as (_ & Hcolor & Hfont).
    simpl in Hcolor. rewrite Hidx, (labelIdsIndex_pos _ _ Hidx), Hlabel in Hfont.
    destruct Hfont as (s & Hs & Hfont). exists s. split; [done|].
    rewrite Hc, Hfont, Hidx, Hcolor. by rewrite decide_True.
  - intros ws' Hrun'.
    destruct (createExcelFile_spec _ _ _ _ _ _ Hrun') as (_ & _ & _ & Hheader' & _).
    by rewrite (row_dimension_lookup _ _ _ Hheader').
Qed.

Lemma C6_uncolored_report_has_no_fill_witness :
  ∃ ws,
    createExcelFile strptime_Ymd (λ _, april_first) [tinted] ["gruppe"; "labelIds"]
      false = Ok ws ∧
    ws_rows ws = [ [VStr "rnr"; VStr "gruppe"; VStr "labelIds"];
                   [VStr "4"; VStr "D"; VStr "7"] ] ∧
    (∀ r : nat, rd_fill (row_dimension ws r) = None) ∧
    (∀ r c : nat, cell_fill (cell ws r c) = None).
Proof.
  destruct (createExcelFile strptime_Ymd (λ _, april_first) [tinted]
              ["gruppe"; "labelIds"] false) as [ws|e] eqn:Hrun;
    [|by vm_compute in Hrun].
  exists ws. split; [done|]. split.
  - vm_compute in Hrun. by injection Hrun as <-.
  - destruct (C6_uncolored_report_has_no_fill _ _ _ _ _ Hrun) as (? & ? & _).
    done.
Defined.

(** The claim as stated fails: with the flag false the header row is bold
    and the label cell has its font colour. *)
Lemma C6_uncolored_styling_counterexample :
  ∃ ws,
    createExcelFile strptime_Ymd (λ _, april_first) [tinted] ["gruppe"; "labelIds"]
      false = Ok ws ∧
    rd_font (row_dimension ws 1) = Some {| font_bold := true; font_color := None |} ∧
    cell_font (cell ws 2 3) =
      Some {| font_bold := false; font_color := Some "ff0000" |}.
Proof. eexists. split; [vm_compute; reflexivity|]. split; vm_compute; reflexivity. Qed.

(** C7. In a report that is produced, take the record of row [2 + i] and
    let the label column be among the columns. The label cell gets a font
    colour exactly when the record has a non-empty [_labelColor]; when it
    does, the cell's own fill is the fill of its row: the same solid colour
    when the row is filled, and none when the row has no fill. A row fill
    is the solid fill of the colour [colorByAge] gave for the record. *)
Theorem C7_label_cell_repeats_row_fill
    (strptime : string → option datetime) (now : nat → datetime)
    (vehicles : list dict) (keys : list string) (colored : bool)
    (ws : Worksheet) (i : nat) (v : dict) (column : nat) :
  createExcelFile strptime now vehicles keys colored = Ok ws →
  vehicles !! i = Some v →
  labelIdsIndex keys = Some column →
  (has_labelColor v = true ↔ is_Some (cell_font (cell ws (2 + i) column))) ∧
  (has_labelColor v = true →
     cell_fill (cell ws (2 + i) column) = rd_fill (row_dimension ws (2 + i))) ∧
  (rd_fill (row_dimension ws (2 + i)) = None →
     cell_fill (cell ws (2 + i) column) = None) ∧
  (∀ p, rd_fill (row_dimension ws (2 + i)) = Some p →
     colored = true ∧
     ∃ hu c, v !! KEY_HU = Some hu ∧
             colorByAge strptime (now (2 + i)%nat) hu = Ok (Some c) ∧
             p = solid c).
Proof.
  intros Hrun Hv Hidx.
  destruct (createExcelFile_row _ _ _ _ _ _ _ _ Hrun Hv) as (o & Ho & Hfill & Hc).
  destruct (vehicle_outcome_inv _ _ _ _ _ _ _ Ho) as (_ & Hcolor & Hfont).
  rewrite Hidx, (labelIdsIndex_pos _ _ Hidx) in Hfont. simpl in Hfont.
  specialize (Hc column). rewrite Hidx in Hc. rewrite Hfill.
  assert (Hp : ∀ p, fill_of (ro_rowColor o) = Some p →
            colored = true ∧
            ∃ hu c, v !! KEY_HU = Some hu ∧
                    colorByAge strptime (now (2 + i)%nat) hu = Ok (Some c) ∧
                    p = solid c).
  { intros p Hp. destruct colored.
    - destruct Hcolor as (hu & Hhu & Hcol). split; [done|].
      rewrite (colorByAge_fill _ _ _ _ Hcol) in Hp.
      destruct (ro_rowColor o) as [c|]; [|done]. injection Hp as <-. eauto.
    - by rewrite Hcolor in Hp. }
  destruct (has_labelColor v).
  - destruct Hfont as (s & _ & Hfont). rewrite Hfont in Hc.
    rewrite decide_True in Hc by done. rewrite Hc. simpl.
    split; [by split; eauto|]. done.
  - rewrite Hfont in Hc. rewrite Hc. simpl.
    split; [by split; [|intros [? ?]]|]. done.
Qed.

Lemma C7_label_cell_repeats_row_fill_witness :
  ∃ ws,
    createExcelFile strptime_Ymd (λ _, april_first) [tinted] ["gruppe"; "labelIds"]
      true = Ok ws ∧
    rd_fill (row_dimension ws 2) = Some (solid COLOR_GREEN) ∧
    cell_fill (cell ws 2 3) = rd_fill (row_dimension ws 2).
Proof.
  destruct (createExcelFile strptime_Ymd (λ _, april_first) [tinted]
              ["gruppe"; "labelIds"] true) as [ws|e] eqn:Hrun;
    [|by vm_compute in Hrun].
  exists ws. split; [done|]. split.
  - vm_compute in Hrun. by injection Hrun as <-.
  - apply (C7_label_cell_repeats_row_fill _ _ _ _ _ _ 0%nat tinted 3%nat Hrun);
      reflexivity.
Defined.

(** ** Errors during report assembly *)

Lemma vehicle_outcome_unparsable (strptime : string → option datetime)
    (keys : list string) (idx : option nat) (today : datetime) (v : dict)
    (s : string) :
  v !! KEY_HU = Some (VStr s) →
  strptime s = None →
  ∃ e, vehicle_outcome strptime keys true idx today v = Raise e.
Proof.
  intros Hhu Hs. unfold vehicle_outcome, getitem.
  destruct (emit_row keys v) as [row|e]; simpl; [|by eauto].
  rewrite Hhu. simpl. rewrite Hs. simpl. eauto.
Qed.

(** With the flag false the date field is not parsed and the clock is not
    read. *)
Lemma createExcelFile_uncolored_ext
    (strptime strptime' : string → option datetime) (now now' : nat → datetime)
    (vehicles : list dict) (keys : list string) :
  createExcelFile strptime now vehicles keys false =
  createExcelFile strptime' now' vehicles keys false.
Proof.
  unfold createExcelFile.
  generalize (add_header keys false new_worksheet) 2%nat.
  induction vehicles as [|v rest IH]; intros ws n; simpl; [done|].
  rewrite !add_vehicle_outcome.
  change (vehicle_outcome strptime keys false (labelIdsIndex keys) (now n) v)
    with (vehicle_outcome strptime' keys false (labelIdsIndex keys) (now' n) v).
  destruct (vehicle_outcome strptime' keys false (labelIdsIndex keys) (now' n) v);
    simpl; [apply IH | done].
Qed.

(** C8 (amended). With styling enabled a record whose date field is a
    string that does not parse makes [colorByAge] raise [ValueError];
    nothing catches it, so [createExcelFile] and [processVehicleData] end
    with an exception and no report is produced. With styling disabled the
    date field is not parsed and has no influence on the outcome. *)
Theorem C8_unparsable_date_aborts_styled_run
    (strptime : string → option datetime) (now : nat → datetime)
    (vehicles : list dict) (i : nat) (v : dict) (s : string) :
  vehicles !! i = Some v →
  v !! KEY_HU = Some (VStr s) →
  strptime s = None →
  (∀ today, colorByAge strptime today (VStr s) = Raise ValueError) ∧
  (∀ keys, ∃ e, createExcelFile strptime now vehicles keys true = Raise e) ∧
  (∀ keys, ∃ e, processVehicleData strptime now vehicles keys true = Raise e) ∧
  (∀ keys strptime' now',
     createExcelFile strptime now vehicles keys false =
     createExcelFile strptime' now' vehicles keys false).
Proof.
  intros Hv Hhu Hs. split; [|split; [|split]].
  - intros today. unfold colorByAge. by rewrite Hs.
  - intros keys.
    destruct (vehicle_outcome_unparsable strptime keys (labelIdsIndex keys)
                (now (2 + i)%nat) v s Hhu Hs) as [e He].
    by eapply add_vehicles_raise.
  - intros keys. unfold processVehicleData.
    destruct vehicles as [|v0 rest] eqn:Hvs; [done|]. rewrite <- Hvs in *.
    destruct (sorted_by_gruppe vehicles) as [sorted|e] eqn:Hsorted; simpl;
      [|by eauto].
    destruct (sanitize_keys keys sorted) as [ks|e]; simpl; [|by eauto].
    apply sorted_by_gruppe_Permutation in Hsorted.
    assert (v ∈ sorted) as [j Hj]%list_elem_of_lookup.
    { rewrite Hsorted. by eapply list_elem_of_lookup_2. }
    destruct (vehicle_outcome_unparsable strptime ks (labelIdsIndex ks)
                (now (2 + j)%nat) v s Hhu Hs) as [e He].
    destruct (add_vehicles_raise strptime now ks true (labelIdsIndex ks) sorted
                2 j v e (add_header ks true new_worksheet) Hj He) as [e' He'].
    unfold createExcelFile. rewrite He'. simpl. eauto.
  - intros keys strptime' now'. apply createExcelFile_uncolored_ext.
Qed.

Lemma C8_unparsable_date_aborts_styled_run_witness :
  [fleet_first; unparsable_hu] !! 1%nat = Some unparsable_hu ∧
  unparsable_hu !! KEY_HU = Some (VStr "31.01.2023") ∧
  strptime_Ymd "31.01.2023" = None ∧
  ∃ e, processVehicleData strptime_Ymd (λ _, april_first)
         [fleet_first; unparsable_hu] None true = Raise e.
Proof.
  split; [reflexivity|]. split; [reflexivity|]. split; [reflexivity|].
  apply (C8_unparsable_date_aborts_styled_run strptime_Ymd (λ _, april_first)
           [fleet_first; unparsable_hu] 1%nat unparsable_hu "31.01.2023");
    reflexivity.
Defined.

(** The claim as stated fails: the styled run over a record with an
    unparsable date ends with [ValueError] instead of a report. *)
Lemma C8_unparsable_date_counterexample :
  strptime_Ymd "31.01.2023" = None ∧
  processVehicleData strptime_Ymd (λ _, april_first)
    [fleet_first; unparsable_hu] None true = Raise ValueError.
Proof. split; vm_compute; reflexivity. Qed.

(** ** Row emission *)

Lemma vehicle_outcome_row (strptime : string → option datetime)
    (keys : list string) (colored : bool) (idx : option nat) (today : datetime)
    (v : dict) (o : row_outcome) :
  vehicle_outcome strptime keys colored idx today v = Ok o →
  emit_row keys v = Ok (ro_row o).
Proof. intros Ho. by destruct (vehicle_outcome_inv _ _ _ _ _ _ _ Ho). Qed.

Lemma add_vehicles_rows (strptime : string → option datetime)
    (now : nat → datetime) (keys : list string) (colored : bool)
    (idx : option nat) (vs : list dict) (n : nat) (ws ws' : Worksheet) :
  add_vehicles strptime now keys colored idx vs n ws = Ok ws' →
  ∃ rows, ws_rows ws' = ws_rows ws ++ rows ∧
          Forall2 (λ u row, emit_row keys u = Ok row) vs rows.
Proof.
  revert n ws. induction vs as [|v rest IH]; intros n ws; simpl.
  - intros [= <-]. exists []. by rewrite app_nil_r.
  - rewrite add_vehicle_outcome.
    intros (ws1 & (o & Ho & [= <-])%result_bind_Ok & Hrest)%result_bind_Ok.
    destruct (IH _ _ Hrest) as (rows & Hrows & Hall).
    exists (ro_row o :: rows). split.
    + by rewrite Hrows, apply_outcome_rows, <- app_assoc.
    + constructor; [by eapply vehicle_outcome_row | done].
Qed.

Lemma emit_row_present (keys : list string) (v : dict) :
  is_Some (v !! KEY_RNR) →
  Forall (λ k, is_Some (v !! k)) keys →
  ∃ rnr columns,
    emit_row keys v = Ok (rnr :: columns) ∧
    v !! KEY_RNR = Some rnr ∧
    Forall2 (λ k x, v !! k = Some x) keys columns.
Proof.
  intros [rnr Hrnr] Hkeys.
  destruct (mapM_result_total (getitem v) keys) as [columns Hcolumns].
  { eapply Forall_impl; [exact Hkeys|]. intros k [x Hx].
    exists x. unfold getitem. by rewrite Hx. }
  exists rnr, columns. split; [|split; [done|]].
  - unfold emit_row. apply result_bind_Ok. exists rnr.
    split; [unfold getitem; by rewrite Hrnr|].
    apply result_bind_Ok. by exists columns.
  - apply mapM_result_Ok in Hcolumns.
    eapply Forall2_impl; [exact Hcolumns|]. intros k x. unfold getitem.
    by destruct (v !! k); intros [= <-].
Qed.

(** C9 (amended). For a record that has the mandatory field and every
    column among its keys, row emission succeeds and emits the stored
    values, mandatory field first; a stored [None] is emitted as it is, an
    empty cell. Sanitization checks the requested columns against the first
    sorted record, so that record has every sanitized column. The rows of a
    report that is produced are the emitted rows of the records, under the
    header. *)
Theorem C9_row_emission_on_present_keys (keys : list string) (v : dict) :
  is_Some (v !! KEY_RNR) →
  Forall (λ k, is_Some (v !! k)) keys →
  (∃ rnr columns,
     emit_row keys v = Ok (rnr :: columns) ∧
     v !! KEY_RNR = Some rnr ∧
     Forall2 (λ k x, v !! k = Some x) keys columns) ∧
  (∀ requested rest ks,
     sanitize_keys requested (v :: rest) = Ok ks →
     Forall (λ k, is_Some (v !! k)) ks) ∧
  (∀ strptime now vehicles colored ws,
     createExcelFile strptime now vehicles keys colored = Ok ws →
     ∃ rows,
       ws_rows ws = (VStr <$> KEY_RNR :: keys) :: rows ∧
       Forall2 (λ u row, emit_row keys u = Ok row) vehicles rows).
Proof.
  intros Hrnr Hkeys. split; [by apply emit_row_present|]. split.
  - intros [requested|] rest ks; [|by intros [= <-]].
    rewrite sanitize_keys_spec. intros [= <-].
    apply Forall_forall. intros k.
    rewrite dedup_first_elem_of, list_elem_of_filter.
    intros [[Hk _] _]. by apply elem_of_dom.
  - intros strptime now vehicles colored ws Hrun.
    destruct (add_vehicles_rows _ _ _ _ _ _ _ _ _ Hrun) as (rows & Hrows & Hall).
    exists rows. split; [|done]. rewrite Hrows.
    by destruct (add_header_spec keys colored) as (-> & _).
Qed.

Lemma C9_row_emission_on_present_keys_witness :
  is_Some (fleet_first !! KEY_RNR) ∧
  Forall (λ k : string, is_Some (fleet_first !! k)) ["info"; "gruppe"] ∧
  ∃ rnr columns,
    emit_row ["info"; "gruppe"] fleet_first = Ok (rnr :: columns) ∧
    fleet_first !! KEY_RNR = Some rnr ∧
    Forall2 (λ (k : string) x, fleet_first !! k = Some x) ["info"; "gruppe"] columns.
Proof.
  assert (H1 : is_Some (fleet_first !! KEY_RNR)) by (vm_compute; eauto).
  assert (H2 : Forall (λ k : string, is_Some (fleet_first !! k)) ["info"; "gruppe"])
    by (repeat constructor; vm_compute; eauto).
  split; [exact H1|]. split; [exact H2|].
  exact (proj1 (C9_row_emission_on_present_keys _ _ H1 H2)).
Defined.

(** The claim as stated fails: [info] is a field of the first sorted record
    and so survives sanitization, the second record lacks it, and its row
    ends the run with [KeyError] instead of an empty cell. *)
Lemma C9_missing_key_counterexample :
  sorted_by_gruppe [fleet_first; fleet_second] = Ok [fleet_first; fleet_second] ∧
  sanitize_keys (Some ["info"]) [fleet_first; fleet_second] = Ok ["info"] ∧
  fleet_second !! "info" = None ∧
  emit_row ["info"] fleet_second = Raise KeyError ∧
  processVehicleData strptime_Ymd (λ _, april_first)
    [fleet_first; fleet_second] (Some ["info"]) false = Raise KeyError.
Proof. repeat split; vm_compute; reflexivity. Qed.

(** A stored [None] gives an empty cell without an error. *)
Example emit_row_None_value :
  emit_row ["info"] (<["info" := VNone]> fleet_second) = Ok [VStr "2"; VNone].
Proof. vm_compute. reflexivity. Qed.

(** ** Failed label lookups *)

Lemma add_vehicle_unlabelled (strptime : string → option datetime)
    (now : nat → datetime) (keys : list string) (colored : bool)
    (idx : option nat) (v : dict) (n : nat) (ws : Worksheet) :
  has_labelColor v = false →
  add_vehicle strptime now keys colored idx v n ws =
  add_vehicle strptime now keys colored None v n ws.
Proof.
  intros Hlabel. unfold add_vehicle. destruct idx as [column|]; [|done].
  by rewrite Hlabel, andb_false_r.
Qed.

Lemma add_vehicle_None_cells (strptime : string → option datetime)
    (now : nat → datetime) (keys : list string) (colored : bool)
    (v : dict) (n : nat) (ws ws' : Worksheet) :
  add_vehicle strptime now keys colored None v n ws = Ok ws' →
  cells ws' = cells ws.
Proof.
  rewrite add_vehicle_outcome. intros (o & Ho & [= <-])%result_bind_Ok.
  unfold apply_outcome.
  by destruct (ro_rowColor o) as [[|a s]|], (ro_labelColor o).
Qed.

(** C10 (amended). Let the first label identifier of a record not be
    cached. If its remote lookup raises, answers with a status other than
    200 or returns a label object without colour code, the label loop sets
    [_labelColor] of the record to the empty string; if the label object
    carries a colour code that is no colour (null, the empty string), the
    loop sets [_labelColor] to that value as it is. In each case the value
    is cached and falsy, and for such a record report assembly skips the
    label styling: its outcome is that of a report without label column, so
    no font colour or fill is put on any cell and the label styling raises
    nothing; without colouring the row is simply appended. In any report a
    label cell has a font colour only if [_labelColor] is present and
    truthy. *)
Theorem C10_failed_lookup_leaves_cell_unstyled
    (labels_endpoint : world → string → response)
    (v : dict) (s : string) (lc : gmap string value) (w : world) (c : value) :
  v !! KEY_LABELIDS = Some (VStr s) →
  s ≠ "" →
  lc !! first_label s = None →
  (no_color (labels_endpoint w (first_label s)) = true ∧ c = VStr "") ∨
  (∃ labelData rest,
     labels_endpoint w (first_label s) = Response 200 (labelData :: rest) ∧
     labelData !! KEY_COLORCODE = Some c ∧ truthy c = false) →
  let v' := <[KEY_LABELCOLOR := c]> v in
  label_vehicle labels_endpoint v lc w =
    (Ok (v', <[first_label s := c]> lc), w ++ [first_label s]) ∧
  v' !! KEY_LABELCOLOR = Some c ∧
  truthy c = false ∧
  (∀ strptime now keys colored idx n ws,
     add_vehicle strptime now keys colored idx v' n ws =
       add_vehicle strptime now keys colored None v' n ws ∧
     (∀ ws', add_vehicle strptime now keys colored idx v' n ws = Ok ws' →
             cells ws' = cells ws) ∧
     add_vehicle strptime now keys false idx v' n ws =
       (row ← emit_row keys v'; Ok (ws_append row ws))) ∧
  (∀ strptime now vehicles keys colored ws (i : nat) u (col : nat),
     createExcelFile strptime now vehicles keys colored = Ok ws →
     vehicles !! i = Some u →
     is_Some (cell_font (cell ws (2 + i) col)) →
     ∃ x, u !! KEY_LABELCOLOR = Some x ∧ truthy x = true).
Proof.
  intros Hl Hs Hc Hlookup v'.
  assert (Hget : getBaubuddyLabelColor labels_endpoint (first_label s) w =
                   (Ok c, w ++ [first_label s]) ∧ truthy c = false).
  { destruct Hlookup as [[Hno ->]|(labelData & rest & Hr & Hcode & Hfalsy)].
    - split; [by apply getBaubuddyLabelColor_no_color | done].
    - split; [by apply (getBaubuddyLabelColor_colorCode _ _ _ labelData rest) | done]. }
  destruct Hget as [Hget Hfalsy].
  assert (Hlabel : has_labelColor v' = false).
  { unfold has_labelColor, v'. by rewrite lookup_insert_eq. }
  split; [by apply label_vehicle_fresh|].
  split; [apply lookup_insert_eq|]. split; [done|]. split.
  - intros strptime now keys colored idx n ws.
    rewrite (add_vehicle_unlabelled _ _ _ _ idx _ _ _ Hlabel).
    split; [done|]. split; [apply add_vehicle_None_cells|].
    rewrite (add_vehicle_unlabelled _ _ _ _ idx _ _ _ Hlabel).
    unfold add_vehicle. by destruct (emit_row keys v').
  - intros strptime now vehicles keys colored ws i u col Hrun Hu Hfont.
    destruct (createExcelFile_row _ _ _ _ _ _ _ _ Hrun Hu) as (o & Ho & _ & Hcell).
    destruct (vehicle_outcome_inv _ _ _ _ _ _ _ Ho) as (_ & _ & Hread).
    rewrite Hcell in Hfont.
    destruct (labelIdsIndex keys) as [column|].
    2:{ destruct (ro_labelColor o); by destruct Hfont. }
    destruct (negb (column =? 0)%nat && has_labelColor u) eqn:Hcond.
    + apply andb_true_iff in Hcond as [_ Hcond]. unfold has_labelColor in Hcond.
      destruct (u !! KEY_LABELCOLOR) as [x|]; [|done]. by exists x.
    + rewrite Hread in Hfont. by destruct Hfont.
Qed.

(** A label object with a null colour code: the record gets [None], and
    its row is the one of a report without label column. *)
Lemma C10_failed_lookup_leaves_cell_unstyled_witness :
  let v := <["labelIds" := VStr "8"]> fleet_first in
  let v' := <[KEY_LABELCOLOR := VNone]> v in
  v !! KEY_LABELIDS = Some (VStr "8") ∧
  null_color_endpoint [] (first_label "8") =
    Response 200 [ {[ "colorCode" := VNone ]} ] ∧
  label_vehicle null_color_endpoint v ∅ [] = (Ok (v', {[ "8" := VNone ]}), ["8"]) ∧
  v' !! KEY_LABELCOLOR = Some VNone.
Proof.
  intros v v'.
  assert (H1 : v !! KEY_LABELIDS = Some (VStr "8")) by reflexivity.
  assert (H2 : null_color_endpoint [] (first_label "8") =
                 Response 200 [ {[ "colorCode" := VNone ]} ]) by reflexivity.
  split; [exact H1|]. split; [exact H2|].
  destruct (C10_failed_lookup_leaves_cell_unstyled null_color_endpoint v "8" ∅ []
              VNone H1 ltac:(discriminate) ltac:(reflexivity)
              (or_intror (ex_intro _ _ (ex_intro _ []
                 (conj H2 (conj eq_refl eq_refl))))))
    as (Hrun & Hset & _).
  split; [exact Hrun | exact Hset].
Defined.

(** The claim as the specification words it fails on two lookups that
    return no colour. A label object with a null colour code leaves [None]
    in the record, not the empty string. An answer with status 200 and an
    empty list makes [response.json()[0]] raise: the label loop and with it
    the handler stop with an [IndexError]. *)
Lemma C10_no_color_counterexample :
  let v := <["labelIds" := VStr "8"]> fleet_first in
  label_vehicle null_color_endpoint v ∅ [] =
    (Ok (<[KEY_LABELCOLOR := VNone]> v, {[ "8" := VNone ]}), ["8"]) ∧
  (<[KEY_LABELCOLOR := VNone]> v) !! KEY_LABELCOLOR = Some VNone ∧
  VNone ≠ VStr "" ∧
  label_vehicle empty_list_endpoint v ∅ [] = (Raise IndexError, ["8"]) ∧
  vehicles empty_list_endpoint [raw_A; raw_B] [active_A; active_B] [] =
    (Raise IndexError, ["7"]).
Proof. intros v. repeat split; try discriminate; vm_compute; reflexivity. Qed.

(** * Further properties of the handler and of the client *)

(** ** The lookup structure and the update loop *)

Lemma build_activeVehiclesDict_last (l : list dict) (acc d : gmap hkey dict)
    (h : hkey) :
  build_activeVehiclesDict l acc = Ok d →
  d !! h = match last (filter (has_identifier h) l) with
           | Some av => Some av
           | None => acc !! h
           end.
Proof.
  revert acc. induction l as [|a l IH]; intros acc; simpl.
  - by intros [= <-].
  - intros (k & Hk & Hrest)%result_bind_Ok.
    unfold getitem in Hk. destruct (a !! KEY_KURZNAME) as [k'|] eqn:Ha; [|done].
    injection Hk as ->. rewrite (IH _ Hrest), filter_cons.
    destruct (decide (has_identifier h a)) as [Hh|Hh].
    + rewrite last_cons. destruct (last (filter (has_identifier h) l)); [done|].
      unfold has_identifier in Hh. rewrite Ha in Hh. injection Hh as <-.
      apply lookup_insert_eq.
    + destruct (last (filter (has_identifier h) l)); [done|].
      apply lookup_insert_ne. intros <-. apply Hh.
      unfold has_identifier. by rewrite Ha.
Qed.

(** X1. The lookup structure holds, under every identifier, the last
    authoritative record of the list that has this identifier: a later
    duplicate replaces an earlier one, and an identifier no record has is
    absent. *)
Theorem X1_activeVehiclesDict_last_wins
    (activeVehiclesList : list dict) (d : gmap hkey dict) (h : hkey) :
  build_activeVehiclesDict activeVehiclesList ∅ = Ok d →
  d !! h = last (filter (has_identifier h) activeVehiclesList).
Proof.
  intros Hd. rewrite (build_activeVehiclesDict_last _ _ _ h Hd).
  by destruct (last (filter (has_identifier h) activeVehiclesList)).
Qed.

Lemma X1_activeVehiclesDict_last_wins_witness :
  let later : dict := <["hu" := VStr "2024-05-05"]> active_A in
  ∃ d, build_activeVehiclesDict [active_A; active_B; later] ∅ = Ok d ∧
       d !! KStr "A" = Some later.
Proof.
  intros later.
  destruct (build_activeVehiclesDict [active_A; active_B; later] ∅) as [d|e] eqn:Hd;
    [|by vm_compute in Hd].
  exists d. split; [done|].
  rewrite (X1_activeVehiclesDict_last_wins _ _ (KStr "A") Hd).
  vm_compute. reflexivity.
Defined.

Lemma mapM_result_Raise {A B : Type} (f : A → result B) (l : list A) (e : exn) :
  mapM f l = Raise e → ∃ x, x ∈ l ∧ f x = Raise e.
Proof.
  induction l as [|x l IH]; simpl; [done|].
  destruct (f x) as [y|e'] eqn:Hx; simpl.
  - destruct (mapM f l) as [k|e'']; simpl; [done|].
    intros [= ->]. destruct (IH eq_refl) as (x' & ? & ?).
    exists x'. split; [by right | done].
  - intros [= ->]. exists x. split; [by left | done].
Qed.

Lemma mapM_result_Raise_elem {A B : Type} (f : A → result B) (l : list A)
    (x : A) (e : exn) :
  x ∈ l → f x = Raise e → ∃ e', mapM f l = Raise e'.
Proof.
  intros Hx He. destruct (mapM f l) as [k|e'] eqn:Hrun; [|by eauto].
  apply mapM_result_Ok in Hrun.
  apply list_elem_of_lookup in Hx as [i Hi].
  destruct (Forall2_lookup_l _ _ _ _ _ Hrun Hi) as (y & _ & Hy). congruence.
Qed.

Lemma update_vehicle_Raise (d : gmap hkey dict) (v : dict) (e : exn) :
  update_vehicle d v = Raise e ↔ e = KeyError ∧ v !! KEY_KURZNAME = None.
Proof.
  unfold update_vehicle, getitem.
  destruct (v !! KEY_KURZNAME) as [k|]; simpl.
  - destruct (d !! hash_key k); (split; [done | by intros [_ ?]]).
  - split; [by intros [= <-] | by intros [-> _]].
Qed.

(** X2. The update loop fails exactly when some raw record has no
    identifier field, and then with [KeyError]; building the lookup
    structure fails exactly when some authoritative record has none, also
    with [KeyError]. No other exception leaves either loop. *)
Theorem X2_reconciliation_raises_only_KeyError
    (d : gmap hkey dict) (vehicles activeVehiclesList : list dict) :
  (update_vehicles d vehicles = Raise KeyError ↔
     ∃ v, v ∈ vehicles ∧ v !! KEY_KURZNAME = None) ∧
  (∀ e, update_vehicles d vehicles = Raise e → e = KeyError) ∧
  (build_activeVehiclesDict activeVehiclesList ∅ = Raise KeyError ↔
     ∃ av, av ∈ activeVehiclesList ∧ av !! KEY_KURZNAME = None) ∧
  (∀ e, build_activeVehiclesDict activeVehiclesList ∅ = Raise e → e = KeyError).
Proof.
  assert (Hupd : ∀ e, update_vehicles d vehicles = Raise e → e = KeyError).
  { intros e (v & _ & Hv)%mapM_result_Raise.
    by apply update_vehicle_Raise in Hv as [-> _]. }
  assert (Hbuild : ∀ l acc,
    (∀ e, build_activeVehiclesDict l acc = Raise e → e = KeyError) ∧
    ((∃ e, build_activeVehiclesDict l acc = Raise e) ↔
       ∃ av, av ∈ l ∧ av !! KEY_KURZNAME = None)).
  { induction l as [|a l IH]; intros acc; simpl.
    - split; [done|]. split; [by intros [? ?] | by intros (? & ?%elem_of_nil & _)].
    - unfold getitem. destruct (a !! KEY_KURZNAME) as [k|] eqn:Ha; simpl.
      + destruct (IH (<[hash_key k := a]> acc)) as [IH1 IH2].
        split; [done|]. rewrite IH2. split.
        * intros (av & ? & ?). exists av. split; [by right | done].
        * intros (av & [->|?]%elem_of_cons & Hav); [congruence | by eauto].
      + split; [by intros e [= <-]|]. split; [|by eauto].
        intros _. exists a. split; [by left | done]. }
  split; [|split; [done|split]].
  - split.
    + intros (v & Hin & Hv)%mapM_result_Raise.
      apply update_vehicle_Raise in Hv as [_ Hv]. eauto.
    + intros (v & Hin & Hv).
      destruct (mapM_result_Raise_elem (update_vehicle d) vehicles v KeyError Hin)
        as [e He]; [by apply update_vehicle_Raise|].
      unfold update_vehicles. rewrite He. f_equal. by apply Hupd.
  - destruct (Hbuild activeVehiclesList ∅) as [H1 H2]. rewrite <- H2. split.
    + eauto.
    + intros [e He]. by rewrite He, (H1 e He).
  - apply (Hbuild activeVehiclesList ∅).
Qed.

(** X3. A raw record without a matching authoritative record leaves the
    update loop unchanged, at its place; it then passes the [hu] filter
    exactly when its own [hu] value is non-empty. *)
Theorem X3_unmatched_vehicle_passes_through
    (d : gmap hkey dict) (vehicles vehicles' : list dict) (i : nat) (v : dict)
    (k : value) :
  update_vehicles d vehicles = Ok vehicles' →
  vehicles !! i = Some v →
  v !! KEY_KURZNAME = Some k →
  d !! hash_key k = None →
  vehicles' !! i = Some v ∧
  (v ∈ filter_hu vehicles' ↔ has_hu v = true).
Proof.
  intros Hrun Hi Hk Hd. apply mapM_result_Ok in Hrun.
  destruct (Forall2_lookup_l _ _ _ _ _ Hrun Hi) as (v' & Hi' & Hv').
  simpl in Hv'. rewrite (update_vehicle_Ok d v k Hk), Hd in Hv'.
  injection Hv' as <-. split; [done|].
  unfold filter_hu. rewrite list_elem_of_In, filter_In, <- list_elem_of_In.
  split; [by intros [_ ?]|]. intros Hhu. split; [|done].
  by eapply list_elem_of_lookup_2.
Qed.

Lemma X3_unmatched_vehicle_passes_through_witness :
  let stray : dict := {[ "kurzname" := VStr "C"; "hu" := VStr "2020-01-01" ]} in
  let d : gmap hkey dict := <[KStr "A" := active_A]> ∅ in
  update_vehicles d [raw_A; stray] =
    Ok [fill_missing active_A raw_A; stray] ∧
  stray ∈ filter_hu [fill_missing active_A raw_A; stray].
Proof.
  intros stray d.
  assert (Hrun : update_vehicles d [raw_A; stray] =
                   Ok [fill_missing active_A raw_A; stray]) by reflexivity.
  split; [exact Hrun|].
  apply (X3_unmatched_vehicle_passes_through d _ _ 1%nat stray (VStr "C") Hrun);
    reflexivity.
Defined.

(** ** The label loop *)

Lemma labelled_other_fields (lc : gmap string value) (v v' : dict) (k : string) :
  labelled lc v v' → k ≠ KEY_LABELCOLOR → v' !! k = v !! k.
Proof.
  intros (l & _ & Hv) Hk. destruct (truthy l); [|by subst].
  destruct Hv as (s & c & _ & _ & ->). by apply lookup_insert_ne.
Qed.

(** X5. The label loop returns as many records as it was given, in the
    same order, and changes no field of any record other than
    [_labelColor]. *)
Theorem X5_label_loop_touches_only_labelColor
    (labels_endpoint : world → string → response)
    (vehicles vehicles' : list dict) (lc lc' : gmap string value) (w w' : world) :
  label_vehicles labels_endpoint vehicles lc w = (Ok (vehicles', lc'), w') →
  length vehicles' = length vehicles ∧
  Forall2 (λ v v' : dict, ∀ k, k ≠ KEY_LABELCOLOR → v' !! k = v !! k)
    vehicles vehicles'.
Proof.
  intros Hrun.
  destruct (label_vehicles_spec _ _ _ _ _ _ Hrun) as (new & _ & _ & _ & Hok).
  destruct (Hok _ _ eq_refl) as (_ & _ & Hlab).
  split; [symmetry; by eapply Forall2_length|].
  eapply Forall2_impl; [exact Hlab|].
  intros v v' Hv k Hk. by eapply labelled_other_fields.
Qed.

Lemma X5_label_loop_touches_only_labelColor_witness :
  label_vehicles sample_endpoint [labelled_A; spaced_A] ∅ [] =
    (Ok ([<[KEY_LABELCOLOR := VStr "#ff0000"]> labelled_A;
          <[KEY_LABELCOLOR := VStr ""]> spaced_A],
         {[ "7" := VStr "#ff0000"; "7 " := VStr "" ]}), ["7"; "7 "]) ∧
  length [<[KEY_LABELCOLOR := VStr "#ff0000"]> labelled_A;
          <[KEY_LABELCOLOR := VStr ""]> spaced_A] = length [labelled_A; spaced_A].
Proof.
  assert (Hrun : label_vehicles sample_endpoint [labelled_A; spaced_A] ∅ [] =
    (Ok ([<[KEY_LABELCOLOR := VStr "#ff0000"]> labelled_A;
          <[KEY_LABELCOLOR := VStr ""]> spaced_A],
         {[ "7" := VStr "#ff0000"; "7 " := VStr "" ]}), ["7"; "7 "]))
    by (vm_compute; reflexivity).
  split; [exact Hrun|].
  exact (proj1 (X5_label_loop_touches_only_labelColor _ _ _ _ _ _ _ Hrun)).
Defined.

(** X6. Within one run of the label loop two records whose label fields
    have the same first identifier get the same [_labelColor], whatever the
    endpoint would answer to a second request. *)
Theorem X6_same_label_same_color
    (labels_endpoint : world → string → response)
    (vehicles vehicles' : list dict) (lc lc' : gmap string value) (w w' : world)
    (i j : nat) (v1 v2 : dict) (s1 s2 : string) :
  label_vehicles labels_endpoint vehicles lc w = (Ok (vehicles', lc'), w') →
  vehicles !! i = Some v1 → vehicles !! j = Some v2 →
  v1 !! KEY_LABELIDS = Some (VStr s1) → v2 !! KEY_LABELIDS = Some (VStr s2) →
  s1 ≠ "" → s2 ≠ "" →
  first_label s1 = first_label s2 →
  ∃ c, vehicles' !! i = Some (<[KEY_LABELCOLOR := c]> v1) ∧
       vehicles' !! j = Some (<[KEY_LABELCOLOR := c]> v2).
Proof.
  intros Hrun Hi Hj Hl1 Hl2 Hs1 Hs2 Hsame.
  destruct (label_vehicles_spec _ _ _ _ _ _ Hrun) as (new & _ & _ & _ & Hok).
  destruct (Hok _ _ eq_refl) as (_ & _ & Hlab).
  destruct (Forall2_lookup_l _ _ _ _ _ Hlab Hi) as (v1' & Hi' & (l1 & Hl1' & Hv1)).
  destruct (Forall2_lookup_l _ _ _ _ _ Hlab Hj) as (v2' & Hj' & (l2 & Hl2' & Hv2)).
  rewrite Hl1 in Hl1'. injection Hl1' as <-.
  rewrite Hl2 in Hl2'. injection Hl2' as <-.
  destruct s1 as [|a1 s1]; [done|]. destruct s2 as [|a2 s2]; [done|].
  simpl in Hv1, Hv2.
  destruct Hv1 as (t1 & c1 & [= <-] & Hc1 & ->).
  destruct Hv2 as (t2 & c2 & [= <-] & Hc2 & ->).
  rewrite Hsame, Hc2 in Hc1. injection Hc1 as <-.
  by exists c2.
Qed.

(** An endpoint whose answer to a second request for label 7 differs from
    the first. *)
Lemma X6_same_label_same_color_witness :
  let fickle : world → string → response := λ w _,
    match w with
    | [] => Response 200 [ {[ "colorCode" := VStr "#111111" ]} ]
    | _ => Response 200 [ {[ "colorCode" := VStr "#222222" ]} ]
    end in
  ∃ c vehicles' lc' w',
    label_vehicles fickle [labelled_A; tinted] ∅ [] = (Ok (vehicles', lc'), w') ∧
    vehicles' !! 0%nat = Some (<[KEY_LABELCOLOR := c]> labelled_A) ∧
    vehicles' !! 1%nat = Some (<[KEY_LABELCOLOR := c]> tinted).
Proof.
  intros fickle.
  destruct (label_vehicles fickle [labelled_A; tinted] ∅ [])
    as [[[vehicles' lc']|e] w'] eqn:Hrun; [|by vm_compute in Hrun].
  destruct (X6_same_label_same_color fickle _ _ _ _ _ _ 0%nat 1%nat
              labelled_A tinted "7,8" "7" Hrun)
    as (c & H0 & H1); try reflexivity; try discriminate.
  exists c, vehicles', lc', w'. done.
Defined.

Lemma getBaubuddyLabelColor_total
    (labels_endpoint : world → string → response) (label : string) (w : world) :
  labels_endpoint w label ≠ Response 200 [] →
  ∃ c, getBaubuddyLabelColor labels_endpoint label w = (Ok c, w ++ [label]).
Proof.
  intros Hne. unfold getBaubuddyLabelColor.
  destruct (labels_endpoint w label) as [|status_code json]; [by eauto|].
  destruct (status_code =? 200) eqn:Hst; simpl; [|by eauto].
  destruct json as [|labelData json].
  - apply Z.eqb_eq in Hst. by subst.
  - destruct (labelData !! KEY_COLORCODE); eauto.
Qed.

(** X7. The label loop succeeds whenever every record has a label field
    that is empty or a string, and the endpoint never answers with status
    200 and an empty list: failed requests and other status codes do not
    stop the loop. *)
Theorem X7_label_loop_succeeds
    (labels_endpoint : world → string → response)
    (vehicles : list dict) (lc : gmap string value) (w : world) :
  Forall (λ v : dict, ∃ l, v !! KEY_LABELIDS = Some l ∧
            (truthy l = false ∨ ∃ s, l = VStr s)) vehicles →
  (∀ w id, labels_endpoint w id ≠ Response 200 []) →
  ∃ vehicles' lc' w',
    label_vehicles labels_endpoint vehicles lc w = (Ok (vehicles', lc'), w').
Proof.
  intros Hall Hep. revert lc w.
  induction Hall as [|v rest (l & Hl & Hstr) _ IH]; intros lc w.
  - by exists [], lc, w.
  - rewrite label_vehicles_cons, label_vehicle_unfold, Hl.
    assert (Hstep : ∃ v' lc1 w1,
      (if truthy l then
         match l with
         | VStr s =>
             match resolve labels_endpoint (first_label s) lc w with
             | (Ok (c, lc'), w') => (Ok (<[KEY_LABELCOLOR := c]> v, lc'), w')
             | (Raise e, w') => (Raise e, w')
             end
         | _ => (Raise AttributeError, w)
         end
       else (Ok (v, lc), w)) = (Ok (v', lc1), w1)).
    { destruct (truthy l) eqn:Ht; [|by eauto].
      destruct Hstr as [?|[s ->]]; [congruence|].
      destruct (resolve_spec labels_endpoint (first_label s) lc w)
        as [(c & _ & ->)|(Hc & _)]; [by eauto|].
      rewrite (resolve_fresh _ _ _ _ Hc).
      destruct (getBaubuddyLabelColor_total labels_endpoint (first_label s) w
                  (Hep _ _)) as [c ->].
      simpl. eauto. }
    destruct Hstep as (v' & lc1 & w1 & ->).
    destruct (IH lc1 w1) as (rest' & lc2 & w2 & ->). eauto.
Qed.

Lemma X7_label_loop_succeeds_witness :
  ∃ vehicles' lc' w',
    label_vehicles sample_endpoint [raw_A; spaced_A] ∅ [] =
      (Ok (vehicles', lc'), w').
Proof.
  apply (X7_label_loop_succeeds sample_endpoint [raw_A; spaced_A] ∅ []).
  - repeat constructor.
    + exists (VStr ""). split; [reflexivity | by left].
    + exists (VStr "7 ,8"). split; [reflexivity | right; by eexists].
  - intros w id. unfold sample_endpoint. by destruct (id =? "7")%string.
Defined.

(** X8. The identifier the label loop resolves starts the label field
    once the leading whitespace of the field is removed, contains no comma
    and does not start with a whitespace character, be it an ASCII one or
    one of the other characters that [str.strip] removes. *)
Theorem X8_first_label_shape (s : string) :
  (∃ x, lstrip s = first_label s +:+ x) ∧
  has_char "," (first_label s) = false ∧
  skip_space (first_label s) = None ∧
  lstrip (first_label s) = first_label s.
Proof.
  unfold first_label, strip.
  destruct (split_head_prefix "," (rstrip (lstrip s)))
    as (first & rest & x & -> & Hx & Hno).
  destruct (rstrip_prefix (lstrip s)) as [y Hy].
  split.
  { exists (x +:+ y). rewrite Hy at 1. rewrite Hx at 1.
    clear. induction first as [|a first IH]; [done|].
    change (String a ((first +:+ x) +:+ y) = String a (first +:+ (x +:+ y))).
    by rewrite IH. }
  split; [done|].
  assert (Hfirst : skip_space first = None).
  { apply (skip_space_prefix_None _ x). rewrite <- Hx.
    apply (skip_space_prefix_None _ y). rewrite <- Hy.
    apply lstrip_fixed. }
  split; [done|]. by rewrite lstrip_unfold, Hfirst.
Qed.

(** The no-break space U+00A0 is stripped like a blank at both ends of the
    field and stays where it stands before a comma: the fields [7<U+00A0>]
    and [7<U+00A0>,8] have different first identifiers. *)
Example first_label_no_break_space :
  first_label (utf8 [194; 160]%N +:+ "7" +:+ utf8 [194; 160]%N) = "7" ∧
  first_label ("7" +:+ utf8 [194; 160]%N) = "7" ∧
  first_label ("7" +:+ utf8 [194; 160]%N +:+ ",8") = "7" +:+ utf8 [194; 160]%N ∧
  strip (utf8 [226; 128; 131; 32; 227; 128; 128]%N) = "".
Proof. repeat split; vm_compute; reflexivity. Qed.

(** ** The handler *)

Lemma labelled_has_hu (lc : gmap string value) (v v' : dict) :
  labelled lc v v' → has_hu v' = has_hu v.
Proof.
  intros Hv. unfold has_hu. by rewrite (labelled_other_fields _ _ _ KEY_HU Hv).
Qed.

Lemma filter_hu_length (vehicles : list dict) :
  (length (filter_hu vehicles) ≤ length vehicles)%nat.
Proof.
  unfold filter_hu. induction vehicles as [|v rest IH]; simpl; [done|].
  destruct (has_hu v); simpl; lia.
Qed.

Lemma vehicles_answer
    (labels_endpoint : world → string → response)
    (raw active : list dict) (w w' : world) (answer : JSONResponse) :
  vehicles labels_endpoint raw active w = (Ok answer, w') →
  (raw = [] ∧ answer = {| response_status := 400; response_vehicles := [] |} ∧
   w' = w) ∨
  (raw ≠ [] ∧ active = [] ∧
   answer = {| response_status := 503; response_vehicles := [] |} ∧ w' = w) ∨
  (raw ≠ [] ∧ active ≠ [] ∧ response_status answer = 200 ∧
   Forall (λ v : dict, has_hu v = true ∧ is_Some (v !! KEY_LABELIDS))
     (response_vehicles answer) ∧
   (length (response_vehicles answer) ≤ length raw)%nat).
Proof.
  unfold vehicles. destruct raw as [|r raw].
  { intros [= <- <-]. by left. }
  destruct active as [|a active].
  { intros [= <- <-]. right; left. done. }
  unfold lift, mbind, run_bind, mret, run_ret.
  destruct (build_activeVehiclesDict (a :: active) ∅) as [d|e]; [|done].
  destruct (update_vehicles d (r :: raw)) as [vs|e] eqn:Hupd; [|done].
  destruct (label_vehicles labels_endpoint (filter_hu vs) ∅ w)
    as [[[vs' lc']|e] w1] eqn:Hrun; [|done].
  intros [= <- <-]. right; right. simpl.
  split; [done|]. split; [done|]. split; [done|].
  destruct (label_vehicles_spec _ _ _ _ _ _ Hrun) as (new & _ & _ & _ & Hok).
  destruct (Hok _ _ eq_refl) as (_ & _ & Hlab). split.
  - apply Forall_forall. intros v' [j Hj]%list_elem_of_lookup.
    destruct (Forall2_lookup_r _ _ _ _ _ Hlab Hj) as (v & Hv & Hvv').
    split.
    + rewrite (labelled_has_hu _ _ _ Hvv').
      apply list_elem_of_lookup_2 in Hv. unfold filter_hu in Hv.
      by apply list_elem_of_In, filter_In in Hv as [_ ?].
    + rewrite (labelled_other_fields _ _ _ KEY_LABELIDS Hvv') by done.
      destruct Hvv' as (l & Hl & _). by exists l.
  - rewrite <- (Forall2_length _ _ _ Hlab).
    apply mapM_result_Ok, Forall2_length in Hupd.
    pose proof (filter_hu_length vs). simpl in *. lia.
Qed.

(** X4. Whatever the handler answers has status 200, 400 or 503. An answer
    other than 200 carries no vehicles and is given without any request to
    the labels endpoint. In a 200 answer every vehicle has a non-empty [hu]
    and a label field, and there are at most as many vehicles as CSV
    rows. *)
Theorem X4_handler_answers
    (labels_endpoint : world → string → response)
    (raw active : list dict) (w w' : world) (answer : JSONResponse) :
  vehicles labels_endpoint raw active w = (Ok answer, w') →
  (response_status answer = 200 ∨ response_status answer = 400 ∨
   response_status answer = 503) ∧
  (response_status answer ≠ 200 → response_vehicles answer = [] ∧ w' = w) ∧
  (response_status answer = 200 →
     Forall (λ v : dict, has_hu v = true ∧ is_Some (v !! KEY_LABELIDS))
       (response_vehicles answer) ∧
     (length (response_vehicles answer) ≤ length raw)%nat).
Proof.
  intros [(_ & -> & ->)|[(_ & _ & -> & ->)|(_ & _ & Hst & Hall & Hlen)]]%vehicles_answer;
    simpl.
  - split; [by auto|]. done.
  - split; [by auto|]. done.
  - rewrite Hst. split; [by auto|]. done.
Qed.

Lemma X4_handler_answers_witness :
  vehicles sample_endpoint [raw_A; raw_B] [active_A; active_B] [] =
    (Ok {| response_status := 200;
           response_vehicles := [<[KEY_LABELCOLOR := VStr "#ff0000"]> labelled_A] |},
     ["7"]) ∧
  Forall (λ v : dict, has_hu v = true ∧ is_Some (v !! KEY_LABELIDS))
    [<[KEY_LABELCOLOR := VStr "#ff0000"]> labelled_A].
Proof.
  assert (Hrun : vehicles sample_endpoint [raw_A; raw_B] [active_A; active_B] [] =
    (Ok {| response_status := 200;
           response_vehicles := [<[KEY_LABELCOLOR := VStr "#ff0000"]> labelled_A] |},
     ["7"])) by (vm_compute; reflexivity).
  split; [exact Hrun|].
  destruct (X4_handler_answers _ _ _ _ _ _ Hrun) as (_ & _ & Hok).
  exact (proj1 (Hok eq_refl)).
Defined.

(** X9. The handler from the upload on answers 400 exactly when there is no
    file, the file cannot be read as CSV or it has no rows; it answers 503
    exactly when there are rows and the login gave an empty token or the
    fetch of the active vehicles gave none. A failed login request (an
    exception or a status other than 200) gives the empty token. Every
    answer other than 200 carries no vehicles and is given without any
    request to the labels endpoint. *)
Theorem X9_request_status
    (login_api : login_response) (vehicles_api : value → response)
    (labels_api : value → world → string → response)
    (file : upload) (w w' : world) (answer : JSONResponse) :
  vehicles_request login_api vehicles_api labels_api file w = (Ok answer, w') →
  (response_status answer = 400 ↔
     file = NoFile ∨ file = CsvError ∨ file = CsvRows []) ∧
  (response_status answer = 503 ↔
     ∃ r rows token,
       file = CsvRows (r :: rows) ∧
       loginBaubuddy login_api = Ok token ∧
       (truthy token = false ∨
        getBaubuddyActiveVehicles (vehicles_api token) = [])) ∧
  ((login_api = LoginException ∨
    ∃ status_code json,
      login_api = LoginResponse status_code json ∧ status_code ≠ 200) →
   loginBaubuddy login_api = Ok (VStr "")) ∧
  (response_status answer ≠ 200 → response_vehicles answer = [] ∧ w' = w).
Proof.
  intros Hrun.
  assert (Hlogin : (login_api = LoginException ∨
    ∃ status_code json,
      login_api = LoginResponse status_code json ∧ status_code ≠ 200) →
    loginBaubuddy login_api = Ok (VStr "")).
  { intros [->|(status_code & json & -> & Hst)]; [done|]. simpl.
    by rewrite (proj2 (Z.eqb_neq _ _) Hst). }
  unfold vehicles_request in Hrun.
  destruct file as [| |[|r rows]];
    try (injection Hrun as <- <-; simpl;
         split; [split; [by auto | done]|];
         split; [split; [done | by intros (? & ? & ? & ? & _)]|];
         split; [exact Hlogin | done]).
  unfold lift, mbind, run_bind, mret, run_ret in Hrun.
  destruct (loginBaubuddy login_api) as [token|e] eqn:Htoken; [|done].
  destruct (truthy token) eqn:Ht.
  - apply vehicles_answer in Hrun
      as [(? & _)|[(_ & Hactive & -> & ->)|(_ & Hactive & Hst & _)]]; [done| |].
    + simpl. split; [split; [done | by intros [?|[?|?]]]|].
      split; [|split; [exact Hlogin | done]].
      split; [|done]. intros _. exists r, rows, token. auto.
    + rewrite Hst. split; [split; [done | by intros [?|[?|?]]]|].
      split; [|split; [exact Hlogin | done]].
      split; [done|]. intros (r' & rows' & token' & _ & [= <-] & [?|?]); congruence.
  - injection Hrun as <- <-. simpl.
    split; [split; [done | by intros [?|[?|?]]]|].
    split; [|split; [exact Hlogin | done]].
    split; [|done]. intros _. exists r, rows, token. auto.
Qed.

Lemma X9_request_status_witness :
  let login := LoginResponse 401 ∅ in
  vehicles_request login (λ _, RequestException) (λ _, sample_endpoint)
    (CsvRows [raw_A]) [] =
    (Ok {| response_status := 503; response_vehicles := [] |}, []) ∧
  loginBaubuddy login = Ok (VStr "").
Proof.
  intros login.
  assert (Hrun : vehicles_request login (λ _, RequestException)
                   (λ _, sample_endpoint) (CsvRows [raw_A]) [] =
    (Ok {| response_status := 503; response_vehicles := [] |}, []))
    by reflexivity.
  split; [exact Hrun|].
  destruct (X9_request_status _ _ _ _ _ _ _ Hrun) as (_ & _ & Hlogin & _).
  apply Hlogin. right. exists 401, ∅. split; [reflexivity | lia].
Defined.

(** ** Sorting by [gruppe] *)

Lemma ltb_leb (s t : string) : String.ltb s t = true → String.leb s t = true.
Proof. unfold String.ltb, String.leb. by destruct (String.compare s t). Qed.

Lemma ltb_false_leb (s t : string) :
  String.ltb s t = false → String.leb t s = true.
Proof.
  unfold String.ltb, String.leb. rewrite (String.compare_antisym s t).
  by destruct (String.compare t s).
Qed.

Lemma ltb_not_leb (s t : string) :
  String.ltb s t = true → String.leb t s = false.
Proof.
  unfold String.ltb, String.leb. rewrite (String.compare_antisym s t).
  by destruct (String.compare t s).
Qed.

Lemma leb_trans (s t u : string) :
  String.leb s t = true → String.leb t u = true → String.leb s u = true.
Proof.
  intros H1 H2. apply Is_true_true.
  change (String.le s u). trans t; by apply Is_true_true.
Qed.

#[local] Instance key_le_trans : Transitive key_le.
Proof.
  intros p q r (s & t & Hs & Ht & Hst) (t' & u & Ht' & Hu & Htu).
  rewrite Ht in Ht'. injection Ht' as <-.
  exists s, u. eauto using leb_trans.
Qed.

#[local] Instance gruppe_le_trans : Transitive gruppe_le.
Proof.
  intros p q r (s & t & Hs & Ht & Hst) (t' & u & Ht' & Hu & Htu).
  rewrite Ht in Ht'. injection Ht' as <-.
  exists s, u. eauto using leb_trans.
Qed.

Lemma insert_sorted_Sorted (x : value * dict) (l : list (value * dict)) :
  str_key x → Forall str_key l → Sorted key_le l →
  ∃ l', insert_sorted x l = Ok l' ∧ Sorted key_le l' ∧
        ∀ y, key_le y x → HdRel key_le y l → HdRel key_le y l'.
Proof.
  intros [s Hs] Hl Hsorted. induction l as [|y l IH].
  - exists [x]. split; [done|]. split; [by repeat constructor|].
    intros y Hy _. by constructor.
  - apply Forall_cons in Hl as [[t Ht] Hl].
    apply Sorted_inv in Hsorted as [Hsorted Hhd].
    simpl. rewrite Hs, Ht. simpl.
    destruct (String.ltb s t) eqn:Hlt.
    + exists (x :: y :: l). split; [done|]. split.
      * constructor; [by constructor|]. constructor.
        exists s, t. eauto using ltb_leb.
      * intros y0 Hy0 _. by constructor.
    + destruct (IH Hl Hsorted) as (l' & -> & Hsorted' & Hhd').
      exists (y :: l'). split; [done|]. split.
      * constructor; [done|]. apply Hhd'; [|done].
        exists t, s. eauto using ltb_false_leb.
      * intros y0 _ Hy0. apply HdRel_inv in Hy0. by constructor.
Qed.

Lemma sort_pairs_Sorted (l acc : list (value * dict)) :
  Forall str_key l → Forall str_key acc → Sorted key_le acc →
  ∃ r, sort_pairs l acc = Ok r ∧ Sorted key_le r.
Proof.
  intros Hl. revert acc. induction Hl as [|x l Hx Hl IH]; intros acc Hacc Hsorted.
  - by exists acc.
  - destruct (insert_sorted_Sorted x acc Hx Hacc Hsorted) as (acc' & Hacc' & Hs' & _).
    simpl. rewrite Hacc'. simpl. apply IH; [|done].
    rewrite (insert_sorted_Permutation _ _ _ Hacc'). by constructor.
Qed.

Lemma Sorted_fmap_Forall {A B : Type} (f : A → B) (R1 : relation A)
    (R2 : relation B) (P : A → Prop) (l : list A) :
  (∀ x y, P x → P y → R1 x y → R2 (f x) (f y)) →
  Forall P l → Sorted R1 l → Sorted R2 (f <$> l).
Proof.
  intros HR HP Hsorted. induction Hsorted as [|x l Hsorted IH Hhd]; [constructor|].
  apply Forall_cons in HP as [Hx HP]. simpl. constructor; [by apply IH|].
  destruct Hhd as [|y l' Hxy]; [constructor|].
  apply Forall_cons in HP as [Hy _]. constructor. by apply HR.
Qed.

(** The pairs that are sorted carry the [gruppe] value of their record. *)
Lemma zip_keys_keyed (vehicles : list dict) (ks : list value) :
  Forall2 (λ (v : dict) k, getitem v KEY_GRUPPE = Ok k) vehicles ks →
  Forall (λ p : value * dict, p.2 !! KEY_GRUPPE = Some p.1) (zip ks vehicles).
Proof.
  induction 1 as [|v k vehicles ks Hk _ IH]; simpl; constructor; [|done].
  simpl. unfold getitem in Hk. by destruct (v !! KEY_GRUPPE); simplify_eq.
Qed.

Lemma sorted_by_gruppe_strings (vehicles : list dict) :
  Forall (λ v : dict, ∃ s, v !! KEY_GRUPPE = Some (VStr s)) vehicles →
  ∃ ks r,
    mapM (λ x : dict, getitem x KEY_GRUPPE) vehicles = Ok ks ∧
    length ks = length vehicles ∧
    Forall (λ p : value * dict, p.2 !! KEY_GRUPPE = Some p.1 ∧ str_key p)
      (zip ks vehicles) ∧
    sort_pairs (zip ks vehicles) [] = Ok r ∧
    Sorted key_le r ∧
    sorted_by_gruppe vehicles = Ok r.*2.
Proof.
  intros Hall.
  destruct (mapM_result_total (λ x : dict, getitem x KEY_GRUPPE) vehicles)
    as [ks Hks].
  { eapply Forall_impl; [exact Hall|]. intros v [s Hs].
    exists (VStr s). unfold getitem. by rewrite Hs. }
  pose proof Hks as Hks2. apply mapM_result_Ok in Hks2.
  assert (Hkeyed : Forall (λ p : value * dict,
            p.2 !! KEY_GRUPPE = Some p.1 ∧ str_key p) (zip ks vehicles)).
  { pose proof (zip_keys_keyed _ _ Hks2) as Hz.
    apply Forall_forall. intros [k v] Hp.
    pose proof (proj1 (Forall_forall _ _) Hz _ Hp) as Hk.
    apply elem_of_zip_r in Hp.
    destruct (proj1 (Forall_forall _ _) Hall _ Hp) as [s Hs].
    simpl in *. split; [done|]. exists s. simpl. congruence. }
  destruct (sort_pairs_Sorted (zip ks vehicles) []) as (r & Hr & Hsorted).
  { eapply Forall_impl; [exact Hkeyed|]. by intros ? [_ ?]. }
  { constructor. }
  { constructor. }
  exists ks, r. split; [done|]. split; [symmetry; by eapply Forall2_length|].
  split; [done|]. split; [done|]. split; [done|].
  unfold sorted_by_gruppe. rewrite Hks. simpl. by rewrite Hr.
Qed.

(** X14. When every vehicle has a string [gruppe], sorting succeeds; the
    result holds the same vehicles and is in ascending order of [gruppe]:
    every vehicle is less than or equal to every vehicle behind it. *)
Theorem X14_sorted_by_gruppe_sorts (vehicles : list dict) :
  Forall (λ v : dict, ∃ s, v !! KEY_GRUPPE = Some (VStr s)) vehicles →
  ∃ sorted,
    sorted_by_gruppe vehicles = Ok sorted ∧
    sorted ≡ₚ vehicles ∧
    StronglySorted gruppe_le sorted.
Proof.
  intros Hall.
  destruct (sorted_by_gruppe_strings vehicles Hall)
    as (ks & r & Hks & Hlen & Hkeyed & Hr & Hsorted & Hrun).
  exists r.*2. split; [done|].
  split; [by apply sorted_by_gruppe_Permutation|].
  apply Sorted_StronglySorted; [apply _|].
  apply (Sorted_fmap_Forall snd key_le gruppe_le
           (λ p, p.2 !! KEY_GRUPPE = Some p.1 ∧ str_key p)); [|
    by rewrite (sort_pairs_Permutation _ _ _ Hr), app_nil_r | done].
  intros p q [Hp _] [Hq _] (s & t & Hs & Ht & Hst).
  exists s, t. rewrite Hp, Hq, Hs, Ht. done.
Qed.

Lemma X14_sorted_by_gruppe_sorts_witness :
  ∃ sorted,
    sorted_by_gruppe [group_Z; group_A1; group_A2] = Ok sorted ∧
    sorted ≡ₚ [group_Z; group_A1; group_A2] ∧
    StronglySorted gruppe_le sorted.
Proof.
  apply X14_sorted_by_gruppe_sorts.
  repeat constructor; eexists; reflexivity.
Defined.

Lemma filter_none {A : Type} (P : A → Prop) `{!∀ x, Decision (P x)} (l : list A) :
  Forall (λ x, ¬ P x) l → filter P l = [].
Proof.
  induction 1 as [|x l Hx _ IH]; [done|]. by rewrite filter_cons_False.
Qed.

Lemma leb_refl (s : string) : String.leb s s = true.
Proof. by destruct (String.leb_total s s). Qed.

Lemma insert_sorted_filter (x : value * dict) (l l' : list (value * dict))
    (g : value) :
  str_key x → Forall str_key l → Sorted key_le l →
  insert_sorted x l = Ok l' →
  filter (λ p, p.1 = g) l' = filter (λ p, p.1 = g) l ++ filter (λ p, p.1 = g) [x].
Proof.
  intros [s Hs] Hl Hsorted. revert l'. induction l as [|y l IH]; intros l'.
  - by intros [= <-].
  - apply Forall_cons in Hl as [[t Ht] Hl].
    pose proof (Sorted_StronglySorted key_le _ Hsorted) as Hstrong.
    apply StronglySorted_inv in Hstrong as [_ Hall].
    apply Sorted_inv in Hsorted as [Hsorted _].
    simpl. rewrite Hs, Ht. simpl.
    destruct (String.ltb s t) eqn:Hlt.
    + intros [= <-]. rewrite (filter_cons _ x (y :: l)), (filter_cons _ x []).
      destruct (decide (x.1 = g)) as [Hg|Hg]; [|by rewrite app_nil_r].
      apply ltb_not_leb in Hlt.
      rewrite (filter_none _ (y :: l)); [done|].
      constructor.
      * rewrite <- Hg, Hs, Ht. intros [= ->]. by rewrite leb_refl in Hlt.
      * eapply Forall_impl; [exact Hall|].
        intros z (t' & u & Ht' & Hu & Htu).
        rewrite Ht in Ht'. injection Ht' as <-.
        rewrite <- Hg, Hs, Hu. intros [= ->]. congruence.
    + intros (l'' & Hl'' & [= <-])%result_bind_Ok.
      rewrite !(filter_cons _ y), (IH Hl Hsorted _ Hl'').
      by destruct (decide (y.1 = g)).
Qed.

Lemma sort_pairs_filter (l acc r : list (value * dict)) (g : value) :
  Forall str_key l → Forall str_key acc → Sorted key_le acc →
  sort_pairs l acc = Ok r →
  filter (λ p, p.1 = g) r = filter (λ p, p.1 = g) acc ++ filter (λ p, p.1 = g) l.
Proof.
  intros Hl. revert acc.
  induction Hl as [|x l Hx Hl IH]; intros acc Hacc Hsorted; simpl.
  - intros [= <-]. by rewrite app_nil_r.
  - intros (acc' & Hacc' & Hr)%result_bind_Ok.
    destruct (insert_sorted_Sorted x acc Hx Hacc Hsorted) as (acc'' & Heq & Hs' & _).
    rewrite Hacc' in Heq. injection Heq as <-.
    rewrite (IH acc'); [|by rewrite (insert_sorted_Permutation _ _ _ Hacc');
                            constructor | done | done].
    rewrite (insert_sorted_filter _ _ _ g Hx Hacc Hsorted Hacc'), <- app_assoc.
    f_equal. rewrite (filter_cons _ x l), (filter_cons _ x []).
    by destruct (decide (x.1 = g)).
Qed.

Lemma filter_snd_keyed (l : list (value * dict)) (g : value) :
  Forall (λ p : value * dict, p.2 !! KEY_GRUPPE = Some p.1) l →
  filter (λ v : dict, v !! KEY_GRUPPE = Some g) l.*2 =
    (filter (λ p : value * dict, p.1 = g) l).*2.
Proof.
  induction 1 as [|p l Hp _ IH]; [done|].
  rewrite fmap_cons, !filter_cons, IH, Hp.
  destruct (decide (p.1 = g)) as [->|Hne].
  - by rewrite decide_True.
  - rewrite decide_False; [done|]. by intros [= ?].
Qed.

(** X15. The sort is stable: for every [gruppe] value, the vehicles with
    this value stand in the sorted list in the order in which they stood
    in the response. *)
Theorem X15_sorted_by_gruppe_stable (vehicles sorted : list dict) (g : value) :
  Forall (λ v : dict, ∃ s, v !! KEY_GRUPPE = Some (VStr s)) vehicles →
  sorted_by_gruppe vehicles = Ok sorted →
  filter (λ v : dict, v !! KEY_GRUPPE = Some g) sorted =
  filter (λ v : dict, v !! KEY_GRUPPE = Some g) vehicles.
Proof.
  intros Hall Hrun.
  destruct (sorted_by_gruppe_strings vehicles Hall)
    as (ks & r & Hks & Hlen & Hkeyed & Hr & Hsorted & Hrun').
  rewrite Hrun in Hrun'. injection Hrun' as ->.
  assert (Hstr : Forall str_key (zip ks vehicles))
    by (eapply Forall_impl; [exact Hkeyed|]; by intros ? [_ ?]).
  assert (Hk : Forall (λ p : value * dict, p.2 !! KEY_GRUPPE = Some p.1)
                 (zip ks vehicles))
    by (eapply Forall_impl; [exact Hkeyed|]; by intros ? [? _]).
  rewrite filter_snd_keyed
    by (by rewrite (sort_pairs_Permutation _ _ _ Hr), app_nil_r).
  rewrite (sort_pairs_filter _ [] _ g Hstr (Forall_nil_2 _) (Sorted_nil _) Hr).
  rewrite app_nil_l, <- filter_snd_keyed by done.
  by rewrite snd_zip by lia.
Qed.

Lemma X15_sorted_by_gruppe_stable_witness :
  sorted_by_gruppe [group_Z; group_A1; group_A2] = Ok [group_A1; group_A2; group_Z] ∧
  filter (λ v : dict, v !! KEY_GRUPPE = Some (VStr "A")) [group_A1; group_A2; group_Z] =
  filter (λ v : dict, v !! KEY_GRUPPE = Some (VStr "A")) [group_Z; group_A1; group_A2].
Proof.
  assert (Hrun : sorted_by_gruppe [group_Z; group_A1; group_A2] =
                   Ok [group_A1; group_A2; group_Z]) by (vm_compute; reflexivity).
  split; [exact Hrun|].
  apply X15_sorted_by_gruppe_stable; [|exact Hrun].
  repeat constructor; eexists; reflexivity.
Defined.

Lemma insert_sorted_Raise (x : value * dict) (l : list (value * dict)) (e : exn) :
  insert_sorted x l = Raise e → e = TypeError.
Proof.
  induction l as [|y l IH]; simpl; [done|].
  destruct (value_lt x.1 y.1) as [lt|e'] eqn:Hlt; simpl.
  - destruct lt; [done|]. destruct (insert_sorted x l); simpl; [done|].
    intros [= <-]. by apply IH.
  - intros [= <-]. unfold value_lt in Hlt.
    destruct x.1, y.1; congruence.
Qed.

Lemma sort_pairs_Raise (l acc : list (value * dict)) (e : exn) :
  sort_pairs l acc = Raise e → e = TypeError.
Proof.
  revert acc. induction l as [|x l IH]; intros acc; simpl; [done|].
  destruct (insert_sorted x acc) as [acc'|e'] eqn:Hins; simpl; [apply IH|].
  intros [= <-]. by eapply insert_sorted_Raise.
Qed.

(** X16. Sorting fails with [KeyError] exactly when some vehicle has no
    [gruppe] field; the only other exception it can raise is the
    [TypeError] of a comparison. *)
Theorem X16_sorted_by_gruppe_KeyError (vehicles : list dict) :
  (sorted_by_gruppe vehicles = Raise KeyError ↔
     ∃ v, v ∈ vehicles ∧ v !! KEY_GRUPPE = None) ∧
  (∀ e, sorted_by_gruppe vehicles = Raise e → e = KeyError ∨ e = TypeError).
Proof.
  unfold sorted_by_gruppe.
  destruct (mapM (λ x : dict, getitem x KEY_GRUPPE) vehicles) as [ks|e] eqn:Hks;
    simpl.
  - assert (Hsort : ∀ e, sort_pairs (zip ks vehicles) [] ≫= (λ sorted, Ok sorted.*2)
                        = Raise e → e = TypeError).
    { intros e. destruct (sort_pairs (zip ks vehicles) []) eqn:Hr; simpl; [done|].
      intros [= <-]. by eapply sort_pairs_Raise. }
    split; [|intros e ?%Hsort; by right].
    split; [by intros ?%Hsort|].
    intros (v & [i Hi]%list_elem_of_lookup & Hv).
    apply mapM_result_Ok in Hks.
    destruct (Forall2_lookup_l _ _ _ _ _ Hks Hi) as (k & _ & Hk).
    unfold getitem in Hk. by rewrite Hv in Hk.
  - apply mapM_result_Raise in Hks as (v & Hin & Hv).
    unfold getitem in Hv. destruct (v !! KEY_GRUPPE) eqn:Hg; [done|].
    injection Hv as <-. split; [|intros ? [= <-]; by left].
    split; [by eauto | done].
Qed.

(** ** Recency colours *)

(** X11. For dates with months 1 to 12, a record gets no colour exactly
    when its date lies in the month of today or in a later month; the day
    of the month plays no part. *)
Theorem X11_no_color_iff_not_past_month
    (strptime : string → option datetime) (today d : datetime) (s : string) :
  strptime s = Some d →
  1 ≤ month today ≤ 12 →
  1 ≤ month d ≤ 12 →
  (colorByAge strptime today (VStr s) = Ok None ↔
     year today < year d ∨ (year today = year d ∧ month today ≤ month d)).
Proof.
  intros Hs Ht Hd. rewrite (colorByAge_classify _ _ _ _ Hs).
  unfold classify, dateDiffMonths.
  repeat case_match; simpl; split; try done; try lia.
Qed.

Lemma X11_no_color_iff_not_past_month_witness :
  colorByAge strptime_Ymd april_first (VStr "2023-04-30") = Ok None.
Proof.
  apply (X11_no_color_iff_not_past_month strptime_Ymd april_first
           {| year := 2023; month := 4; day := 30 |} "2023-04-30");
    [reflexivity | simpl; lia | simpl; lia | right; simpl; lia].
Defined.

(** X12. Of two dates, the one in the earlier or the same month never gets
    the less aged colour: the colours none, green, orange, red follow the
    age of the date. *)
Theorem X12_color_follows_age
    (strptime : string → option datetime) (today d1 d2 : datetime)
    (s1 s2 : string) :
  strptime s1 = Some d1 →
  strptime s2 = Some d2 →
  year d2 * 12 + month d2 ≤ year d1 * 12 + month d1 →
  ∃ c1 c2,
    colorByAge strptime today (VStr s1) = Ok c1 ∧
    colorByAge strptime today (VStr s2) = Ok c2 ∧
    color_rank c1 ≤ color_rank c2.
Proof.
  intros Hs1 Hs2 Hle.
  rewrite (colorByAge_classify _ _ _ _ Hs1), (colorByAge_classify _ _ _ _ Hs2).
  do 2 eexists. split; [done|]. split; [done|].
  unfold classify, dateDiffMonths.
  repeat case_match; simpl; try done; lia.
Qed.

Lemma X12_color_follows_age_witness :
  ∃ c1 c2,
    colorByAge strptime_Ymd april_first (VStr "2023-01-31") = Ok c1 ∧
    colorByAge strptime_Ymd april_first (VStr "2022-01-01") = Ok c2 ∧
    color_rank c1 ≤ color_rank c2.
Proof.
  apply (X12_color_follows_age strptime_Ymd april_first
           {| year := 2023; month := 1; day := 31 |}
           {| year := 2022; month := 1; day := 1 |});
    [reflexivity | reflexivity | simpl; lia].
Defined.

(** ** Columns and rows *)

Lemma dedup_first_sublist (l : list string) : dedup_first l `sublist_of` l.
Proof.
  induction l as [|x l IH]; simpl; [done|].
  apply sublist_skip. by rewrite sublist_filter.
Qed.

Lemma filter_Forall_id {A : Type} (P : A → Prop) `{!∀ x, Decision (P x)}
    (l : list A) :
  Forall P l → filter P l = l.
Proof.
  induction 1 as [|x l Hx _ IH]; [done|].
  rewrite filter_cons_True by done. by rewrite IH.
Qed.

Lemma dedup_first_NoDup_id (l : list string) : NoDup l → dedup_first l = l.
Proof.
  induction 1 as [|x l Hx _ IH]; simpl; [done|]. rewrite IH. f_equal.
  apply filter_Forall_id, Forall_forall. by intros y Hy ->.
Qed.

(** X17. The sanitized columns are taken from the requested ones in the
    order of the request, and sanitizing them again changes nothing. *)
Theorem X17_sanitize_keys_order_idempotent
    (keys ks : list string) (first : dict) (rest : list dict) :
  sanitize_keys (Some keys) (first :: rest) = Ok ks →
  ks `sublist_of` keys ∧
  sanitize_keys (Some ks) (first :: rest) = Ok ks.
Proof.
  rewrite !sanitize_keys_spec. intros [= <-]. split.
  - rewrite dedup_first_sublist. apply sublist_filter.
  - f_equal. rewrite filter_Forall_id.
    + apply dedup_first_NoDup_id, dedup_first_NoDup.
    + apply Forall_forall. intros k.
      rewrite dedup_first_elem_of, list_elem_of_filter. by intros [? _].
Qed.

Lemma X17_sanitize_keys_order_idempotent_witness :
  sanitize_keys (Some ["info"; "bogus"; "rnr"; "info"; "gruppe"])
    [fleet_first; fleet_second] = Ok ["info"; "gruppe"] ∧
  sanitize_keys (Some ["info"; "gruppe"]) [fleet_first; fleet_second]
    = Ok ["info"; "gruppe"].
Proof.
  assert (Hrun : sanitize_keys (Some ["info"; "bogus"; "rnr"; "info"; "gruppe"])
            [fleet_first; fleet_second] = Ok ["info"; "gruppe"])
    by (vm_compute; reflexivity).
  split; [exact Hrun|].
  exact (proj2 (X17_sanitize_keys_order_idempotent _ _ _ _ Hrun)).
Defined.

Lemma emit_row_length (keys : list string) (v : dict) (row : list value) :
  emit_row keys v = Ok row → length row = S (length keys).
Proof.
  unfold emit_row. intros (rnr & _ & H)%result_bind_Ok.
  apply result_bind_Ok in H as (columns & Hcolumns & [= <-]).
  apply mapM_result_Ok, Forall2_length in Hcolumns. simpl. lia.
Qed.

(** X18. A report that [processVehicleData] produces is a rectangular
    table with one row per vehicle of the response under the header: the
    rows are the emitted rows of the vehicles in sorted order, and every
    row, the header included, has one cell for [rnr] and one for every
    sanitized column. *)
Theorem X18_report_rows
    (strptime : string → option datetime) (now : nat → datetime)
    (vehicles : list dict) (keys : option (list string)) (colored : bool)
    (ws : Worksheet) :
  processVehicleData strptime now vehicles keys colored = Ok (Some ws) →
  ∃ sorted ks rows,
    sorted_by_gruppe vehicles = Ok sorted ∧
    sorted ≡ₚ vehicles ∧
    sanitize_keys keys sorted = Ok ks ∧
    ws_rows ws = (VStr <$> KEY_RNR :: ks) :: rows ∧
    Forall2 (λ v row, emit_row ks v = Ok row) sorted rows ∧
    length (ws_rows ws) = S (length vehicles) ∧
    Forall (λ row, length row = S (length ks)) (ws_rows ws).
Proof.
  unfold processVehicleData. destruct vehicles as [|v0 vehicles]; [done|].
  intros (sorted & Hsorted & Hrun)%result_bind_Ok.
  apply result_bind_Ok in Hrun as (ks & Hks & Hrun).
  apply result_bind_Ok in Hrun as (ws' & Hrun & [= <-]).
  destruct (add_vehicles_rows _ _ _ _ _ _ _ _ _ Hrun) as (rows & Hrows & Hall).
  destruct (add_header_spec ks colored) as (Hheader & _).
  rewrite Hheader in Hrows.
  pose proof (sorted_by_gruppe_Permutation _ _ Hsorted) as Hperm.
  exists sorted, ks, rows. split; [done|]. split; [done|]. split; [done|].
  split; [done|]. split; [done|]. split.
  - rewrite Hrows. simpl. f_equal.
    by rewrite <- (Forall2_length _ _ _ Hall), Hperm.
  - rewrite Hrows. constructor.
    + rewrite length_fmap. done.
    + apply Forall_forall. intros row [i Hi]%list_elem_of_lookup.
      destruct (Forall2_lookup_r _ _ _ _ _ Hall Hi) as (v & _ & Hv).
      by eapply emit_row_length.
Qed.

Lemma X18_report_rows_witness :
  ∃ ws,
    processVehicleData strptime_Ymd (λ _, april_first)
      [fleet_second; fleet_first] (Some ["gruppe"; "hu"]) true = Ok (Some ws) ∧
    length (ws_rows ws) = 3%nat.
Proof.
  destruct (processVehicleData strptime_Ymd (λ _, april_first)
              [fleet_second; fleet_first] (Some ["gruppe"; "hu"]) true)
    as [[ws|]|e] eqn:Hrun; [|by vm_compute in Hrun..].
  exists ws. split; [done|].
  destruct (X18_report_rows _ _ _ _ _ _ Hrun)
    as (sorted & ks & rows & _ & _ & _ & _ & _ & Hlen & _).
  exact Hlen.
Defined.

(** ** Styles of a report *)

Lemma colorByAge_palette (strptime : string → option datetime)
    (today : datetime) (x : value) (c : string) :
  colorByAge strptime today x = Ok (Some c) →
  c ∈ [COLOR_GREEN; COLOR_ORANGE; COLOR_RED].
Proof.
  unfold colorByAge. destruct x as [| | |s]; try done.
  destruct (strptime s); [|done]. intros [= Hc].
  repeat case_match; simplify_eq; set_solver.
Qed.

Lemma vehicle_outcome_fill (strptime : string → option datetime)
    (keys : list string) (colored : bool) (idx : option nat) (today : datetime)
    (v : dict) (o : row_outcome) (p : PatternFill) :
  vehicle_outcome strptime keys colored idx today v = Ok o →
  fill_of (ro_rowColor o) = Some p →
  colored = true ∧
  ∃ c, c ∈ [COLOR_GREEN; COLOR_ORANGE; COLOR_RED] ∧ p = solid c.
Proof.
  intros Ho Hp. destruct (vehicle_outcome_inv _ _ _ _ _ _ _ Ho) as (_ & Hcolor & _).
  destruct colored; [|by rewrite Hcolor in Hp].
  destruct Hcolor as (hu & _ & Hcol). split; [done|].
  rewrite (colorByAge_fill _ _ _ _ Hcol) in Hp.
  destruct (ro_rowColor o) as [c|]; [|done]. injection Hp as <-.
  exists c. split; [|done]. by eapply colorByAge_palette.
Qed.

(** X19. The fills of a report come from a fixed palette and only from a
    styled run: the header row can only have the grey fill, a data row
    only the green, orange or red fill, and a cell only the fill of its own
    row. *)
Theorem X19_fills_from_palette
    (strptime : string → option datetime) (now : nat → datetime)
    (vehicles : list dict) (keys : list string) (colored : bool) (ws : Worksheet) :
  createExcelFile strptime now vehicles keys colored = Ok ws →
  (∀ (r : nat) p, rd_fill (row_dimension ws r) = Some p →
     colored = true ∧
     ((r = 1%nat ∧ p = solid "CCCCCC") ∨
      ((2 ≤ r)%nat ∧
       ∃ c, c ∈ [COLOR_GREEN; COLOR_ORANGE; COLOR_RED] ∧ p = solid c))) ∧
  (∀ (r c : nat) p, cell_fill (cell ws r c) = Some p →
     (2 ≤ r)%nat ∧ rd_fill (row_dimension ws r) = Some p).
Proof.
  intros Hrun.
  destruct (createExcelFile_spec _ _ _ _ _ _ Hrun)
    as (os & Hos & _ & Hheader & Hdims & Hcells).
  split.
  - intros r p. destruct (row_cases vehicles r) as [->|[(i & v & -> & Hv)|Hr]].
    + rewrite (row_dimension_lookup _ _ _ Hheader). simpl.
      destruct colored; [|done]. intros [= <-]. split; [done|]. by left.
    + destruct (createExcelFile_row _ _ _ _ _ _ _ _ Hrun Hv) as (o & Ho & -> & _).
      intros Hp. destruct (vehicle_outcome_fill _ _ _ _ _ _ _ _ Ho Hp) as [-> Hc].
      split; [done|]. right. split; [lia | done].
    + by rewrite (row_dimension_None _ _ (Hdims r Hr)).
  - intros r c p. destruct (row_cases vehicles r) as [->|[(i & v & -> & Hv)|Hr]].
    + rewrite cell_None; [done|]. apply Hcells. lia.
    + destruct (createExcelFile_row _ _ _ _ _ _ _ _ Hrun Hv) as (o & Ho & -> & Hc).
      rewrite Hc. intros Hp. split; [lia|].
      destruct (ro_labelColor o), (labelIdsIndex keys); try done.
      by case_decide.
    + rewrite cell_None; [done|]. apply Hcells. lia.
Qed.

Lemma X19_fills_from_palette_witness :
  ∃ ws,
    createExcelFile strptime_Ymd (λ _, april_first) [tinted] ["gruppe"; "labelIds"]
      true = Ok ws ∧
    cell_fill (cell ws 2 3) = Some (solid COLOR_GREEN) ∧
    rd_fill (row_dimension ws 2) = Some (solid COLOR_GREEN).
Proof.
  destruct (createExcelFile strptime_Ymd (λ _, april_first) [tinted]
              ["gruppe"; "labelIds"] true) as [ws|e] eqn:Hrun;
    [|by vm_compute in Hrun].
  exists ws. split; [done|].
  assert (Hcell : cell_fill (cell ws 2 3) = Some (solid COLOR_GREEN)).
  { vm_compute in Hrun. by injection Hrun as <-. }
  split; [exact Hcell|].
  exact (proj2 (proj2 (X19_fills_from_palette _ _ _ _ _ _ Hrun) _ _ _ Hcell)).
Defined.

Lemma vehicle_outcome_uncolored (strptime : string → option datetime)
    (keys : list string) (idx : option nat) (today : datetime) (v : dict)
    (o : row_outcome) :
  vehicle_outcome strptime keys true idx today v = Ok o →
  vehicle_outcome strptime keys false idx today v =
    Ok {| ro_row := ro_row o; ro_rowColor := None;
          ro_labelColor := ro_labelColor o |}.
Proof.
  unfold vehicle_outcome.
  destruct (emit_row keys v) as [row|e]; simpl; [|done].
  destruct (getitem v KEY_HU) as [hu|e]; simpl; [|done].
  destruct (colorByAge strptime today hu) as [rowColor|e]; simpl; [|done].
  destruct idx as [column|]; [|by intros [= <-]].
  destruct (negb (column =? 0)%nat && has_labelColor v); [|by intros [= <-]].
  destruct (getitem v KEY_LABELCOLOR) as [c|e]; simpl; [|done].
  destruct (value_lstrip "#" c); simpl; [|done]. by intros [= <-].
Qed.

Lemma Forall2_emit_row_eq (keys : list string) (vs : list dict)
    (rows rows' : list (list value)) :
  Forall2 (λ v row, emit_row keys v = Ok row) vs rows →
  Forall2 (λ v row, emit_row keys v = Ok row) vs rows' →
  rows = rows'.
Proof.
  intros H. revert rows'. induction H as [|v row vs rows Hv _ IH]; intros rows' H'.
  - by inversion H'.
  - inversion H' as [|? row' ? rows'' Hv' Hrest]; subst.
    f_equal; [congruence | by apply IH].
Qed.

(** X20. Styling only adds fills. If the styled run produces a report, the
    unstyled run over the same vehicles and columns produces one too, with
    the same rows and the same fonts on every row and cell. *)
Theorem X20_styling_only_adds_fills
    (strptime : string → option datetime) (now : nat → datetime)
    (vehicles : list dict) (keys : list string) (ws : Worksheet) :
  createExcelFile strptime now vehicles keys true = Ok ws →
  ∃ ws',
    createExcelFile strptime now vehicles keys false = Ok ws' ∧
    ws_rows ws' = ws_rows ws ∧
    (∀ r : nat, rd_font (row_dimension ws' r) = rd_font (row_dimension ws r)) ∧
    (∀ r c : nat, cell_font (cell ws' r c) = cell_font (cell ws r c)).
Proof.
  intros Hrun.
  destruct (createExcelFile_spec _ _ _ _ _ _ Hrun)
    as (os & Hos & _ & Hheader & Hdims & Hcells).
  destruct (add_vehicles_total strptime now keys false (labelIdsIndex keys)
              vehicles 2 (add_header keys false new_worksheet)) as [ws' Hrun'].
  { intros i v Hv. destruct (Hos i v Hv) as (o & _ & Ho & _).
    rewrite (vehicle_outcome_uncolored _ _ _ _ _ _ Ho). eauto. }
  change (createExcelFile strptime now vehicles keys false = Ok ws') in Hrun'.
  destruct (createExcelFile_spec _ _ _ _ _ _ Hrun')
    as (os' & Hos' & _ & Hheader' & Hdims' & Hcells').
  exists ws'. split; [done|]. split; [|split].
  - destruct (add_vehicles_rows _ _ _ _ _ _ _ _ _ Hrun) as (rows & -> & Hall).
    destruct (add_vehicles_rows _ _ _ _ _ _ _ _ _ Hrun') as (rows' & -> & Hall').
    rewrite (Forall2_emit_row_eq _ _ _ _ Hall Hall').
    destruct (add_header_spec keys true) as (-> & _).
    by destruct (add_header_spec keys false) as (-> & _).
  - intros r. destruct (row_cases vehicles r) as [->|[(i & v & -> & Hv)|Hr]].
    + by rewrite (row_dimension_lookup _ _ _ Hheader),
                 (row_dimension_lookup _ _ _ Hheader').
    + destruct (Hos i v Hv) as (o & _ & _ & Hdim & _).
      destruct (Hos' i v Hv) as (o' & _ & _ & Hdim' & _).
      unfold row_dimension. rewrite Hdim, Hdim'. unfold outcome_row_dimension.
      by destruct (fill_of (ro_rowColor o)), (fill_of (ro_rowColor o')).
    + by rewrite (row_dimension_None _ _ (Hdims r Hr)),
                 (row_dimension_None _ _ (Hdims' r Hr)).
  - intros r c. destruct (row_cases vehicles r) as [->|[(i & v & -> & Hv)|Hr]].
    + rewrite !cell_None; [done| apply Hcells; lia | apply Hcells'; lia].
    + destruct (createExcelFile_row _ _ _ _ _ _ _ _ Hrun Hv) as (o & Ho & _ & Hc).
      destruct (createExcelFile_row _ _ _ _ _ _ _ _ Hrun' Hv) as (o' & Ho' & _ & Hc').
      rewrite (vehicle_outcome_uncolored _ _ _ _ _ _ Ho) in Ho'.
      injection Ho' as <-. rewrite Hc, Hc'. simpl.
      destruct (ro_labelColor o), (labelIdsIndex keys); try done.
      by case_decide.
    + rewrite !cell_None; [done| apply Hcells; lia | apply Hcells'; lia].
Qed.

Lemma X20_styling_only_adds_fills_witness :
  ∃ ws ws',
    createExcelFile strptime_Ymd (λ _, april_first) [tinted] ["gruppe"; "labelIds"]
      true = Ok ws ∧
    createExcelFile strptime_Ymd (λ _, april_first) [tinted] ["gruppe"; "labelIds"]
      false = Ok ws' ∧
    ws_rows ws' = ws_rows ws.
Proof.
  destruct (createExcelFile strptime_Ymd (λ _, april_first) [tinted]
              ["gruppe"; "labelIds"] true) as [ws|e] eqn:Hrun;
    [|by vm_compute in Hrun].
  destruct (X20_styling_only_adds_fills _ _ _ _ _ Hrun) as (ws' & Hrun' & Hrows & _).
  by exists ws, ws'.
Defined.

(** X21. Only label cells are ever styled: a styled cell stands in the
    label column, in the row of a vehicle with a non-empty [_labelColor].
    Without the label column among the columns no cell is styled. *)
Theorem X21_only_label_cells_styled
    (strptime : string → option datetime) (now : nat → datetime)
    (vehicles : list dict) (keys : list string) (colored : bool) (ws : Worksheet)
    (r c : nat) (style : CellStyle) :
  createExcelFile strptime now vehicles keys colored = Ok ws →
  cells ws !! (r, c) = Some style →
  labelIdsIndex keys = Some c ∧
  ∃ (i : nat) v, r = (2 + i)%nat ∧ vehicles !! i = Some v ∧
                 has_labelColor v = true.
Proof.
  intros Hrun Hstyle.
  destruct (createExcelFile_spec _ _ _ _ _ _ Hrun)
    as (os & Hos & _ & _ & _ & Hcells).
  destruct (row_cases vehicles r) as [->|[(i & v & -> & Hv)|Hr]].
  - rewrite Hcells in Hstyle by lia. done.
  - destruct (Hos i v Hv) as (o & _ & Ho & _ & Hc).
    rewrite Hc in Hstyle. unfold outcome_cell in Hstyle.
    destruct (vehicle_outcome_inv _ _ _ _ _ _ _ Ho) as (_ & _ & Hread).
    destruct (ro_labelColor o) as [s|] eqn:Hs; [|done].
    destruct (labelIdsIndex keys) as [column|]; [|done].
    case_decide; [subst c|done]. split; [done|].
    exists i, v. split; [done|]. split; [done|].
    destruct (negb (column =? 0)%nat && has_labelColor v) eqn:Hcond; [|done].
    by apply andb_true_iff in Hcond as [_ ?].
  - rewrite Hcells in Hstyle by lia. done.
Qed.

Lemma X21_only_label_cells_styled_witness :
  ∃ ws,
    createExcelFile strptime_Ymd (λ _, april_first) [tinted] ["gruppe"; "labelIds"]
      false = Ok ws ∧
    labelIdsIndex ["gruppe"; "labelIds"] = Some 3%nat.
Proof.
  destruct (createExcelFile strptime_Ymd (λ _, april_first) [tinted]
              ["gruppe"; "labelIds"] false) as [ws|e] eqn:Hrun;
    [|by vm_compute in Hrun].
  exists ws. split; [done|].
  assert (Hstyle : cells ws !! (2%nat, 3%nat) =
            Some {| cell_font := Some (label_font "ff0000"); cell_fill := None |}).
  { vm_compute in Hrun. by injection Hrun as <-. }
  exact (proj1 (X21_only_label_cells_styled _ _ _ _ _ _ _ _ _ Hrun Hstyle)).
Defined.

Lemma list_index_lookup (x : string) (keys : list string) (i : nat) :
  list_index x keys = Some i → keys !! i = Some x.
Proof.
  revert i. induction keys as [|k keys IH]; intros i; simpl; [done|].
  case_decide as Hk; [by intros [= <-]; subst|].
  destruct (list_index x keys) as [j|]; [|done].
  intros [= <-]. by apply IH.
Qed.

(** X10. The font colour lands on the label cell: the column number that
    is styled is the column whose header cell reads [labelIds], and in the
    row of every vehicle the cell of that column holds the vehicle's
    [labelIds] value (row number [2 + i] is the row behind the header and
    [i] other rows, column numbers count from 1). *)
Theorem X10_label_column_alignment
    (strptime : string → option datetime) (now : nat → datetime)
    (vehicles : list dict) (keys : list string) (colored : bool) (ws : Worksheet)
    (i : nat) (v : dict) (column : nat) :
  createExcelFile strptime now vehicles keys colored = Ok ws →
  vehicles !! i = Some v →
  labelIdsIndex keys = Some column →
  ∃ header row l,
    ws_rows ws !! 0%nat = Some header ∧
    header !! (column - 1)%nat = Some (VStr KEY_LABELIDS) ∧
    ws_rows ws !! (1 + i)%nat = Some row ∧
    v !! KEY_LABELIDS = Some l ∧
    row !! (column - 1)%nat = Some l.
Proof.
  intros Hrun Hv Hidx. unfold labelIdsIndex in Hidx.
  destruct (list_index KEY_LABELIDS keys) as [j|] eqn:Hj; [|done].
  injection Hidx as <-. apply list_index_lookup in Hj.
  replace (j + 2 - 1)%nat with (S j) by lia.
  destruct (add_vehicles_rows _ _ _ _ _ _ _ _ _ Hrun) as (rows & Hrows & Hall).
  destruct (add_header_spec keys colored) as (Hheader & _).
  rewrite Hheader in Hrows. simpl in Hrows.
  destruct (Forall2_lookup_l _ _ _ _ _ Hall Hv) as (row & Hrow & Hemit).
  unfold emit_row in Hemit.
  apply result_bind_Ok in Hemit as (rnr & _ & Hemit).
  apply result_bind_Ok in Hemit as (columns & Hcolumns & [= <-]).
  apply mapM_result_Ok in Hcolumns.
  destruct (Forall2_lookup_l _ _ _ _ _ Hcolumns Hj) as (l & Hl & Hget).
  unfold getitem in Hget.
  destruct (v !! KEY_LABELIDS) as [l'|] eqn:Hlabel; [|done].
  injection Hget as ->.
  exists (VStr <$> KEY_RNR :: keys), (rnr :: columns), l.
  rewrite Hrows. simpl. split; [done|]. split.
  - by rewrite list_lookup_fmap, Hj.
  - done.
Qed.

Lemma X10_label_column_alignment_witness :
  ∃ ws header row l,
    createExcelFile strptime_Ymd (λ _, april_first) [tinted] ["gruppe"; "labelIds"]
      false = Ok ws ∧
    ws_rows ws !! 0%nat = Some header ∧
    header !! 2%nat = Some (VStr KEY_LABELIDS) ∧
    ws_rows ws !! 1%nat = Some row ∧
    tinted !! KEY_LABELIDS = Some l ∧
    row !! 2%nat = Some l.
Proof.
  destruct (createExcelFile strptime_Ymd (λ _, april_first) [tinted]
              ["gruppe"; "labelIds"] false) as [ws|e] eqn:Hrun;
    [|by vm_compute in Hrun].
  destruct (X10_label_column_alignment _ _ _ _ _ _ 0%nat tinted 3%nat Hrun
              eq_refl eq_refl) as (header & row & l & H).
  by exists ws, header, row, l.
Defined.

(** ** The outcome of a client run *)

Lemma processVehicleData_None (strptime : string → option datetime)
    (now : nat → datetime) (vehicles : list dict) (keys : option (list string))
    (colored : bool) :
  processVehicleData strptime now vehicles keys colored = Ok None ↔ vehicles = [].
Proof.
  unfold processVehicleData. destruct vehicles as [|v vehicles]; [done|].
  split; [|done].
  intros (sorted & _ & H)%result_bind_Ok.
  apply result_bind_Ok in H as (ks & _ & H).
  by apply result_bind_Ok in H as (ws & _ & ?).
Qed.

(** X13. [processVehicleData] returns [False] exactly when the request to
    the server raised, or the answer is a JSON object with a message and
    either has a status other than 200 or carries an empty list of
    vehicles. An answer whose body is not JSON, is not an object or has no
    message makes the function raise whatever the status is, and so does
    an answer with status 200 and no vehicles entry. Once a report is
    assembled the function does not return [False]: it returns [True] when
    the report is saved, and when saving fails the failure branch raises
    [NameError] (it logs through the undefined name [loging]). *)
Theorem X13_client_outcome
    (strptime : string → option datetime) (now : nat → datetime)
    (reply : server_reply) (keys : option (list string))
    (colored saved : bool) :
  (processVehicleData_reply strptime now reply keys colored saved = ReturnedFalse ↔
     reply = NoReply ∨
     ∃ status_code message vehicles,
       reply = Reply status_code (JSONObject (Some message) vehicles) ∧
       (status_code ≠ 200 ∨ vehicles = Some [])) ∧
  (∀ status_code,
     processVehicleData_reply strptime now (Reply status_code NotJSON)
       keys colored saved = Uncaught ValueError ∧
     processVehicleData_reply strptime now (Reply status_code JSONValue)
       keys colored saved = Uncaught TypeError ∧
     ∀ vehicles,
       processVehicleData_reply strptime now
         (Reply status_code (JSONObject None vehicles)) keys colored saved
       = Uncaught KeyError) ∧
  (∀ message,
     processVehicleData_reply strptime now
       (Reply 200 (JSONObject (Some message) None)) keys colored saved
     = Uncaught KeyError) ∧
  (processVehicleData_reply strptime now reply keys colored saved
     = UncaughtNameError ↔
     saved = false ∧
     ∃ message vehicles ws,
       reply = Reply 200 (JSONObject (Some message) (Some vehicles)) ∧
       processVehicleData strptime now vehicles keys colored = Ok (Some ws)) ∧
  (∀ ws, processVehicleData_reply strptime now reply keys colored saved
           = ReturnedTrue ws ↔
     saved = true ∧
     ∃ message vehicles,
       reply = Reply 200 (JSONObject (Some message) (Some vehicles)) ∧
       processVehicleData strptime now vehicles keys colored = Ok (Some ws)).
Proof.
  split; [|split; [|split; [|split]]].
  - split.
    + destruct reply as [|status_code [| |[message|] vehicles]]; [by left|..];
        unfold processVehicleData_reply;
        destruct (status_code =? 200) eqn:Hst; simpl; try done.
      * apply Z.eqb_eq in Hst as ->.
        destruct vehicles as [vs|]; simpl; [|done].
        pose proof (processVehicleData_None strptime now vs keys colored) as Hnone.
        destruct (processVehicleData strptime now vs keys colored)
          as [[ws|]|e]; [by destruct saved| |done].
        intros _. right. exists 200, message, (Some vs).
        split; [done|]. right. f_equal. by apply Hnone.
      * apply Z.eqb_neq in Hst. intros _. right.
        exists status_code, message, vehicles. by auto.
    + intros [->|(status_code & message & vehicles & -> & Hcase)]; [done|].
      unfold processVehicleData_reply.
      destruct (status_code =? 200) eqn:Hst; simpl; [|done].
      apply Z.eqb_eq in Hst.
      destruct Hcase as [?| ->]; [done|]. done.
  - intros status_code. unfold processVehicleData_reply.
    by destruct (status_code =? 200).
  - done.
  - split.
    + destruct reply as [|status_code [| |[message|] vehicles]]; [done|..];
        unfold processVehicleData_reply;
        destruct (status_code =? 200) eqn:Hst; simpl; try done.
      apply Z.eqb_eq in Hst as ->.
      destruct vehicles as [vs|]; simpl; [|done].
      destruct (processVehicleData strptime now vs keys colored)
        as [[ws|]|e] eqn:Hrun; [|done..].
      destruct saved; [done|]. intros _. split; [done|].
      by exists message, vs, ws.
    + intros (-> & message & vehicles & ws & -> & Hrun).
      unfold processVehicleData_reply. simpl. by rewrite Hrun.
  - intros ws. split.
    + destruct reply as [|status_code [| |[message|] vehicles]]; [done|..];
        unfold processVehicleData_reply;
        destruct (status_code =? 200) eqn:Hst; simpl; try done.
      apply Z.eqb_eq in Hst as ->.
      destruct vehicles as [vs|]; simpl; [|done].
      destruct (processVehicleData strptime now vs keys colored)
        as [[ws'|]|e] eqn:Hrun; [|done..].
      destruct saved; [|done]. intros [= <-]. split; [done|].
      by exists message, vs.
    + intros (-> & message & vehicles & -> & Hrun).
      unfold processVehicleData_reply. simpl. by rewrite Hrun.
Qed.

(** ** The handler as a whole *)

Lemma update_vehicle_keeps (d : gmap hkey dict) (v u : dict) (key : string)
    (x : value) :
  update_vehicle d v = Ok u →
  v !! key = Some x → truthy x = true → u !! key = Some x.
Proof.
  unfold update_vehicle. intros (k & _ & Hu)%result_bind_Ok Hx Ht.
  destruct (d !! hash_key k) as [av|]; injection Hu as <-; [|done].
  by rewrite fill_missing_lookup, Hx, Ht.
Qed.

Lemma vehicles_200
    (labels_endpoint : world → string → response)
    (raw active : list dict) (w w' : world) (answer : JSONResponse) :
  vehicles labels_endpoint raw active w = (Ok answer, w') →
  response_status answer = 200 →
  ∃ d vs lc',
    build_activeVehiclesDict active ∅ = Ok d ∧
    update_vehicles d raw = Ok vs ∧
    Forall2 (labelled lc') (filter_hu vs) (response_vehicles answer).
Proof.
  unfold vehicles. destruct raw as [|r raw]; [by intros [= <- <-]|].
  destruct active as [|a active]; [by intros [= <- <-]|].
  unfold lift, mbind, run_bind, mret, run_ret.
  destruct (build_activeVehiclesDict (a :: active) ∅) as [d|e]; [|done].
  destruct (update_vehicles d (r :: raw)) as [vs|e] eqn:Hupd; [|done].
  destruct (label_vehicles labels_endpoint (filter_hu vs) ∅ w)
    as [[[vs' lc']|e] w1] eqn:Hrun; [|done].
  intros [= <- <-] _. simpl.
  destruct (label_vehicles_spec _ _ _ _ _ _ Hrun) as (new & _ & _ & _ & Hok).
  destruct (Hok _ _ eq_refl) as (_ & _ & Hlab).
  by exists d, vs, lc'.
Qed.

(** X22. The vehicles of a 200 answer are exactly the reconciled records
    with a non-empty [hu], in their order, each with all its fields but
    [_labelColor] as reconciliation left them. In particular the answer is
    200 with no vehicles when no reconciled record has a non-empty [hu]. *)
Theorem X22_answer_is_filtered_reconciliation
    (labels_endpoint : world → string → response)
    (raw active : list dict) (w w' : world) (answer : JSONResponse) :
  vehicles labels_endpoint raw active w = (Ok answer, w') →
  response_status answer = 200 →
  ∃ d reconciled,
    build_activeVehiclesDict active ∅ = Ok d ∧
    update_vehicles d raw = Ok reconciled ∧
    Forall2 (λ v v' : dict, ∀ k, k ≠ KEY_LABELCOLOR → v' !! k = v !! k)
      (filter_hu reconciled) (response_vehicles answer) ∧
    (response_vehicles answer = [] ↔ Forall (λ v, has_hu v = false) reconciled).
Proof.
  intros Hrun Hst.
  destruct (vehicles_200 _ _ _ _ _ _ Hrun Hst) as (d & vs & lc' & Hd & Hvs & Hlab).
  exists d, vs. split; [done|]. split; [done|]. split.
  - eapply Forall2_impl; [exact Hlab|].
    intros v v' Hv k Hk. by eapply labelled_other_fields.
  - assert (Hnil : filter_hu vs = [] ↔ Forall (λ v, has_hu v = false) vs).
    { unfold filter_hu. clear. induction vs as [|v vs IH]; simpl.
      - split; [constructor | done].
      - destruct (has_hu v) eqn:Hv.
        + split; [done|]. intros [? _]%Forall_cons. congruence.
        + rewrite IH. split; [by constructor | by intros [_ ?]%Forall_cons]. }
    rewrite <- Hnil. split.
    + intros Hempty. rewrite Hempty in Hlab. by inversion Hlab.
    + intros Hempty. rewrite Hempty in Hlab. by inversion Hlab.
Qed.

Lemma X22_answer_is_filtered_reconciliation_witness :
  vehicles sample_endpoint [raw_B] [active_A; active_B] [] =
    (Ok {| response_status := 200; response_vehicles := [] |}, []) ∧
  ∃ d reconciled,
    build_activeVehiclesDict [active_A; active_B] ∅ = Ok d ∧
    update_vehicles d [raw_B] = Ok reconciled ∧
    Forall (λ v, has_hu v = false) reconciled.
Proof.
  assert (Hrun : vehicles sample_endpoint [raw_B] [active_A; active_B] [] =
    (Ok {| response_status := 200; response_vehicles := [] |}, []))
    by (vm_compute; reflexivity).
  split; [exact Hrun|].
  destruct (X22_answer_is_filtered_reconciliation _ _ _ _ _ _ Hrun eq_refl)
    as (d & reconciled & Hd & Hvs & _ & Hempty).
  exists d, reconciled. split; [done|]. split; [done|]. by apply Hempty.
Defined.

(** X23. Every vehicle of a 200 answer comes from a CSV row, and every
    non-empty value of that row, the identifier included, is still the
    value of the vehicle, except possibly under [_labelColor]. *)
Theorem X23_answer_keeps_csv_values
    (labels_endpoint : world → string → response)
    (raw active : list dict) (w w' : world) (answer : JSONResponse) (v' : dict) :
  vehicles labels_endpoint raw active w = (Ok answer, w') →
  response_status answer = 200 →
  v' ∈ response_vehicles answer →
  ∃ v, v ∈ raw ∧
    ∀ key x, key ≠ KEY_LABELCOLOR →
      v !! key = Some x → truthy x = true → v' !! key = Some x.
Proof.
  intros Hrun Hst [j Hj]%list_elem_of_lookup.
  destruct (vehicles_200 _ _ _ _ _ _ Hrun Hst) as (d & vs & lc' & Hd & Hvs & Hlab).
  destruct (Forall2_lookup_r _ _ _ _ _ Hlab Hj) as (u & Hu & Huv').
  apply list_elem_of_lookup_2 in Hu. unfold filter_hu in Hu.
  apply list_elem_of_In, filter_In in Hu as [Hu _].
  apply list_elem_of_In, list_elem_of_lookup in Hu as [i Hi].
  apply mapM_result_Ok in Hvs.
  destruct (Forall2_lookup_r _ _ _ _ _ Hvs Hi) as (v & Hv & Hvu).
  exists v. split; [by eapply list_elem_of_lookup_2|].
  intros key x Hkey Hx Ht.
  rewrite (labelled_other_fields _ _ _ key Huv' Hkey).
  by eapply update_vehicle_keeps.
Qed.

Lemma X23_answer_keeps_csv_values_witness :
  vehicles sample_endpoint [raw_A; raw_B] [active_A; active_B] [] =
    (Ok {| response_status := 200;
           response_vehicles := [<[KEY_LABELCOLOR := VStr "#ff0000"]> labelled_A] |},
     ["7"]) ∧
  ∃ v, v ∈ [raw_A; raw_B] ∧
    ∀ key x, key ≠ KEY_LABELCOLOR →
      v !! key = Some x → truthy x = true →
      (<[KEY_LABELCOLOR := VStr "#ff0000"]> labelled_A) !! key = Some x.
Proof.
  assert (Hrun : vehicles sample_endpoint [raw_A; raw_B] [active_A; active_B] [] =
    (Ok {| response_status := 200;
           response_vehicles := [<[KEY_LABELCOLOR := VStr "#ff0000"]> labelled_A] |},
     ["7"])) by (vm_compute; reflexivity).
  split; [exact Hrun|].
  apply (X23_answer_keeps_csv_values _ _ _ _ _ _ _ Hrun eq_refl).
  by left.
Defined.
